(** * newswatch: the credibility pipeline, embedded and verified

    A shallow embedding of the TypeScript services of the repository

      - [src/services/NLPAnalyzer.ts]     (claim extraction, stylistic analysis)
      - [src/services/FactChecker.ts]     (remote lookup, heuristic fallback)
      - [src/services/GuardianService.ts] (score combination, report assembly)

    followed by the properties of the specification that concern them.

    Conventions of the embedding.
      - A JavaScript [number] is a value of a type [N] carrying the
        operations the services use (class [Number]).  Two instances are
        given: exact rationals [Q], on which the general theorems are
        proved, and IEEE 754 binary64 ([float]), on which the concrete
        scenarios are evaluated again.
      - A JavaScript string is a [string] whose characters are the code
        units below 256 (Latin-1); [toLowerCase] and the regular
        expression classes are those of ECMAScript restricted to them.
      - Asynchronous, fallible code is written in a state-and-exception
        monad over a [World] holding the clock, the random source, the
        network and the trace of external effects.  Calls to [logger] are
        left out: they produce no value and change no state the services
        read. *)

From Stdlib Require Import String Ascii List Bool Arith ZArith Lia.
From Stdlib Require Import QArith Qminmax Lqa.
From Stdlib Require Import Floats Uint63.
Import ListNotations.

Set Implicit Arguments.

(* ------------------------------------------------------------------ *)
(** ** JavaScript numbers *)

Class Number (N : Type) : Type := {
  lit    : Q -> N;            (* a decimal literal of the source text *)
  n_add  : N -> N -> N;
  n_sub  : N -> N -> N;
  n_mul  : N -> N -> N;
  n_div  : N -> N -> N;
  n_max  : N -> N -> N;       (* Math.max *)
  n_min  : N -> N -> N;       (* Math.min *)
  n_ltb  : N -> N -> bool;    (* < *)
  of_len : nat -> N           (* the number held by [array.length] *)
}.

Declare Scope js_scope.
Delimit Scope js_scope with js.
Notation "x + y" := (n_add x y) : js_scope.
Notation "x - y" := (n_sub x y) : js_scope.
Notation "x * y" := (n_mul x y) : js_scope.
Notation "x / y" := (n_div x y) : js_scope.
Notation "x <? y" := (n_ltb x y) : js_scope.

(** Exact arithmetic. *)
#[export] Instance Q_Number : Number Q := {
  lit q  := q;
  n_add  := Qplus;
  n_sub  := Qminus;
  n_mul  := Qmult;
  n_div  := Qdiv;
  n_max  := Qmax;
  n_min  := Qmin;
  n_ltb a b := negb (Qle_bool b a);
  of_len n := inject_Z (Z.of_nat n)
}.

(** binary64.  A literal [p/q] with small [p], [q] is the correctly rounded
    quotient of two exactly represented integers, that is, the double
    nearest to the decimal. *)
Definition float_of_Z (z : Z) : float :=
  match z with
  | Zneg _ => PrimFloat.opp (PrimFloat.of_uint63 (Uint63.of_Z (Z.opp z)))
  | _ => PrimFloat.of_uint63 (Uint63.of_Z z)
  end.

Definition float_max (a b : float) : float :=
  if PrimFloat.is_nan a || PrimFloat.is_nan b then PrimFloat.nan
  else if PrimFloat.ltb a b then b
  else if PrimFloat.ltb b a then a
  else if PrimFloat.get_sign a then b else a.

Definition float_min (a b : float) : float :=
  if PrimFloat.is_nan a || PrimFloat.is_nan b then PrimFloat.nan
  else if PrimFloat.ltb a b then a
  else if PrimFloat.ltb b a then b
  else if PrimFloat.get_sign a then a else b.

#[export] Instance float_Number : Number float := {
  lit q  := PrimFloat.div (float_of_Z (Qnum q)) (float_of_Z (Zpos (Qden q)));
  n_add  := PrimFloat.add;
  n_sub  := PrimFloat.sub;
  n_mul  := PrimFloat.mul;
  n_div  := PrimFloat.div;
  n_max  := float_max;
  n_min  := float_min;
  n_ltb  := PrimFloat.ltb;
  of_len n := float_of_Z (Z.of_nat n)
}.

(* ------------------------------------------------------------------ *)
(** ** The data model ([src/types]) *)

Definition Timestamp := nat.
Bind Scope nat_scope with Timestamp.

Inductive Verdict : Set := TRUE | FALSE | MIXED | UNVERIFIED | UNKNOWN.

Definition Verdict_eqb (a b : Verdict) : bool :=
  match a, b with
  | TRUE, TRUE | FALSE, FALSE | MIXED, MIXED
  | UNVERIFIED, UNVERIFIED | UNKNOWN, UNKNOWN => true
  | _, _ => false
  end.

Record NewsArticle : Type := {
  article_id  : string;
  title       : string;
  content     : string;
  url         : string;
  source      : string;
  publishedAt : Timestamp;
  author      : option string
}.

Record Claim : Type := {
  text        : string;
  context     : string;
  article     : NewsArticle;
  extractedAt : Timestamp
}.

Record FactCheckResult (N : Type) : Type := {
  claim       : Claim;
  verdict     : Verdict;
  confidence  : N;
  sources     : list string;
  explanation : string;
  checkedAt   : Timestamp
}.

Record MisinformationReport (N : Type) : Type := {
  report_id        : string;
  report_article   : NewsArticle;
  claims           : list Claim;
  factCheckResults : list (FactCheckResult N);
  overallScore     : N;
  flags            : list string;
  createdAt        : Timestamp
}.

(* ------------------------------------------------------------------ *)
(** ** JavaScript strings *)

Local Open Scope nat_scope.
Local Open Scope string_scope.

Definition code (c : ascii) : nat := nat_of_ascii c.

Definition between (lo hi : nat) (c : ascii) : bool :=
  (lo <=? code c)%nat && (code c <=? hi)%nat.

Definition isAsciiUpper : ascii -> bool := between 65 90.
Definition isAsciiLower : ascii -> bool := between 97 122.

(** Letters with a lower-case partner 32 code units above: A-Z, and the
    Latin-1 capitals U+00C0..U+00DE without the multiplication sign. *)
Definition isUpper (c : ascii) : bool :=
  isAsciiUpper c || (between 192 222 c && negb (code c =? 215)%nat).

Definition toLowerChar (c : ascii) : ascii :=
  if isUpper c then ascii_of_nat (code c + 32) else c.

(** [String.prototype.toLowerCase] *)
Fixpoint toLowerCase (s : string) : string :=
  match s with
  | EmptyString => EmptyString
  | String c s' => String (toLowerChar c) (toLowerCase s')
  end.

(** [String.prototype.includes] *)
Fixpoint includes (s sub : string) : bool :=
  prefix sub s ||
  match s with
  | EmptyString => false
  | String _ s' => includes s' sub
  end.

(** [String.prototype.indexOf]; [None] stands for -1. *)
Fixpoint indexOf (s sub : string) : option nat :=
  if prefix sub s then Some 0%nat
  else match s with
       | EmptyString => None
       | String _ s' => option_map S (indexOf s' sub)
       end.

(** [s.substring(from, to)] for [from <= to]. *)
Definition substring_js (from to : nat) (s : string) : string :=
  String.substring from (to - from) s.

(** [Array.prototype.join] *)
Definition join (sep : string) (l : list string) : string :=
  String.concat sep l.

(** A string is truthy when it is not empty. *)
Definition truthy (s : string) : bool :=
  match s with EmptyString => false | _ => true end.

(** [a || b] on strings *)
Definition or_else (a b : string) : string := if truthy a then a else b.

Definition hexDigit (n : nat) : ascii :=
  if (n <? 10)%nat then ascii_of_nat (48 + n) else ascii_of_nat (55 + n).

Definition percentByte (b : nat) : string :=
  String "%" (String (hexDigit (b / 16)) (String (hexDigit (b mod 16)) "")).

Definition isUnreserved (c : ascii) : bool :=
  isAsciiUpper c || isAsciiLower c || between 48 57 c ||
  existsb (Ascii.eqb c)
    ["-"; "_"; "."; "!"; "~"; "*"; "'"; "("; ")"]%char.

(** [encodeURIComponent]: unreserved characters stay, every other code
    unit is written as the escaped bytes of its UTF-8 encoding. *)
Fixpoint encodeURIComponent (s : string) : string :=
  match s with
  | EmptyString => EmptyString
  | String c s' =>
      (if isUnreserved c then String c ""
       else if (code c <? 128)%nat then percentByte (code c)
       else percentByte (192 + code c / 64) ++ percentByte (128 + code c mod 64))
      ++ encodeURIComponent s'
  end.

(* ------------------------------------------------------------------ *)
(** ** Regular expressions

    The fragment of ECMAScript regular expressions the services use,
    with the backtracking semantics of the language: alternatives are
    tried left to right, repetition is greedy, and a match is searched
    from each start position in turn. *)

Inductive regex : Type :=
| RStr   (s : string)             (* a sequence of literal characters *)
| RClass (p : ascii -> bool)      (* a character class *)
| RSeq   (r1 r2 : regex)          (* r1 r2 *)
| RAlt   (r1 r2 : regex)          (* r1|r2 *)
| RRep   (min : nat) (r : regex)  (* r{min,}; r* is r{0,}, r+ is r{1,} *)
| RWordB.                         (* \b *)

Definition class_d : ascii -> bool := between 48 57.            (* \d *)
Definition class_s (c : ascii) : bool :=                        (* \s *)
  between 9 13 c || (code c =? 32)%nat || (code c =? 160)%nat.
Definition class_w (c : ascii) : bool :=                        (* \w *)
  isAsciiUpper c || isAsciiLower c || class_d c || (code c =? 95)%nat.
Definition class_AZ : ascii -> bool := isAsciiUpper.            (* [A-Z] *)

(** Canonicalisation under the [i] flag. *)
Definition canon (c : ascii) : ascii :=
  if isAsciiLower c then ascii_of_nat (code c - 32) else c.

Definition char_matches (ci : bool) (pat c : ascii) : bool :=
  if ci then Ascii.eqb (canon pat) (canon c) else Ascii.eqb pat c.

Definition class_matches (ci : bool) (p : ascii -> bool) (c : ascii) : bool :=
  p c || (ci && (p (canon c) || p (toLowerChar c))).

Definition is_word (c : option ascii) : bool :=
  match c with Some c => class_w c | None => false end.

Definition head_char (s : string) : option ascii :=
  match s with EmptyString => None | String c _ => Some c end.

Definition orElse {A} (a : option A) (b : option A) : option A :=
  match a with Some _ => a | None => b end.

Section Matcher.
Variable ci : bool.

(** A matcher takes the character before the current position, the rest
    of the input and a continuation, and answers with the input left
    after the whole match. *)
Definition Cont := option ascii -> string -> option string.

Fixpoint match_str (pat : string) (prev : option ascii) (s : string)
    (k : Cont) : option string :=
  match pat with
  | EmptyString => k prev s
  | String p pat' =>
      match s with
      | String c s' =>
          if char_matches ci p c then match_str pat' (Some c) s' k else None
      | EmptyString => None
      end
  end.

Fixpoint rmatch (r : regex) (prev : option ascii) (s : string) (k : Cont)
    {struct r} : option string :=
  match r with
  | RStr pat => match_str pat prev s k
  | RClass p =>
      match s with
      | String c s' => if class_matches ci p c then k (Some c) s' else None
      | EmptyString => None
      end
  | RSeq r1 r2 => rmatch r1 prev s (fun prev' s' => rmatch r2 prev' s' k)
  | RAlt r1 r2 => orElse (rmatch r1 prev s k) (rmatch r2 prev s k)
  | RRep min r' =>
      (fix rep (fuel need : nat) (prev : option ascii) (s : string)
         : option string :=
         let stop := if (need =? 0)%nat then k prev s else None in
         match fuel with
         | O => stop
         | S fuel' =>
             orElse
               (rmatch r' prev s
                  (fun prev' s' =>
                     if (String.length s' <? String.length s)%nat
                     then rep fuel' (Nat.pred need) prev' s'
                     else None))
               stop
         end) (S (String.length s)) min prev s
  | RWordB => if xorb (is_word prev) (is_word (head_char s)) then k prev s
              else None
  end.

Definition accept : Cont := fun _ rest => Some rest.

(** The first match at or after the current position: the input from the
    start of the match, and the input left after it. *)
Fixpoint exec (r : regex) (prev : option ascii) (s : string)
    : option (string * string) :=
  match rmatch r prev s accept with
  | Some rest => Some (s, rest)
  | None =>
      match s with
      | EmptyString => None
      | String c s' => exec r (Some c) s'
      end
  end.

(** [RegExp.prototype.test] *)
Definition test (r : regex) (s : string) : bool :=
  match exec r None s with Some _ => true | None => false end.

Definition last_char (prev : option ascii) (s : string) : option ascii :=
  match String.length s with
  | O => prev
  | S n => String.get n s
  end.

Fixpoint match_loop (fuel : nat) (r : regex) (prev : option ascii)
    (s : string) : list string :=
  match fuel with
  | O => []
  | S fuel' =>
      match exec r prev s with
      | None => []
      | Some (from, rest) =>
          let len := String.length from - String.length rest in
          let m := String.substring 0 len from in
          match len, from with
          | O, EmptyString => [m]
          | O, String c from' => m :: match_loop fuel' r (Some c) from'
          | _, _ => m :: match_loop fuel' r (last_char prev m) rest
          end
      end
  end.

(** [String.prototype.match] with a [g] regular expression: every match,
    left to right, or [null] when there is none. *)
Definition match_g (r : regex) (s : string) : option (list string) :=
  match match_loop (S (String.length s)) r None s with
  | [] => None
  | l => Some l
  end.
End Matcher.

(* ------------------------------------------------------------------ *)
(** ** Effects: clock, random source, network, storage *)

Inductive Error : Set := TypeError | NetworkError.

Inductive Result (A : Type) : Type :=
| Returned (a : A)
| Thrown (e : Error).
Arguments Returned {A} a.
Arguments Thrown {A} e.

(** The body of a response of the fact-check search endpoint. *)
Record ClaimReview : Type := {
  textualRating : option string;
  review_url    : string
}.

Record ApiClaim : Type := {
  claimReview : option (list ClaimReview)
}.

Record ResponseData : Type := {
  api_claims : option (list ApiClaim)
}.

Inductive HttpOutcome : Type :=
| HttpFailure
| HttpOk (data : ResponseData).

Inductive Event : Type :=
| HttpGet (url : string)
| Delay (ms : nat)
| Stored (id : string).

Record World : Type := {
  clock   : Timestamp;
  entropy : nat -> string;                  (* what crypto.randomBytes yields *)
  drawn   : nat;
  network : Timestamp -> string -> HttpOutcome;
  feed    : list string -> list NewsArticle;  (* NewsFetcher.fetchFromRSS *)
  trace   : list Event
}.

Definition M (A : Type) : Type := World -> Result A * World.

Definition ret {A} (a : A) : M A := fun w => (Returned a, w).

Definition bind {A B} (c : M A) (f : A -> M B) : M B :=
  fun w =>
    match c w with
    | (Returned a, w') => f a w'
    | (Thrown e, w') => (Thrown e, w')
    end.

Definition throw {A} (e : Error) : M A := fun w => (Thrown e, w).

(** [try { c } catch (error) { h error }] *)
Definition try_catch {A} (c : M A) (h : Error -> M A) : M A :=
  fun w =>
    match c w with
    | (Returned a, w') => (Returned a, w')
    | (Thrown e, w') => h e w'
    end.

Notation "x <- c ;; k" := (bind c (fun x => k))
  (at level 61, c at next level, right associativity).

Definition emit (e : Event) (w : World) : World :=
  {| clock := clock w; entropy := entropy w; drawn := drawn w;
     network := network w; feed := feed w;
     trace := (trace w ++ [e])%list |}.

Definition advance (ms : nat) (w : World) : World :=
  {| clock := clock w + ms; entropy := entropy w; drawn := drawn w;
     network := network w; feed := feed w; trace := trace w |}.

(** [new Date()] *)
Definition now : M Timestamp := fun w => (Returned (clock w), w).

(** [await new Promise(resolve => setTimeout(resolve, ms))] *)
Definition sleep (ms : nat) : M unit :=
  fun w => (Returned tt, advance ms (emit (Delay ms) w)).

(** [await axios.get(url)], giving [response.data] *)
Definition axios_get (url : string) : M ResponseData :=
  fun w =>
    match network w (clock w) url with
    | HttpOk data => (Returned data, emit (HttpGet url) w)
    | HttpFailure => (Thrown NetworkError, emit (HttpGet url) w)
    end.

(** [crypto.randomBytes(16).toString('hex')] *)
Definition randomBytesHex : M string :=
  fun w =>
    (Returned (entropy w (drawn w)),
     {| clock := clock w; entropy := entropy w; drawn := S (drawn w);
        network := network w; feed := feed w; trace := trace w |}).

Definition fetchFromRSS (feedUrls : list string) : M (list NewsArticle) :=
  fun w => (Returned (feed w feedUrls), w).

(** [for (const x of xs) { acc = body acc x }] *)
Fixpoint for_of {A B} (xs : list A) (body : B -> A -> M B) (acc : B) : M B :=
  match xs with
  | [] => ret acc
  | x :: xs' => acc' <- body acc x ;; for_of xs' body acc'
  end.

(* ------------------------------------------------------------------ *)
(** ** The services *)

Record Analysis (N : Type) : Type := {
  score          : N;
  analysis_flags : list string      (* the field [flags] of the result *)
}.

Record FactChecker : Type := {
  googleApiKey : option string
}.

Record Config (N : Type) : Type := {
  newsRssFeeds           : list string;
  googleFactCheckApiKey  : option string;
  minConfidenceThreshold : N
}.

Section Services.
Context {N : Type} `{Number N}.

(** The sentence splitter of the [compromise] library,
    [nlp(text).sentences().out('array')]. *)
Variable nlp_sentences : string -> list string.

(** *** NLPAnalyzer *)

Definition claimIndicators : list string :=
  ["said"; "says"; "reported"; "announced"; "confirmed"; "revealed";
   "claimed"; "stated"; "according to"; "research shows"; "studies show";
   "data shows"; "statistics show"; "experts say"; "scientists found"].

Definition uncertaintyIndicators : list string :=
  ["allegedly"; "supposedly"; "reportedly"; "rumored"; "unconfirmed";
   "believed"; "might"; "may"; "could"; "possibly"; "perhaps"].

(** [NLPAnalyzer.getContext] *)
Definition getContext (sentence fullText : string) (contextSize : nat)
    : string :=
  match indexOf fullText sentence with
  | None => sentence
  | Some index =>
      let start := Nat.max 0 (index - contextSize) in
      let end_ := Nat.min (String.length fullText)
                    (index + String.length sentence + contextSize) in
      substring_js start end_ fullText
  end.

(** [NLPAnalyzer.extractClaims]; [date] is the value of [new Date()]. *)
Definition extractClaims (date : Timestamp) (article : NewsArticle)
    : list Claim :=
  let sentences := nlp_sentences (content article) in
  fold_left
    (fun claims sentence =>
       let hasClaimIndicator :=
         existsb (fun indicator => includes (toLowerCase sentence) indicator)
                 claimIndicators in
       let hasNumbers := test false (RRep 1 (RClass class_d)) sentence in
       if hasClaimIndicator || hasNumbers then
         (claims ++ [ {| text := sentence;
                         context := getContext sentence (content article) 100;
                         article := article;
                         extractedAt := date |} ])%list
       else claims)
    sentences [].

(** [/!{2,}/] *)
Definition re_exclamations : regex := RRep 2 (RStr "!").
(** [/BREAKING|SHOCKING|UNBELIEVABLE/i] *)
Definition re_sensational : regex :=
  RAlt (RStr "BREAKING") (RAlt (RStr "SHOCKING") (RStr "UNBELIEVABLE")).
(** [/\b[A-Z]{3,}\b/g] *)
Definition re_caps : regex :=
  RSeq RWordB (RSeq (RRep 3 (RClass class_AZ)) RWordB).
(** [/according to|source|research|study|data/i] *)
Definition re_sources : regex :=
  RAlt (RStr "according to")
    (RAlt (RStr "source") (RAlt (RStr "research")
      (RAlt (RStr "study") (RStr "data")))).

Definition emotionalWords : list string :=
  ["outrage"; "scandal"; "crisis"; "disaster"; "devastating"].

(** [NLPAnalyzer.analyzeMisinformationIndicators] *)
Definition analyzeMisinformationIndicators (article : NewsArticle)
    : Analysis N :=
  let flags : list string := [] in
  let score : N := lit 1.0 in
  let content := toLowerCase (content article) in
  let title_lc := toLowerCase (title article) in
  let uncertaintyCount :=
    List.length (filter (fun word => includes content word)
                        uncertaintyIndicators) in
  let '(flags, score) :=
    if (5 <? uncertaintyCount)%nat
    then ((flags ++ ["High uncertainty language detected"])%list,
          (score - lit 0.2)%js)
    else (flags, score) in
  let '(flags, score) :=
    if test false re_exclamations (title article)
       || test true re_sensational title_lc
    then ((flags ++ ["Sensational title detected"])%list,
          (score - lit 0.15)%js)
    else (flags, score) in
  let capsWords := match_g false re_caps (title article) in
  let '(flags, score) :=
    if match capsWords with
       | Some words => (2 <? List.length words)%nat
       | None => false
       end
    then ((flags ++ ["Excessive capitalization detected"])%list,
          (score - lit 0.1)%js)
    else (flags, score) in
  let emotionalCount :=
    List.length (filter (fun word => includes content word)
                        emotionalWords) in
  let '(flags, score) :=
    if (3 <? emotionalCount)%nat
    then ((flags ++ ["High emotional language detected"])%list,
          (score - lit 0.1)%js)
    else (flags, score) in
  let hasSources := test true re_sources content in
  let '(flags, score) :=
    if negb hasSources
    then ((flags ++ ["Lack of cited sources"])%list, (score - lit 0.2)%js)
    else (flags, score) in
  let score := n_max (lit 0) (n_min (lit 1) score) in
  {| score := score; analysis_flags := flags |}.

(** *** FactChecker *)

Definition redFlags : list string :=
  ["conspiracy"; "cover-up"; "they don't want you to know"].

Definition verificationIndicators : list string :=
  ["study published"; "peer-reviewed"; "official statement"].

(** [/\d+%|\d+\s*(million|billion|thousand)/] *)
Definition re_statistics : regex :=
  RAlt (RSeq (RRep 1 (RClass class_d)) (RStr "%"))
       (RSeq (RRep 1 (RClass class_d))
          (RSeq (RRep 0 (RClass class_s))
             (RAlt (RStr "million")
                (RAlt (RStr "billion") (RStr "thousand"))))).
(** [/according to|source|research|study/] *)
Definition re_citation : regex :=
  RAlt (RStr "according to")
    (RAlt (RStr "source") (RAlt (RStr "research") (RStr "study"))).

(** [FactChecker.heuristicFactCheck]; [date] is the value of [new Date()]. *)
Definition heuristicFactCheck (date : Timestamp) (claim : Claim)
    : FactCheckResult N :=
  let text := toLowerCase (text claim) in
  let confidence : N := lit 0.5 in
  let verdict := UNVERIFIED in
  let flags : list string := [] in
  let hasRedFlags := existsb (fun flag => includes text flag) redFlags in
  let '(confidence, verdict, flags) :=
    if hasRedFlags
    then (lit 0.3, FALSE, (flags ++ ["Contains conspiracy language"])%list)
    else (confidence, verdict, flags) in
  let hasVerification :=
    existsb (fun indicator => includes text indicator)
            verificationIndicators in
  let '(confidence, verdict, flags) :=
    if hasVerification
    then (lit 0.7, TRUE,
          (flags ++ ["Contains verification indicators"])%list)
    else (confidence, verdict, flags) in
  let hasNumbers := test false re_statistics text in
  let hasSources := test false re_citation text in
  let '(confidence, flags) :=
    if hasNumbers && negb hasSources
    then (n_max (lit 0.3) (confidence - lit 0.2)%js,
          (flags ++ ["Contains statistics without clear sources"])%list)
    else (confidence, flags) in
  {| claim := claim;
     verdict := verdict;
     confidence := confidence;
     sources := [];
     explanation :=
       or_else (join "; " flags)
               "Heuristic analysis - manual verification recommended";
     checkedAt := date |}.

(** [FactChecker.normalizeVerdict] *)
Definition normalizeVerdict (textualRating : string) : Verdict :=
  let rating := toLowerCase textualRating in
  if includes rating "true" || includes rating "correct"
     || includes rating "accurate" then TRUE
  else if includes rating "false" || includes rating "incorrect"
     || includes rating "wrong" then FALSE
  else if includes rating "mixed" || includes rating "partly"
     || includes rating "mostly" then MIXED
  else if includes rating "unverified" || includes rating "unproven"
     then UNVERIFIED
  else UNKNOWN.

(** [`${key}`] for an optional string *)
Definition interpolate (key : option string) : string :=
  match key with Some k => k | None => "undefined" end.

(** [FactChecker.checkWithGoogleFactCheck] *)
Definition checkWithGoogleFactCheck (this : FactChecker) (claim : Claim)
    : M (option (FactCheckResult N)) :=
  try_catch
    (let query := encodeURIComponent (text claim) in
     let url :=
       "https://factchecktools.googleapis.com/v1alpha1/claims:search?query="
       ++ query ++ "&key=" ++ interpolate (googleApiKey this) in
     data <- axios_get url ;;
     match api_claims data with
     | Some (firstClaim :: _) =>
         match claimReview firstClaim with
         | Some (review :: _) =>
             (* [normalizeVerdict] calls [toLowerCase] on the rating *)
             verdict <- match textualRating review with
                        | Some rating => ret (normalizeVerdict rating)
                        | None => throw TypeError
                        end ;;
             date <- now ;;
             ret (Some {| claim := claim;
                          verdict := verdict;
                          confidence := lit 0.8;
                          sources := [review_url review];
                          explanation := interpolate (textualRating review);
                          checkedAt := date |})
         | _ => ret None
         end
     | _ => ret None
     end)
    (fun _ => ret None).

Definition key_configured (this : FactChecker) : bool :=
  match googleApiKey this with Some k => truthy k | None => false end.

(** [FactChecker.checkClaim] *)
Definition checkClaim (this : FactChecker) (claim : Claim)
    : M (FactCheckResult N) :=
  found <-
    (if key_configured this
     then try_catch (checkWithGoogleFactCheck this claim)
                    (fun _ => ret None)
     else ret None) ;;
  match found with
  | Some result => ret result
  | None => date <- now ;; ret (heuristicFactCheck date claim)
  end.

(** [FactChecker.checkClaims] *)
Definition checkClaims (this : FactChecker) (claims : list Claim)
    : M (list (FactCheckResult N)) :=
  for_of claims
    (fun results claim =>
       try_catch
         (result <- checkClaim this claim ;;
          _ <- sleep 1000 ;;
          ret (results ++ [result])%list)
         (fun _ => ret results))
    [].

(** *** GuardianService *)

(** [GuardianService.calculateOverallScore] *)
Definition calculateOverallScore
    (nlpScore : N) (factCheckResults : list (FactCheckResult N)) : N :=
  if (List.length factCheckResults =? 0)%nat then nlpScore
  else
    let avgFactCheckScore :=
      (fold_left
         (fun sum result =>
            let score := confidence result in
            let score :=
              if Verdict_eqb (verdict result) FALSE then lit 1 - score
              else if Verdict_eqb (verdict result) MIXED then lit 0.5
              else score in
            sum + score)
         factCheckResults (lit 0)
       / of_len (List.length factCheckResults))%js in
    (nlpScore * lit 0.4 + avgFactCheckScore * lit 0.6)%js.

(** [GuardianService.generateReportId] *)
Definition generateReportId : M string := randomBytesHex.

(** [GuardianService.storeReport]: the report goes to the two ledger
    clients; whatever they raise is caught inside. *)
Definition storeReport (report : MisinformationReport N) : M unit :=
  fun w => (Returned tt, emit (Stored (report_id report)) w).

(** [GuardianService.processArticle], for a given [factChecker.checkClaims] *)
Definition processArticleWith
    (checkClaims : list Claim -> M (list (FactCheckResult N)))
    (article : NewsArticle) : M (option (MisinformationReport N)) :=
  try_catch
    (date <- now ;;
     let claims := extractClaims date article in
     if (List.length claims =? 0)%nat then ret None
     else
       let analysis := analyzeMisinformationIndicators article in
       factCheckResults <- checkClaims claims ;;
       let overallScore :=
         calculateOverallScore (score analysis) factCheckResults in
       id <- generateReportId ;;
       createdAt <- now ;;
       ret (Some {| report_id := id;
                    report_article := article;
                    claims := claims;
                    factCheckResults := factCheckResults;
                    overallScore := overallScore;
                    flags := analysis_flags analysis;
                    createdAt := createdAt |}))
    (fun _ => ret None).

(** The checker the constructor builds from the configuration. *)
Definition factChecker (config : Config N) : FactChecker :=
  {| googleApiKey := googleFactCheckApiKey config |}.

Definition processArticle (config : Config N) (article : NewsArticle)
    : M (option (MisinformationReport N)) :=
  processArticleWith (checkClaims (factChecker config)) article.

(** [GuardianService.runMonitoringCycle] *)
Definition runMonitoringCycle (config : Config N)
    : M (list (MisinformationReport N)) :=
  try_catch
    (articles <- fetchFromRSS (newsRssFeeds config) ;;
     if (List.length articles =? 0)%nat then ret []
     else
       for_of articles
         (fun reports article =>
            try_catch
              (report <- processArticle config article ;;
               match report with
               | Some report =>
                   let reports := (reports ++ [report])%list in
                   _ <- (if (overallScore report
                               <? minConfidenceThreshold config)%js
                         then storeReport report
                         else ret tt) ;;
                   ret reports
               | None => ret reports
               end)
              (fun _ => ret reports))
         [])
    (fun _ => ret []).

End Services.

(* ------------------------------------------------------------------ *)
(** ** The conditions of the analyzer, by name

    The tests [analyzeMisinformationIndicators] makes, in its order, and
    the shape of its result in terms of them. *)

Definition uncertaintyCount (a : NewsArticle) : nat :=
  List.length (filter (fun word => includes (toLowerCase (content a)) word)
                      uncertaintyIndicators).

Definition sensationalTitle (a : NewsArticle) : bool :=
  test false re_exclamations (title a)
  || test true re_sensational (toLowerCase (title a)).

Definition capsWords (a : NewsArticle) : option (list string) :=
  match_g false re_caps (title a).

Definition capsCount (a : NewsArticle) : nat :=
  match capsWords a with Some words => List.length words | None => 0 end.

Definition emotionalCount (a : NewsArticle) : nat :=
  List.length (filter (fun word => includes (toLowerCase (content a)) word)
                      emotionalWords).

Definition citesSources (a : NewsArticle) : bool :=
  test true re_sources (toLowerCase (content a)).

Definition flag_if (fired : bool) (flag : string) : list string :=
  if fired then [flag] else [].

Definition penalty (fired : bool) (p : Q) : Q :=
  if fired then p else 0%Q.

(** The request [checkWithGoogleFactCheck] sends for a claim, and the
    review it reads from the reply. *)
Definition searchUrl (this : FactChecker) (claim : Claim) : string :=
  "https://factchecktools.googleapis.com/v1alpha1/claims:search?query="
  ++ encodeURIComponent (text claim) ++ "&key="
  ++ interpolate (googleApiKey this).

Definition firstReview (data : ResponseData) : option ClaimReview :=
  match api_claims data with
  | Some (firstClaim :: _) =>
      match claimReview firstClaim with
      | Some (review :: _) => Some review
      | _ => None
      end
  | _ => None
  end.

(** The world after [checkClaim]: one request when a key is configured. *)
Definition after_check (this : FactChecker) (claim : Claim) (w : World)
    : World :=
  if key_configured this then emit (HttpGet (searchUrl this claim)) w else w.

(** The test [extractClaims] makes on a sentence. *)
Definition looksLikeClaim (sentence : string) : bool :=
  existsb (fun indicator => includes (toLowerCase sentence) indicator)
          claimIndicators
  || test false (RRep 1 (RClass class_d)) sentence.

(** Whether [extractClaims] finds a claim in an article, for a given
    sentence splitter. *)
Definition has_claims (nlp_sentences : string -> list string)
    (a : NewsArticle) : bool :=
  negb (List.length (filter looksLikeClaim (nlp_sentences (content a)))
        =? 0)%nat.

(** The tests [heuristicFactCheck] makes on a claim. *)
Definition hasRedFlags (claim : Claim) : bool :=
  existsb (fun flag => includes (toLowerCase (text claim)) flag) redFlags.

Definition hasVerification (claim : Claim) : bool :=
  existsb (fun indicator => includes (toLowerCase (text claim)) indicator)
          verificationIndicators.

Definition unsourcedStatistics (claim : Claim) : bool :=
  test false re_statistics (toLowerCase (text claim))
  && negb (test false re_citation (toLowerCase (text claim))).

(** The flags it has collected when it returns. *)
Definition heuristicFlags (claim : Claim) : list string :=
  (flag_if (hasRedFlags claim) "Contains conspiracy language"
   ++ flag_if (hasVerification claim) "Contains verification indicators"
   ++ flag_if (unsourcedStatistics claim)
        "Contains statistics without clear sources")%list.

(* ------------------------------------------------------------------ *)
(** ** Vocabulary of the specification

    The notions below are written from the words of the specification;
    the theorems compare them with the services above. *)

Local Open Scope Q_scope.

(** "TRUE/UNVERIFIED/UNKNOWN: use confidence as-is; FALSE: use
    1 - confidence; MIXED: fixed 0.5 regardless of confidence." *)
Definition spec_directional (r : FactCheckResult Q) : Q :=
  match verdict r with
  | TRUE | UNVERIFIED | UNKNOWN => confidence r
  | FALSE => 1 - confidence r
  | MIXED => 0.5
  end.

Definition Qsum (l : list Q) : Q := fold_right Qplus 0 l.

(** "in [0,1]" *)
Definition unit_interval (x : Q) : Prop := 0 <= x <= 1.

(** "Average these directional scores across all results." *)
Definition spec_average (l : list Q) : Q :=
  Qsum l / inject_Z (Z.of_nat (List.length l)).

(** "if the rating contains one of ..." *)
Definition contains_any (s : string) (words : list string) : bool :=
  existsb (fun w => includes s w) words.

(** "the count of uncertainty-lexicon hits in the content (occurrences of
    uncertainty-lexicon words)" *)
Fixpoint occurrences (word s : string) : nat :=
  ((if prefix word s then 1 else 0)
   + match s with
     | EmptyString => 0
     | String _ s' => occurrences word s'
     end)%nat.

Definition spec_lexiconHits (content : string) : nat :=
  list_sum (map (fun word => occurrences word (toLowerCase content))
                uncertaintyIndicators).

(** "distinct all-caps words (at least 3 letters) in title" *)
Definition spec_distinctCapsWords (a : NewsArticle) : list string :=
  nodup string_dec
    (match capsWords a with Some words => words | None => [] end).

(** "no API credential is configured or the remote fact-check call fails
    or returns no matching review" *)
Definition remote_unavailable (this : FactChecker) (claim : Claim)
    (w : World) : Prop :=
  key_configured this = false
  \/ network w (clock w) (searchUrl this claim) = HttpFailure
  \/ (exists data,
        network w (clock w) (searchUrl this claim) = HttpOk data
        /\ firstReview data = None)
  (* the review has no rating: reading it raises inside the call *)
  \/ (exists data review,
        network w (clock w) (searchUrl this claim) = HttpOk data
        /\ firstReview data = Some review
        /\ textualRating review = None).

(** What a result of [checkClaim] can be: the heuristic result, or a
    remote one with confidence 0.8 and a source. *)
Definition checked {N} `{Number N} (claim : Claim) (r : FactCheckResult N)
    : Prop :=
  (exists date, r = heuristicFactCheck date claim)
  \/ (confidence r = lit 0.8 /\ sources r <> []).

(** What the assembled report of an article holds. *)
Definition report_of {N} `{Number N} (a : NewsArticle)
    (r : MisinformationReport N) : Prop :=
  report_article r = a
  /\ flags r = analysis_flags (analyzeMisinformationIndicators (N:=N) a)
  /\ overallScore r
     = calculateOverallScore
         (score (analyzeMisinformationIndicators (N:=N) a))
         (factCheckResults r)
  /\ Forall2 checked (claims r) (factCheckResults r).

(** The flag texts of the heuristic fact checker. *)
Definition heuristicFlagTexts : list string :=
  ["Contains conspiracy language"; "Contains verification indicators";
   "Contains statistics without clear sources"].

(** Sample inputs for the scenarios. *)
Definition one_sentence (s : string) : list string := [s].

Definition no_key_config : Config Q :=
  {| newsRssFeeds := []; googleFactCheckApiKey := None;
     minConfidenceThreshold := 0.6 |}.

Definition offline_world : World :=
  {| clock := 1000; entropy := fun _ => "00"; drawn := 0;
     network := fun _ _ => HttpFailure; feed := fun _ => []; trace := [] |}.

Definition keyed_checker : FactChecker := {| googleApiKey := Some "k" |}.

Definition article_of (title content : string) : NewsArticle :=
  {| article_id := ""; title := title; content := content; url := "";
     source := ""; publishedAt := 0; author := None |}.

(** A fact-check result carrying a verdict and a confidence, for the
    scenarios. *)
Definition blank_article : NewsArticle :=
  {| article_id := ""; title := ""; content := ""; url := ""; source := "";
     publishedAt := 0%nat; author := None |}.

Definition claim_of_text (t : string) : Claim :=
  {| text := t; context := t; article := blank_article;
     extractedAt := 0%nat |}.

Definition result_of {N} (v : Verdict) (c : N) : FactCheckResult N :=
  {| claim := claim_of_text ""; verdict := v; confidence := c; sources := [];
     explanation := ""; checkedAt := 0%nat |}.

From Stdlib Require DecimalString.

(* ------------------------------------------------------------------ *)
(** ** The matcher, by parts

    Names for the pieces of the matcher the later sections reason about. *)

Section MatcherParts.
Local Open Scope nat_scope.

Definition is_some {A : Type} (o : option A) : bool :=
  match o with Some _ => true | None => false end.

(** The loop [rmatch] runs for a repetition. *)
Definition rep_loop (ci : bool) (r' : regex) (k : Cont)
    : nat -> nat -> option ascii -> string -> option string :=
  fix rep (fuel need : nat) (prev : option ascii) (s : string)
    : option string :=
    let stop := if need =? 0 then k prev s else None in
    match fuel with
    | O => stop
    | S fuel' =>
        orElse
          (rmatch ci r' prev s
             (fun prev' s' =>
                if String.length s' <? String.length s
                then rep fuel' (Nat.pred need) prev' s'
                else None))
          stop
    end.

(** The characters a string starts with that satisfy [p], and what
    follows them. *)
Fixpoint run (p : ascii -> bool) (s : string) : nat :=
  match s with
  | String c s' => if p c then S (run p s') else 0
  | EmptyString => 0
  end.

Fixpoint dropWhile (p : ascii -> bool) (s : string) : string :=
  match s with
  | String c s' => if p c then dropWhile p s' else s
  | EmptyString => s
  end.

(** Some character of the string satisfies [p]; all do. *)
Fixpoint any_char (p : ascii -> bool) (s : string) : bool :=
  match s with
  | String c s' => p c || any_char p s'
  | EmptyString => false
  end.

Fixpoint all_chars (p : ascii -> bool) (s : string) : bool :=
  match s with
  | String c s' => p c && all_chars p s'
  | EmptyString => true
  end.

(** The 256 characters. *)
Definition all_ascii : list ascii := map ascii_of_nat (seq 0 256).

(** ASCII capitals to lower case, the other characters unchanged. *)
Definition asciiLowerChar (c : ascii) : ascii :=
  if isAsciiUpper c then ascii_of_nat (code c + 32) else c.

Fixpoint asciiLowerCase (s : string) : string :=
  match s with
  | EmptyString => EmptyString
  | String c s' => String (asciiLowerChar c) (asciiLowerCase s')
  end.

End MatcherParts.

(** The deduction that goes with each flag of the analyzer. *)
Definition flagPenalty {N : Type} `{Number N} (flag : string) : N :=
  if String.eqb flag "High uncertainty language detected" then lit 0.2
  else if String.eqb flag "Sensational title detected" then lit 0.15
  else if String.eqb flag "Excessive capitalization detected" then lit 0.1
  else if String.eqb flag "High emotional language detected" then lit 0.1
  else if String.eqb flag "Lack of cited sources" then lit 0.2
  else lit 0.

(* ------------------------------------------------------------------ *)
(** ** The runs of the services, by name

    What each asynchronous method returns and the world it leaves, as
    functions of the world it starts in. *)

Section Runs.
Context {N : Type} `{Number N}.
Variable nlp_sentences : string -> list string.
Local Open Scope nat_scope.

(** The result the remote lookup contributes, if any. *)
Definition remote_result (this : FactChecker) (claim : Claim) (w : World)
    : option (FactCheckResult N) :=
  if key_configured this then
    match network w (clock w) (searchUrl this claim) with
    | HttpFailure => None
    | HttpOk data =>
        match firstReview data with
        | Some review =>
            match textualRating review with
            | Some rating =>
                Some {| claim := claim;
                        verdict := normalizeVerdict rating;
                        confidence := lit 0.8;
                        sources := [review_url review];
                        explanation := rating;
                        checkedAt := clock w |}
            | None => None
            end
        | None => None
        end
    end
  else None.

Definition check_result (this : FactChecker) (claim : Claim) (w : World)
    : FactCheckResult N :=
  match remote_result this claim w with
  | Some result => result
  | None => heuristicFactCheck (clock w) claim
  end.

(** One turn of the loop of [checkClaims]: the check, then the delay. *)
Definition after_claim (this : FactChecker) (claim : Claim) (w : World)
    : World :=
  advance 1000 (emit (Delay 1000) (after_check this claim w)).

Fixpoint check_results (this : FactChecker) (claims : list Claim) (w : World)
    : list (FactCheckResult N) :=
  match claims with
  | [] => []
  | claim :: rest =>
      check_result this claim w
      :: check_results this rest (after_claim this claim w)
  end.

Fixpoint after_claims (this : FactChecker) (claims : list Claim) (w : World)
    : World :=
  match claims with
  | [] => w
  | claim :: rest => after_claims this rest (after_claim this claim w)
  end.

(** The world after one identifier was drawn. *)
Definition draw (w : World) : World :=
  {| clock := clock w; entropy := entropy w; drawn := S (drawn w);
     network := network w; feed := feed w; trace := trace w |}.

Definition process_report (config : Config N) (a : NewsArticle) (w : World)
    : option (MisinformationReport N) :=
  match extractClaims nlp_sentences (clock w) a with
  | [] => None
  | claims =>
      let results := check_results (factChecker config) claims w in
      let w1 := after_claims (factChecker config) claims w in
      Some {| report_id := entropy w1 (drawn w1);
              report_article := a;
              claims := claims;
              factCheckResults := results;
              overallScore :=
                calculateOverallScore
                  (score (analyzeMisinformationIndicators a)) results;
              flags := analysis_flags (analyzeMisinformationIndicators (N:=N) a);
              createdAt := clock w1 |}
  end.

Definition process_world (config : Config N) (a : NewsArticle) (w : World)
    : World :=
  match extractClaims nlp_sentences (clock w) a with
  | [] => w
  | claims => draw (after_claims (factChecker config) claims w)
  end.

(** The test [runMonitoringCycle] makes before it stores a report. *)
Definition below_threshold (config : Config N)
    (r : MisinformationReport N) : bool :=
  (overallScore r <? minConfidenceThreshold config)%js.

Definition store_if_low (config : Config N) (r : MisinformationReport N)
    (w : World) : World :=
  if below_threshold config r then emit (Stored (report_id r)) w else w.

(** One turn of the loop of [runMonitoringCycle]. *)
Definition after_article (config : Config N) (a : NewsArticle) (w : World)
    : World :=
  match process_report config a w with
  | Some r => store_if_low config r (process_world config a w)
  | None => process_world config a w
  end.

Fixpoint cycle_reports (config : Config N) (articles : list NewsArticle)
    (w : World) : list (MisinformationReport N) :=
  match articles with
  | [] => []
  | a :: rest =>
      match process_report config a w with
      | Some r => r :: cycle_reports config rest (after_article config a w)
      | None => cycle_reports config rest (after_article config a w)
      end
  end.

Fixpoint cycle_world (config : Config N) (articles : list NewsArticle)
    (w : World) : World :=
  match articles with
  | [] => w
  | a :: rest => cycle_world config rest (after_article config a w)
  end.

(** The identifiers of the reports a trace records as stored, and the
    requests and delays it records. *)
Definition stored_ids (t : list Event) : list string :=
  flat_map (fun e => match e with Stored id => [id] | _ => [] end) t.

Definition requests (t : list Event) : list string :=
  flat_map (fun e => match e with HttpGet url => [url] | _ => [] end) t.

Definition delays (t : list Event) : list nat :=
  flat_map (fun e => match e with Delay ms => [ms] | _ => [] end) t.

End Runs.

(* ------------------------------------------------------------------ *)
(** ** More sample inputs *)

Section Samples.
Local Open Scope nat_scope.

(** A reply of the search endpoint with one rated review. *)
Definition rated_reply (rating url : string) : HttpOutcome :=
  HttpOk {| api_claims :=
              Some [ {| claimReview :=
                          Some [ {| textualRating := Some rating;
                                    review_url := url |} ] |} ] |}.

Fixpoint stars (n : nat) : string :=
  match n with O => "" | S n' => String "*" (stars n') end.

(** A world whose network answers every request with the same review and
    whose random source never repeats. *)
Definition online_world (rating url : string) (articles : list NewsArticle)
    : World :=
  {| clock := 1000; entropy := stars; drawn := 0;
     network := fun _ _ => rated_reply rating url;
     feed := fun _ => articles; trace := [] |}.

Definition sample_article : NewsArticle :=
  article_of "BREAKING!! Scientists Reveal SHOCKING Truth"
    "Officials said 40% of people agree. It is a cover-up.".

Definition quiet_article : NewsArticle :=
  article_of "Weather" "Nothing to see here".

Definition keyed_config : Config Q :=
  {| newsRssFeeds := ["https://example.org/feed"];
     googleFactCheckApiKey := Some "k";
     minConfidenceThreshold := 0.6%Q |}.

End Samples.

(* ------------------------------------------------------------------ *)
(** ** The command line: the summary of a single check ([runSingleCheck]) *)

Section CommandLine.
Context {N : Type} `{Number N}.
Local Open Scope nat_scope.

(** [acc[v] = (acc[v] || 0) + 1] on an object whose keys keep the order
    in which they were first written. *)
Fixpoint bump (v : Verdict) (acc : list (Verdict * nat))
    : list (Verdict * nat) :=
  match acc with
  | [] => [(v, 0 + 1)]
  | (k, n) :: rest =>
      if Verdict_eqb k v then (k, n + 1) :: rest
      else (k, n) :: bump v rest
  end.

(** [const verdicts = report.factCheckResults.reduce(..., {})] *)
Definition verdicts (factCheckResults : list (FactCheckResult N))
    : list (Verdict * nat) :=
  fold_left (fun acc result => bump (verdict result) acc)
            factCheckResults [].

(** [acc[v]] *)
Fixpoint lookup (v : Verdict) (acc : list (Verdict * nat)) : option nat :=
  match acc with
  | [] => None
  | (k, n) :: rest => if Verdict_eqb k v then Some n else lookup v rest
  end.

(** The number of results with a given verdict. *)
Definition tally (v : Verdict) (rs : list (FactCheckResult N)) : nat :=
  List.length (filter (fun r => Verdict_eqb (verdict r) v) rs).

(** [const flaggedCount = reports.filter(r => r.overallScore <
    config.minConfidenceThreshold).length] *)
Definition flaggedCount (config : Config N)
    (reports : list (MisinformationReport N)) : nat :=
  List.length
    (filter (fun r => (overallScore r <? minConfidenceThreshold config)%js)
            reports).

End CommandLine.

(* ------------------------------------------------------------------ *)
(** ** The ledger client: the hash of a report ([PolkadotClient.hashReport]) *)

Section Ledger.
Context {N : Type} `{Number N}.
Local Open Scope nat_scope.

(** How [JSON.stringify] writes a number of the score type. *)
Variable show_number : N -> string.

Definition quote : string := String (ascii_of_nat 34) "".
Definition backslash : string := String (ascii_of_nat 92) "".

Definition hexLower (n : nat) : ascii :=
  if n <? 10 then ascii_of_nat (48 + n) else ascii_of_nat (87 + n).

(** The escape [JSON.stringify] writes for one character of a string. *)
Definition json_escape_char (c : ascii) : string :=
  if code c =? 34 then backslash ++ quote
  else if code c =? 92 then backslash ++ backslash
  else if code c =? 8 then backslash ++ "b"
  else if code c =? 12 then backslash ++ "f"
  else if code c =? 10 then backslash ++ "n"
  else if code c =? 13 then backslash ++ "r"
  else if code c =? 9 then backslash ++ "t"
  else if code c <? 32 then
    backslash ++ "u00"
    ++ String (hexLower (code c / 16)) (String (hexLower (code c mod 16)) "")
  else String c "".

Fixpoint json_escape (s : string) : string :=
  match s with
  | EmptyString => EmptyString
  | String c s' => json_escape_char c ++ json_escape s'
  end.

(** [JSON.stringify] of a string, and of a key with its colon. *)
Definition json_string (s : string) : string :=
  quote ++ json_escape s ++ quote.

Definition json_key (k : string) : string := quote ++ k ++ quote ++ ":".

(** A whole number in decimal. *)
Definition decimal (n : nat) : string :=
  DecimalString.NilEmpty.string_of_uint (Nat.to_uint n).

(** [Buffer.from(text)]: the UTF-8 bytes of a string. *)
Fixpoint utf8 (s : string) : list nat :=
  match s with
  | EmptyString => []
  | String c s' =>
      ((if code c <? 128 then [code c]
        else [192 + code c / 64; 128 + code c mod 64]) ++ utf8 s')%list
  end.

Definition b64char (n : nat) : ascii :=
  if n <? 26 then ascii_of_nat (65 + n)
  else if n <? 52 then ascii_of_nat (97 + (n - 26))
  else if n <? 62 then ascii_of_nat (48 + (n - 52))
  else if n =? 62 then "+"%char else "/"%char.

(** [buffer.toString('base64')] *)
Fixpoint base64 (bytes : list nat) : string :=
  match bytes with
  | a :: b :: c :: rest =>
      String (b64char (a / 4))
        (String (b64char (a mod 4 * 16 + b / 16))
           (String (b64char (b mod 16 * 4 + c / 64))
              (String (b64char (c mod 64)) (base64 rest))))
  | [a; b] =>
      String (b64char (a / 4))
        (String (b64char (a mod 4 * 16 + b / 16))
           (String (b64char (b mod 16 * 4)) "="))
  | [a] =>
      String (b64char (a / 4)) (String (b64char (a mod 4 * 16)) "==")
  | [] => ""
  end.

(** The text [hashReport] serializes. *)
Definition hashData (report : MisinformationReport N) : string :=
  "{" ++ json_key "id" ++ json_string (report_id report)
  ++ "," ++ json_key "articleUrl" ++ json_string (url (report_article report))
  ++ "," ++ json_key "overallScore" ++ show_number (overallScore report)
  ++ "," ++ json_key "timestamp" ++ decimal (createdAt report)
  ++ "}".

(** The serialized text up to the quote that opens the article URL. *)
Definition hashedHead (id : string) : string :=
  "{" ++ json_key "id" ++ quote ++ id ++ quote
  ++ "," ++ json_key "articleUrl" ++ quote.

(** [PolkadotClient.hashReport] *)
Definition hashReport (report : MisinformationReport N) : string :=
  substring_js 0 64 (base64 (utf8 (hashData report))).

(** A character [JSON.stringify] writes as it is, in one byte. *)
Definition json_plain (c : ascii) : bool :=
  (32 <=? code c) && (code c <? 128)
  && negb (code c =? 34) && negb (code c =? 92).

End Ledger.

Section LedgerSamples.
Local Open Scope nat_scope.

(** A report with a given identifier, article URL, score and time stamp. *)
Definition report_with (id link : string) (overall : Q) (stamp : Timestamp)
    : MisinformationReport Q :=
  {| report_id := id;
     report_article :=
       {| article_id := ""; title := ""; content := ""; url := link;
          source := ""; publishedAt := 0; author := None |};
     claims := []; factCheckResults := []; overallScore := overall;
     flags := []; createdAt := stamp |}.

(** A stand-in for the number format, for the samples. *)
Definition show_sign (q : Q) : string :=
  if Qle_bool q 0 then "0" else "1".

End LedgerSamples.

(* ------------------------------------------------------------------ *)
(** ** The news fetcher ([NewsFetcher.ts]) *)

Section Replace.
Local Open Scope nat_scope.
Variable ci : bool.

Fixpoint replace_loop (fuel : nat) (r : regex) (by_ : string)
    (prev : option ascii) (s : string) : string :=
  match fuel with
  | O => s
  | S fuel' =>
      match exec ci r prev s with
      | None => s
      | Some (from, rest) =>
          let before :=
            String.substring 0 (String.length s - String.length from) s in
          let len := String.length from - String.length rest in
          let m := String.substring 0 len from in
          match len, from with
          | O, EmptyString => before ++ by_
          | O, String c from' =>
              before ++ by_
              ++ String c (replace_loop fuel' r by_ (Some c) from')
          | _, _ =>
              before ++ by_
              ++ replace_loop fuel' r by_ (last_char prev m) rest
          end
      end
  end.

(** [String.prototype.replace] with a [g] regular expression and a
    replacement text without [$] patterns. *)
Definition replace_g (r : regex) (by_ : string) (s : string) : string :=
  replace_loop (S (String.length s)) r by_ None s.

End Replace.

Section Fetcher.
Local Open Scope nat_scope.

Definition is_lt (c : ascii) : bool := Ascii.eqb c "<".
Definition is_gt (c : ascii) : bool := Ascii.eqb c ">".

(** [/<[^>]*>/g] *)
Definition re_tag : regex :=
  RSeq (RStr "<") (RSeq (RRep 0 (RClass (fun c => negb (is_gt c)))) (RStr ">")).
(** [/\s+/g] *)
Definition re_spaces : regex := RRep 1 (RClass class_s).

Definition trimStart (s : string) : string := dropWhile class_s s.

Fixpoint trimEnd (s : string) : string :=
  match s with
  | EmptyString => EmptyString
  | String c s' =>
      if all_chars class_s s then EmptyString else String c (trimEnd s')
  end.

(** [String.prototype.trim] *)
Definition trim (s : string) : string := trimEnd (trimStart s).

(** [NewsFetcher.stripHtml] *)
Definition stripHtml (html : string) : string :=
  trim (replace_g false re_spaces " " (replace_g false re_tag " " html)).

(** An item and a feed as the RSS parser delivers them; a field that is
    missing is [None]. *)
Record RssItem : Type := {
  item_title       : option string;
  item_link        : option string;
  content_encoded  : option string;   (* item['content:encoded'] *)
  item_content     : option string;
  contentSnippet   : option string;
  item_description : option string;
  pubDate          : option string;
  creator          : option string;
  item_author      : option string
}.

Record RssFeed : Type := {
  feed_title : option string;
  items      : list RssItem
}.

(** [crypto.createHash('md5').update(text).digest('hex')] *)
Variable md5hex : string -> string.
(** [new Date(text)] *)
Variable parseDate : string -> Timestamp.

(** Truthiness of an optional string, and [a || b] on such values. *)
Definition truthy_opt (o : option string) : bool :=
  match o with Some s => truthy s | None => false end.

Definition or_opt (a b : option string) : option string :=
  if truthy_opt a then a else b.

Definition text_of (o : option string) : string :=
  match o with Some s => s | None => "" end.

(** [NewsFetcher.generateId] *)
Definition generateId (link : string) : string := md5hex link.

(** The article made of one item of a feed, if the item has a title and
    a link. *)
Definition article_of_item (date : Timestamp) (feedUrl : string)
    (feed : RssFeed) (item : RssItem) : option NewsArticle :=
  if negb (truthy_opt (item_title item)) || negb (truthy_opt (item_link item))
  then None
  else
    let content :=
      or_opt (content_encoded item)
        (or_opt (item_content item)
           (or_opt (contentSnippet item)
              (or_opt (item_description item) (Some "")))) in
    Some {| article_id := generateId (text_of (item_link item));
            title := text_of (item_title item);
            content := stripHtml (text_of content);
            url := text_of (item_link item);
            source := text_of (or_opt (feed_title feed) (Some feedUrl));
            publishedAt :=
              (if truthy_opt (pubDate item)
               then parseDate (text_of (pubDate item)) else date);
            author := or_opt (creator item) (item_author item) |}.

(** [NewsFetcher.fetchFromRSS]; [date] is the value of [new Date()], and
    each feed address comes with what [parser.parseURL] answered for it:
    the feed, or [None] when the call raised. *)
Definition fetchFromRSS_impl (date : Timestamp)
    (feedUrls : list (string * option RssFeed)) : list NewsArticle :=
  fold_left
    (fun articles '(feedUrl, parsed) =>
       match parsed with
       | Some feed =>
           fold_left
             (fun articles item =>
                match article_of_item date feedUrl feed item with
                | Some article => (articles ++ [article])%list
                | None => articles
                end)
             (items feed) articles
       | None => articles
       end)
    feedUrls [].

End Fetcher.

Section FetcherParts.
Local Open Scope nat_scope.

(** A string holds a tag: a [<] with a [>] somewhere after it. *)
Fixpoint tagged (s : string) : bool :=
  match s with
  | EmptyString => false
  | String c s' => (is_lt c && any_char is_gt s') || tagged s'
  end.

(** White space occurs only as single spaces. *)
Fixpoint single_spaced (after_space : bool) (s : string) : bool :=
  match s with
  | EmptyString => true
  | String c s' =>
      if class_s c
      then Ascii.eqb c " " && negb after_space && single_spaced true s'
      else single_spaced false s'
  end.

(** The last character of a string is white space. *)
Fixpoint ends_with_space (s : string) : bool :=
  match s with
  | EmptyString => false
  | String c EmptyString => class_s c
  | String _ s' => ends_with_space s'
  end.

Definition starts_with_space (s : string) : bool :=
  match s with String c _ => class_s c | EmptyString => false end.

(** The first match of a one-character class, and runs of white space
    squeezed to one space. *)
Fixpoint find_run (p : ascii -> bool) (s : string)
    : option (string * string) :=
  match s with
  | EmptyString => None
  | String c s' => if p c then Some (s, dropWhile p s) else find_run p s'
  end.

Fixpoint squeeze (skipping : bool) (s : string) : string :=
  match s with
  | EmptyString => EmptyString
  | String c s' =>
      if class_s c
      then (if skipping then squeeze true s'
            else String " " (squeeze true s'))
      else String c (squeeze false s')
  end.

(** What follows the [>] that closes a tag opened just before. *)
Definition closes (s : string) : option string :=
  match dropWhile (fun c => negb (is_gt c)) s with
  | String _ rest => Some rest
  | EmptyString => None
  end.

Fixpoint find_tag (s : string) : option (string * string) :=
  match s with
  | EmptyString => None
  | String c s' =>
      match (if is_lt c then closes s' else None) with
      | Some rest => Some (s, rest)
      | None => find_tag s'
      end
  end.

End FetcherParts.

Section FetcherSamples.
Local Open Scope nat_scope.

(** A feed of three items: an article with markup, the same article once
    more, and an item without a link. *)
Definition sample_item : RssItem :=
  {| item_title := Some "Rates rise";
     item_link := Some "https://example.org/a";
     content_encoded := Some "<p>Rates rose   by <b>2%</b> today.</p> ";
     item_content := None; contentSnippet := None;
     item_description := Some "ignored";
     pubDate := None; creator := None; item_author := None |}.

Definition sample_feed : RssFeed :=
  {| feed_title := Some "Example";
     items := [ sample_item; sample_item;
                {| item_title := Some "No link"; item_link := None;
                   content_encoded := None; item_content := None;
                   contentSnippet := None; item_description := None;
                   pubDate := None; creator := None;
                   item_author := None |} ] |}.

End FetcherSamples.

Section StatisticsParts.
Local Open Scope nat_scope.

(** The text goes on with one of the three magnitude words. *)
Definition magnitude_next (s : string) : bool :=
  prefix "million" s || prefix "billion" s || prefix "thousand" s.

(** Somewhere in the text a number (a run of digits) is followed at once
    by [%] or, after any white space, by a magnitude word. *)
Fixpoint quotes_statistic (s : string) : bool :=
  match s with
  | EmptyString => false
  | String c s' =>
      (class_d c
       && (let rest := dropWhile class_d s' in
           prefix "%" rest || magnitude_next (dropWhile class_s rest)))
      || quotes_statistic s'
  end.

End StatisticsParts.

(* ------------------------------------------------------------------ *)
(** ** The score combiner *)

(** C9: combining a stylistic score with an empty list of fact-check
    results returns that score unchanged, whatever the arithmetic; with
    score 0.8 the result is 0.8, over the rationals and in binary64. *)
Theorem combine_empty_identity :
  (forall (N : Type) (num : Number N) (s : N),
      calculateOverallScore s [] = s) /\
  calculateOverallScore (0.8 : Q) [] = 0.8 /\
  calculateOverallScore (lit 0.8 : float) [] = lit 0.8.
Proof. repeat split. Qed.

(** Unfold the operations of the rational instance. *)
Ltac js_to_Q :=
  cbn [n_add n_sub n_mul n_div n_max n_min n_ltb of_len lit Q_Number] in *.

Lemma fold_directional (rs : list (FactCheckResult Q)) (acc : Q) :
  fold_left
    (fun sum result =>
       let score := confidence result in
       let score :=
         if Verdict_eqb (verdict result) FALSE then (lit 1 - score)%js
         else if Verdict_eqb (verdict result) MIXED then lit 0.5
         else score in
       (sum + score)%js) rs acc
  == acc + Qsum (map spec_directional rs).
Proof.
  revert acc. induction rs as [|r rs IH]; intro acc; simpl.
  - lra.
  - rewrite IH. unfold spec_directional.
    destruct (verdict r); simpl; lra.
Qed.

Lemma calculateOverallScore_cons (s : Q) r rs :
  calculateOverallScore s (r :: rs)
  == 0.4 * s + 0.6 * spec_average (map spec_directional (r :: rs)).
Proof.
  unfold calculateOverallScore.
  change (List.length (r :: rs) =? 0)%nat with false. cbv iota.
  rewrite fold_directional. unfold spec_average.
  rewrite length_map. js_to_Q. unfold Qdiv. ring.
Qed.


(* ------------------------------------------------------------------ *)
(** ** The stylistic analyzer *)

Ltac split_analysis a :=
  unfold analyzeMisinformationIndicators;
  fold (uncertaintyCount a); fold (sensationalTitle a); fold (capsWords a);
  fold (emotionalCount a); fold (citesSources a); unfold capsCount;
  destruct (5 <? uncertaintyCount a)%nat; destruct (sensationalTitle a);
  (destruct (capsWords a) as [words|];
   [destruct (2 <? List.length words)%nat|]);
  destruct (3 <? emotionalCount a)%nat; destruct (citesSources a).

Lemma analysis_flags_eq (N : Type) (num : Number N) (a : NewsArticle) :
  analysis_flags (analyzeMisinformationIndicators (N:=N) a)
  = (flag_if (5 <? uncertaintyCount a)%nat "High uncertainty language detected"
     ++ flag_if (sensationalTitle a) "Sensational title detected"
     ++ flag_if (2 <? capsCount a)%nat "Excessive capitalization detected"
     ++ flag_if (3 <? emotionalCount a)%nat "High emotional language detected"
     ++ flag_if (negb (citesSources a)) "Lack of cited sources")%list.
Proof. split_analysis a; reflexivity. Qed.

Lemma analysis_score_eq (a : NewsArticle) :
  score (analyzeMisinformationIndicators (N:=Q) a)
  == 1 - penalty (5 <? uncertaintyCount a)%nat 0.2
       - penalty (sensationalTitle a) 0.15
       - penalty (2 <? capsCount a)%nat 0.1
       - penalty (3 <? emotionalCount a)%nat 0.1
       - penalty (negb (citesSources a)) 0.2.
Proof. split_analysis a; reflexivity. Qed.

Lemma stylistic_score_range (a : NewsArticle) :
  0 <= score (analyzeMisinformationIndicators (N:=Q) a) <= 1.
Proof. split_analysis a; split; vm_compute; discriminate. Qed.

Lemma stylistic_score_range_binary64 (a : NewsArticle) :
  let s := score (analyzeMisinformationIndicators (N:=float) a) in
  PrimFloat.leb (lit 0) s = true /\ PrimFloat.leb s (lit 1) = true.
Proof. split_analysis a; split; vm_compute; reflexivity. Qed.

(* ------------------------------------------------------------------ *)
(** ** Range of the combined score *)

Lemma directional_range (r : FactCheckResult Q) :
  unit_interval (confidence r) -> unit_interval (spec_directional r).
Proof.
  unfold unit_interval, spec_directional.
  destruct (verdict r); intros [lo hi]; split; try assumption; lra.
Qed.

Lemma Qsum_range (l : list Q) :
  Forall unit_interval l ->
  0 <= Qsum l <= inject_Z (Z.of_nat (List.length l)).
Proof.
  induction 1 as [|x l [lo hi] _ [IHlo IHhi]]; simpl Qsum.
  - split; vm_compute; discriminate.
  - cbn [List.length]. rewrite Nat2Z.inj_succ, <- Z.add_1_r, inject_Z_plus.
    change (inject_Z 1) with 1. lra.
Qed.

Lemma spec_average_range (x : Q) (l : list Q) :
  Forall unit_interval (x :: l) -> unit_interval (spec_average (x :: l)).
Proof.
  intro Hall. destruct (Qsum_range Hall) as [lo hi].
  assert (0 < inject_Z (Z.of_nat (List.length (x :: l)))) as pos.
  { change 0 with (inject_Z 0). rewrite <- Zlt_Qlt. cbn [List.length]. lia. }
  unfold unit_interval, spec_average. split.
  - apply Qle_shift_div_l; [exact pos | lra].
  - apply Qle_shift_div_r; [exact pos | lra].
Qed.

Lemma combined_score_range (s : Q) (rs : list (FactCheckResult Q)) :
  unit_interval s ->
  Forall (fun r => unit_interval (confidence r)) rs ->
  unit_interval (calculateOverallScore s rs).
Proof.
  intros Hs Hrs. destruct rs as [|r rs]; [exact Hs|].
  assert (unit_interval (spec_average (map spec_directional (r :: rs))))
    as [lo hi].
  { apply (spec_average_range (l := map spec_directional rs)).
    change (Forall unit_interval (map spec_directional (r :: rs))).
    apply Forall_map. eapply Forall_impl; [|exact Hrs].
    exact directional_range. }
  destruct Hs as [slo shi]. unfold unit_interval.
  rewrite calculateOverallScore_cons. split; lra.
Qed.

(* ------------------------------------------------------------------ *)
(** ** The fact checker *)

Section CheckerFacts.
Context {N : Type} {num : Number N}.

(** The remote lookup never raises: every failure inside is caught. *)
Lemma checkWithGoogleFactCheck_run (this : FactChecker) (claim : Claim)
    (w : World) :
  checkWithGoogleFactCheck (N:=N) this claim w
  = (Returned
       match network w (clock w) (searchUrl this claim) with
       | HttpFailure => None
       | HttpOk data =>
           match firstReview data with
           | Some review =>
               match textualRating review with
               | Some rating =>
                   Some {| claim := claim;
                           verdict := normalizeVerdict rating;
                           confidence := lit 0.8;
                           sources := [review_url review];
                           explanation := rating;
                           checkedAt := clock w |}
               | None => None
               end
           | None => None
           end
       end,
     emit (HttpGet (searchUrl this claim)) w).
Proof.
  unfold checkWithGoogleFactCheck, try_catch, bind, axios_get, firstReview.
  fold (searchUrl this claim).
  destruct (network w (clock w) (searchUrl this claim)) as [|data];
    [reflexivity|].
  destruct (api_claims data) as [[|firstClaim ?]|]; try reflexivity.
  destruct (claimReview firstClaim) as [[|review ?]|]; try reflexivity.
  destruct (textualRating review); reflexivity.
Qed.

Lemma checkClaim_run (this : FactChecker) (claim : Claim) (w : World) :
  checkClaim (N:=N) this claim w
  = (Returned
       match
         (if key_configured this
          then fst (checkWithGoogleFactCheck (N:=N) this claim w)
          else Returned None)
       with
       | Returned (Some result) => result
       | _ => heuristicFactCheck (clock w) claim
       end,
     after_check this claim w).
Proof.
  unfold checkClaim, after_check, bind.
  destruct (key_configured this); [|reflexivity].
  unfold try_catch. rewrite checkWithGoogleFactCheck_run. cbn [fst].
  destruct (network w (clock w) (searchUrl this claim)) as [|data];
    [reflexivity|].
  destruct (firstReview data) as [review|]; [|reflexivity].
  destruct (textualRating review); reflexivity.
Qed.

Lemma checkClaim_checked (this : FactChecker) (claim : Claim) (w : World) :
  exists r, checkClaim (N:=N) this claim w
            = (Returned r, after_check this claim w)
            /\ checked claim r.
Proof.
  rewrite checkClaim_run. eexists; split; [reflexivity|].
  destruct (key_configured this); [|left; eexists; reflexivity].
  rewrite checkWithGoogleFactCheck_run. cbn [fst].
  destruct (network w (clock w) (searchUrl this claim)) as [|data];
    [left; eexists; reflexivity|].
  destruct (firstReview data) as [review|]; [|left; eexists; reflexivity].
  destruct (textualRating review); [|left; eexists; reflexivity].
  right. split; [reflexivity | discriminate].
Qed.

(** The batch loop never raises and yields one result per claim. *)
Lemma checkClaims_loop (this : FactChecker) (claims : list Claim) :
  forall (acc : list (FactCheckResult N)) (w : World),
  exists rs w',
    for_of claims
      (fun results claim =>
         try_catch
           (result <- checkClaim this claim ;;
            _ <- sleep 1000 ;;
            ret (results ++ [result])%list)
           (fun _ => ret results))
      acc w
    = (Returned (acc ++ rs)%list, w')
    /\ Forall2 checked claims rs.
Proof.
  induction claims as [|claim claims IH]; intros acc w; cbn [for_of].
  - exists [], w. rewrite app_nil_r. split; [reflexivity | constructor].
  - destruct (checkClaim_checked this claim w) as (r & Hrun & Hr).
    unfold bind at 1. unfold try_catch at 1. unfold bind at 1.
    rewrite Hrun. unfold bind at 1. cbn [sleep ret].
    destruct (IH (acc ++ [r])%list
                 (advance 1000 (emit (Delay 1000) (after_check this claim w))))
      as (rs & w' & Hloop & Hrs).
    exists (r :: rs), w'. split.
    + rewrite Hloop. now rewrite <- app_assoc.
    + now constructor.
Qed.

Lemma checkClaims_run (this : FactChecker) (claims : list Claim) (w : World) :
  exists rs w',
    checkClaims (N:=N) this claims w = (Returned rs, w')
    /\ Forall2 checked claims rs.
Proof. exact (checkClaims_loop this claims [] w). Qed.

End CheckerFacts.

(* ------------------------------------------------------------------ *)
(** ** The heuristic variant *)

Ltac split_heuristic claim :=
  unfold heuristicFactCheck, heuristicFlags, unsourcedStatistics;
  fold (hasRedFlags claim); fold (hasVerification claim);
  destruct (hasRedFlags claim); destruct (hasVerification claim);
  destruct (test false re_statistics (toLowerCase (text claim)));
  destruct (test false re_citation (toLowerCase (text claim))).

(** The result of the heuristic variant in terms of its three tests. *)
Lemma heuristicFactCheck_eq (N : Type) (num : Number N)
    (date : Timestamp) (claim : Claim) :
  heuristicFactCheck (N:=N) date claim
  = {| claim := claim;
       verdict := if hasVerification claim then TRUE
                  else if hasRedFlags claim then FALSE else UNVERIFIED;
       confidence :=
         (let base := if hasVerification claim then lit 0.7
                      else if hasRedFlags claim then lit 0.3 else lit 0.5 in
          if unsourcedStatistics claim
          then n_max (lit 0.3) (base - lit 0.2)%js else base);
       sources := [];
       explanation :=
         or_else (join "; " (heuristicFlags claim))
                 "Heuristic analysis - manual verification recommended";
       checkedAt := date |}.
Proof. split_heuristic claim; reflexivity. Qed.

Lemma heuristic_confidence_range (date : Timestamp) (claim : Claim) :
  unit_interval (confidence (heuristicFactCheck (N:=Q) date claim)).
Proof.
  rewrite heuristicFactCheck_eq. cbn [confidence].
  destruct (hasVerification claim), (hasRedFlags claim),
    (unsourcedStatistics claim); split; vm_compute; discriminate.
Qed.

(** The claim of C2 as the specification states it fails: a text with a
    conspiracy phrase and a verification phrase gets verdict TRUE. *)
Lemma conspiracy_not_exclusive :
  ~ (forall claim : Claim,
        hasRedFlags claim = true ->
        verdict (heuristicFactCheck (N:=Q) 0 claim) = FALSE
        /\ ~ In "Contains verification indicators" (heuristicFlags claim)).
Proof.
  intro H.
  destruct (H (claim_of_text "A peer-reviewed study exposes the conspiracy")
              eq_refl) as [Hv _].
  vm_compute in Hv. discriminate Hv.
Qed.

(** C2, amended: on a text with a conspiracy phrase the conspiracy branch
    is taken; without a verification phrase the verdict is FALSE and the
    confidence 0.3, with or without the unsourced-statistics adjustment,
    over the rationals and in binary64; with a verification phrase that
    branch is taken too and sets verdict TRUE and confidence 0.7, which
    the adjustment, where it applies, replaces by the larger of 0.3 and
    0.7 - 0.2 as the arithmetic at hand computes it. *)
Theorem conspiracy_branch (date : Timestamp) (claim : Claim)
    (Hred : hasRedFlags claim = true) :
  In "Contains conspiracy language" (heuristicFlags claim)
  /\ (forall (N : Type) (num : Number N),
        explanation (heuristicFactCheck (N:=N) date claim)
        = join "; " (heuristicFlags claim))
  /\ (hasVerification claim = false ->
        (forall (N : Type) (num : Number N),
            verdict (heuristicFactCheck (N:=N) date claim) = FALSE)
        /\ confidence (heuristicFactCheck (N:=Q) date claim) = 0.3
        /\ confidence (heuristicFactCheck (N:=float) date claim) = lit 0.3
        /\ ~ In "Contains verification indicators" (heuristicFlags claim))
  /\ (hasVerification claim = true ->
        (forall (N : Type) (num : Number N),
            verdict (heuristicFactCheck (N:=N) date claim) = TRUE
            /\ confidence (heuristicFactCheck (N:=N) date claim)
               = if unsourcedStatistics claim
                 then n_max (lit 0.3) (lit 0.7 - lit 0.2)%js
                 else lit 0.7)
        /\ In "Contains verification indicators" (heuristicFlags claim)).
Proof.
  split; [unfold heuristicFlags; rewrite Hred; now left|].
  split.
  { intros N num. rewrite heuristicFactCheck_eq. cbn [explanation].
    unfold heuristicFlags. rewrite Hred.
    destruct (hasVerification claim), (unsourcedStatistics claim);
      reflexivity. }
  split; intro Hver.
  - split.
    { intros N num. rewrite heuristicFactCheck_eq. cbn [verdict].
      now rewrite Hver, Hred. }
    rewrite !heuristicFactCheck_eq. cbn [confidence].
    unfold heuristicFlags. rewrite Hver, Hred.
    destruct (unsourcedStatistics claim); cbn [flag_if app In];
      (split; [reflexivity|]); (split; [vm_compute; reflexivity|]).
    + intros [E|[E|[]]]; discriminate E.
    + intros [E|[]]; discriminate E.
  - split.
    { intros N num. rewrite heuristicFactCheck_eq. cbn [verdict confidence].
      rewrite Hver. split; reflexivity. }
    unfold heuristicFlags. rewrite Hver, Hred. cbn [flag_if app In].
    right; now left.
Qed.

Lemma conspiracy_branch_witness :
  let claim :=
    claim_of_text "This is a conspiracy cover-up that affects 40% of people" in
  hasRedFlags claim = true
  /\ verdict (heuristicFactCheck (N:=float) 0 claim) = FALSE
  /\ confidence (heuristicFactCheck (N:=Q) 0 claim) = 0.3
  /\ confidence (heuristicFactCheck (N:=float) 0 claim) = lit 0.3
  /\ explanation (heuristicFactCheck (N:=float) 0 claim)
     = "Contains conspiracy language; Contains statistics without clear sources".
Proof.
  cbv zeta.
  pose proof (conspiracy_branch 0
    (claim_of_text "This is a conspiracy cover-up that affects 40% of people")
    eq_refl) as H.
  destruct H as (_ & Hexp & Hno & _).
  destruct (Hno eq_refl) as (Hv & Hq & Hf & _).
  split; [reflexivity|]. split; [apply Hv|]. split; [exact Hq|].
  split; [exact Hf|]. rewrite Hexp. reflexivity.
Defined.

(** C4: verdict normalization is an ordered chain of case-insensitive
    substring tests: TRUE on "true", "correct" or "accurate"; else FALSE
    on "false", "incorrect" or "wrong"; else MIXED on "mixed", "partly"
    or "mostly"; else UNVERIFIED on "unverified" or "unproven"; else
    UNKNOWN.  An earlier category wins: "mostly false" is FALSE and
    "mostly true" is TRUE. *)
Theorem normalizeVerdict_ordered :
  (forall textualRating : string,
      let rating := toLowerCase textualRating in
      normalizeVerdict textualRating
      = if contains_any rating ["true"; "correct"; "accurate"] then TRUE
        else if contains_any rating ["false"; "incorrect"; "wrong"] then FALSE
        else if contains_any rating ["mixed"; "partly"; "mostly"] then MIXED
        else if contains_any rating ["unverified"; "unproven"] then UNVERIFIED
        else UNKNOWN) /\
  (forall textualRating : string,
      contains_any (toLowerCase textualRating) ["true"; "correct"; "accurate"]
        = false ->
      contains_any (toLowerCase textualRating) ["false"; "incorrect"; "wrong"]
        = true ->
      normalizeVerdict textualRating = FALSE) /\
  normalizeVerdict "Mostly False" = FALSE /\
  normalizeVerdict "Mostly True" = TRUE /\
  normalizeVerdict "Partly accurate" = TRUE /\
  normalizeVerdict "Mostly unproven" = MIXED /\
  normalizeVerdict "Unproven" = UNVERIFIED /\
  normalizeVerdict "Satire" = UNKNOWN.
Proof.
  assert (forall textualRating : string,
      let rating := toLowerCase textualRating in
      normalizeVerdict textualRating
      = if contains_any rating ["true"; "correct"; "accurate"] then TRUE
        else if contains_any rating ["false"; "incorrect"; "wrong"] then FALSE
        else if contains_any rating ["mixed"; "partly"; "mostly"] then MIXED
        else if contains_any rating ["unverified"; "unproven"] then UNVERIFIED
        else UNKNOWN) as chain.
  { intro textualRating. cbv zeta.
    unfold normalizeVerdict, contains_any. cbn [existsb].
    now rewrite !orb_false_r, !orb_assoc. }
  split; [exact chain|]. split.
  - intros textualRating HT HF. rewrite chain. cbv zeta.
    now rewrite HT, HF.
  - repeat split.
Qed.

Lemma normalizeVerdict_ordered_witness :
  contains_any (toLowerCase "Mostly wrong") ["true"; "correct"; "accurate"]
    = false
  /\ contains_any (toLowerCase "Mostly wrong") ["false"; "incorrect"; "wrong"]
    = true
  /\ normalizeVerdict "Mostly wrong" = FALSE.
Proof.
  split; [reflexivity|]. split; [reflexivity|].
  apply (proj1 (proj2 normalizeVerdict_ordered)); reflexivity.
Defined.

(** C5: without a configured credential, or when the remote call fails or
    brings no matching review, [checkClaim] returns (it raises nothing),
    and what it returns is the result of the heuristic variant on the
    same claim: same verdict, confidence and explanation, no sources. *)
Theorem fallback_transparency (N : Type) (num : Number N)
    (this : FactChecker) (claim : Claim) (w : World)
    (Hdown : remote_unavailable this claim w) :
  exists r : FactCheckResult N,
    checkClaim this claim w = (Returned r, after_check this claim w)
    /\ r = heuristicFactCheck (clock w) claim
    /\ forall date : Timestamp,
         verdict r = verdict (heuristicFactCheck (N:=N) date claim)
         /\ confidence r = confidence (heuristicFactCheck (N:=N) date claim)
         /\ sources r = []
         /\ explanation r
            = explanation (heuristicFactCheck (N:=N) date claim).
Proof.
  exists (heuristicFactCheck (clock w) claim). split; [|split].
  - rewrite checkClaim_run. f_equal.
    destruct Hdown
      as [Hkey | [Hfail | [(data & Hok & Hnone)
                          | (data & review & Hok & Hsome & Hrating)]]].
    + now rewrite Hkey.
    + destruct (key_configured this); [|reflexivity].
      rewrite checkWithGoogleFactCheck_run. cbn [fst]. now rewrite Hfail.
    + destruct (key_configured this); [|reflexivity].
      rewrite checkWithGoogleFactCheck_run. cbn [fst].
      now rewrite Hok, Hnone.
    + destruct (key_configured this); [|reflexivity].
      rewrite checkWithGoogleFactCheck_run. cbn [fst].
      now rewrite Hok, Hsome, Hrating.
  - reflexivity.
  - intro date. now rewrite !heuristicFactCheck_eq.
Qed.

Lemma fallback_transparency_witness :
  let claim := claim_of_text "The minister said so" in
  remote_unavailable keyed_checker claim offline_world
  /\ fst (checkClaim (N:=Q) keyed_checker claim offline_world)
     = Returned (heuristicFactCheck 1000 claim).
Proof.
  cbv zeta.
  assert (remote_unavailable keyed_checker
            (claim_of_text "The minister said so") offline_world) as Hdown
    by (right; left; reflexivity).
  split; [exact Hdown|].
  destruct (@fallback_transparency Q Q_Number _ _ _ Hdown)
    as (r & Hrun & Hr & _).
  rewrite Hrun. cbn [fst]. rewrite Hr. reflexivity.
Defined.

(* ------------------------------------------------------------------ *)
(** ** Flags of the analyzer *)

Lemma in_flag_if (f flag : string) (fired : bool) :
  In f (flag_if fired flag) <-> fired = true /\ f = flag.
Proof.
  destruct fired; cbn [flag_if In]; split.
  - intros [E|[]]. now split.
  - intros [_ E]. now left.
  - intros [].
  - intros [E _]. discriminate E.
Qed.

(** A flag of the analyzer is present exactly when its test fired. *)
Lemma analysis_flag_iff (N : Type) (num : Number N) (a : NewsArticle)
    (f : string) :
  In f (analysis_flags (analyzeMisinformationIndicators (N:=N) a))
  <-> ((5 <? uncertaintyCount a)%nat = true
       /\ f = "High uncertainty language detected")
      \/ (sensationalTitle a = true /\ f = "Sensational title detected")
      \/ ((2 <? capsCount a)%nat = true
          /\ f = "Excessive capitalization detected")
      \/ ((3 <? emotionalCount a)%nat = true
          /\ f = "High emotional language detected")
      \/ (negb (citesSources a) = true /\ f = "Lack of cited sources").
Proof.
  rewrite analysis_flags_eq, !in_app_iff, !in_flag_if. reflexivity.
Qed.

(** The claim of C6 as the specification states it fails: one all-caps
    word written three times raises the flag. *)
Lemma caps_counts_repeats :
  ~ (forall a : NewsArticle,
        In "Excessive capitalization detected"
           (analysis_flags (analyzeMisinformationIndicators (N:=Q) a))
        <-> (2 < List.length (spec_distinctCapsWords a))%nat).
Proof.
  intro H.
  destruct (H (article_of "WOW WOW WOW" "")) as [Hflag _].
  assert ((2 < List.length
             (spec_distinctCapsWords (article_of "WOW WOW WOW" "")))%nat)
    as Hlt by (apply Hflag; vm_compute; left; reflexivity).
  vm_compute in Hlt. lia.
Qed.

(** C6, amended: the analyzer deducts 0.10 and emits "Excessive
    capitalization detected" exactly when the title has more than 2
    occurrences of all-caps words of at least 3 letters, repeats of a word
    counted each time. *)
Theorem caps_flag_iff_occurrences (a : NewsArticle) :
  (In "Excessive capitalization detected"
      (analysis_flags (analyzeMisinformationIndicators (N:=Q) a))
   <-> (2 < capsCount a)%nat)
  /\ score (analyzeMisinformationIndicators (N:=Q) a)
     == 1 - penalty (5 <? uncertaintyCount a)%nat 0.2
          - penalty (sensationalTitle a) 0.15
          - (if (2 <? capsCount a)%nat then 0.10 else 0)
          - penalty (3 <? emotionalCount a)%nat 0.1
          - penalty (negb (citesSources a)) 0.2.
Proof.
  split.
  - rewrite analysis_flag_iff, <- Nat.ltb_lt. split.
    + intros [[_ E]|[[_ E]|[[Hc _]|[[_ E]|[_ E]]]]];
        try discriminate E. exact Hc.
    + intro Hc. right; right; left. now split.
  - rewrite analysis_score_eq. unfold penalty.
    destruct (2 <? capsCount a)%nat; lra.
Qed.

(** The claim of C7 as the specification states it fails: one uncertainty
    word written six times does not raise the flag. *)
Lemma uncertainty_ignores_repeats :
  ~ (forall a : NewsArticle,
        In "High uncertainty language detected"
           (analysis_flags (analyzeMisinformationIndicators (N:=Q) a))
        <-> (5 < spec_lexiconHits (content a))%nat).
Proof.
  intro H.
  destruct (H (article_of "Report"
     "allegedly allegedly allegedly allegedly allegedly allegedly"))
    as [_ Hhits].
  assert (In "High uncertainty language detected"
            (analysis_flags (analyzeMisinformationIndicators (N:=Q)
               (article_of "Report"
     "allegedly allegedly allegedly allegedly allegedly allegedly"))))
    as Hin by (apply Hhits; vm_compute; lia).
  vm_compute in Hin. destruct Hin as [E|[]]. discriminate E.
Qed.

(** C7, amended: the analyzer deducts 0.20 and emits "High uncertainty
    language detected" exactly when more than 5 different words of the
    uncertainty lexicon occur in the lower-cased content; how often a
    word occurs does not count. *)
Theorem uncertainty_flag_iff_distinct (a : NewsArticle) :
  (In "High uncertainty language detected"
      (analysis_flags (analyzeMisinformationIndicators (N:=Q) a))
   <-> (5 < List.length
             (filter (fun word => includes (toLowerCase (content a)) word)
                     uncertaintyIndicators))%nat)
  /\ score (analyzeMisinformationIndicators (N:=Q) a)
     == 1 - (if (5 <? uncertaintyCount a)%nat then 0.20 else 0)
          - penalty (sensationalTitle a) 0.15
          - penalty (2 <? capsCount a)%nat 0.1
          - penalty (3 <? emotionalCount a)%nat 0.1
          - penalty (negb (citesSources a)) 0.2.
Proof.
  split.
  - fold (uncertaintyCount a).
    rewrite analysis_flag_iff, <- Nat.ltb_lt. split.
    + intros [[Hc _]|[[_ E]|[[_ E]|[[_ E]|[_ E]]]]];
        try discriminate E. exact Hc.
    + intro Hc. left. now split.
  - rewrite analysis_score_eq. unfold penalty.
    destruct (5 <? uncertaintyCount a)%nat; lra.
Qed.

(* ------------------------------------------------------------------ *)
(** ** The pipeline *)

Section PipelineFacts.
Context {N : Type} {num : Number N}.
Variable nlp_sentences : string -> list string.

Lemma extractClaims_fold (date : Timestamp) (a : NewsArticle)
    (sentences : list string) (acc : list Claim) :
  map text
    (fold_left
       (fun claims sentence =>
          let hasClaimIndicator :=
            existsb
              (fun indicator => includes (toLowerCase sentence) indicator)
              claimIndicators in
          let hasNumbers := test false (RRep 1 (RClass class_d)) sentence in
          if hasClaimIndicator || hasNumbers then
            (claims ++ [ {| text := sentence;
                            context := getContext sentence (content a) 100;
                            article := a;
                            extractedAt := date |} ])%list
          else claims)
       sentences acc)
  = (map text acc ++ filter looksLikeClaim sentences)%list.
Proof.
  revert acc. induction sentences as [|sentence sentences IH]; intro acc;
    cbn [fold_left filter].
  - now rewrite app_nil_r.
  - rewrite IH. cbv zeta. fold (looksLikeClaim sentence).
    destruct (looksLikeClaim sentence); [|reflexivity].
    rewrite map_app. cbn [map text]. now rewrite <- app_assoc.
Qed.

(** The claims are the sentences that pass the test, in order. *)
Lemma extractClaims_texts (date : Timestamp) (a : NewsArticle) :
  map text (extractClaims nlp_sentences date a)
  = filter looksLikeClaim (nlp_sentences (content a)).
Proof. unfold extractClaims. now rewrite extractClaims_fold. Qed.

(** Whether an article has claims does not depend on the clock. *)
Lemma extractClaims_nil (d1 d2 : Timestamp) (a : NewsArticle) :
  extractClaims nlp_sentences d1 a = [] ->
  extractClaims nlp_sentences d2 a = [].
Proof.
  intro H. apply map_eq_nil with (f := text).
  rewrite extractClaims_texts, <- (extractClaims_texts d1), H. reflexivity.
Qed.

Lemma length_zero_nil (A : Type) (l : list A) :
  (List.length l =? 0)%nat = true <-> l = [].
Proof. destruct l; cbn; split; intro E; try reflexivity; discriminate E. Qed.

(** No claims: [processArticle] returns null at once, for whatever checker
    it holds, and touches nothing. *)
Lemma processArticleWith_no_claims
    (checker : list Claim -> M (list (FactCheckResult N)))
    (a : NewsArticle) (w : World) :
  extractClaims nlp_sentences (clock w) a = [] ->
  processArticleWith nlp_sentences checker a w = (Returned None, w).
Proof.
  intro Hnil. unfold processArticleWith, try_catch, bind, now.
  now rewrite Hnil.
Qed.

(** Some claims: a report is assembled. *)
Lemma processArticle_report (config : Config N) (a : NewsArticle)
    (w : World) :
  extractClaims nlp_sentences (clock w) a <> [] ->
  exists r w',
    processArticle nlp_sentences config a w = (Returned (Some r), w')
    /\ report_of a r.
Proof.
  intro Hsome.
  unfold processArticle, processArticleWith, try_catch, bind at 1, now.
  destruct (List.length (extractClaims nlp_sentences (clock w) a) =? 0)%nat
    eqn:Hlen; [apply length_zero_nil in Hlen; contradiction|].
  unfold bind at 1.
  destruct (checkClaims_run (N:=N) (factChecker config)
              (extractClaims nlp_sentences (clock w) a) w)
    as (rs & w1 & Hrun & Hrs).
  rewrite Hrun. unfold bind, generateReportId, randomBytesHex, ret.
  eexists; eexists; split; [reflexivity|].
  repeat split; assumption.
Qed.

Lemma processArticle_cases (config : Config N) (a : NewsArticle)
    (w : World) :
  (extractClaims nlp_sentences (clock w) a = []
   /\ processArticle nlp_sentences config a w = (Returned None, w))
  \/ (extractClaims nlp_sentences (clock w) a <> []
      /\ exists r w',
           processArticle nlp_sentences config a w = (Returned (Some r), w')
           /\ report_of a r).
Proof.
  destruct (extractClaims nlp_sentences (clock w) a) eqn:E.
  - left. split; [reflexivity|].
    now apply processArticleWith_no_claims.
  - right. split; [discriminate|].
    apply processArticle_report. rewrite E. discriminate.
Qed.

(** Every report [processArticle] returns is the report of its article,
    and the article has claims. *)
Lemma processArticle_returned (config : Config N) (a : NewsArticle)
    (w w' : World) (r : MisinformationReport N) :
  processArticle nlp_sentences config a w = (Returned (Some r), w') ->
  report_of a r /\ extractClaims nlp_sentences (clock w) a <> [].
Proof.
  intro Hrun.
  destruct (processArticle_cases config a w)
    as [[_ Hnone] | [Hsome (r0 & w0 & Hrun0 & Hr0)]].
  - rewrite Hnone in Hrun. discriminate Hrun.
  - rewrite Hrun0 in Hrun. injection Hrun as -> _. now split.
Qed.

Lemma has_claims_false (date : Timestamp) (a : NewsArticle) :
  has_claims nlp_sentences a = false
  <-> extractClaims nlp_sentences date a = [].
Proof.
  unfold has_claims. rewrite negb_false_iff, length_zero_nil,
    <- extractClaims_texts with (date := date).
  split; [apply map_eq_nil | intros ->; reflexivity].
Qed.

(** The loop of [runMonitoringCycle] never raises; it appends one report
    per article that has claims, in order. *)
Lemma monitoring_loop (config : Config N) (articles : list NewsArticle) :
  forall (acc : list (MisinformationReport N)) (w : World),
  exists rs w',
    for_of articles
      (fun reports article =>
         try_catch
           (report <- processArticle nlp_sentences config article ;;
            match report with
            | Some report =>
                let reports := (reports ++ [report])%list in
                _ <- (if (overallScore report
                            <? minConfidenceThreshold config)%js
                      then storeReport report
                      else ret tt) ;;
                ret reports
            | None => ret reports
            end)
           (fun _ => ret reports))
      acc w
    = (Returned (acc ++ rs)%list, w')
    /\ Forall2 report_of (filter (has_claims nlp_sentences) articles) rs.
Proof.
  induction articles as [|a articles IH]; intros acc w; cbn [for_of filter].
  - exists [], w. rewrite app_nil_r. split; [reflexivity | constructor].
  - unfold bind at 1. unfold try_catch at 1. unfold bind at 1.
    destruct (processArticle_cases config a w)
      as [[Hnil Hrun] | [Hsome (r & w1 & Hrun & Hr)]]; rewrite Hrun.
    + apply has_claims_false in Hnil. rewrite Hnil.
      destruct (IH acc w) as (rs & w' & Hloop & Hrs).
      exists rs, w'. split; [exact Hloop | exact Hrs].
    + assert (has_claims nlp_sentences a = true) as Hhas.
      { destruct (has_claims nlp_sentences a) eqn:E; [reflexivity|].
        apply (has_claims_false (clock w)) in E. contradiction. }
      rewrite Hhas. cbv zeta in IH |- *. unfold bind at 1.
      match goal with
      | |- context [if ?c then storeReport r else ret tt] =>
          destruct c; cbn [storeReport ret]
      end;
      match goal with
      | |- context [for_of articles _ (acc ++ [r])%list ?w2] =>
          destruct (IH (acc ++ [r])%list w2) as (rs & w' & Hloop & Hrs)
      end;
      (exists (r :: rs), w'; split;
         [rewrite Hloop; now rewrite <- app_assoc | now constructor]).
Qed.

(** [runMonitoringCycle] returns one report per fetched article that has
    claims, in order. *)
Lemma runMonitoringCycle_run (config : Config N) (w : World) :
  exists reports w',
    runMonitoringCycle nlp_sentences config w = (Returned reports, w')
    /\ Forall2 report_of
         (filter (has_claims nlp_sentences) (feed w (newsRssFeeds config)))
         reports.
Proof.
  unfold runMonitoringCycle. unfold try_catch at 1. unfold bind at 1.
  unfold fetchFromRSS.
  destruct (List.length (feed w (newsRssFeeds config)) =? 0)%nat eqn:Hlen.
  - apply length_zero_nil in Hlen. rewrite Hlen.
    exists [], w. split; [reflexivity | constructor].
  - pose proof (monitoring_loop config (feed w (newsRssFeeds config)) [] w)
      as Hrun.
    cbv zeta in Hrun |- *. destruct Hrun as (rs & w' & Hloop & Hrs).
    rewrite Hloop. exists rs, w'. split; [reflexivity | exact Hrs].
Qed.

(** Every report of a monitoring cycle is the report of its article. *)
Lemma runMonitoringCycle_reports (config : Config N) (w w' : World)
    (reports : list (MisinformationReport N)) :
  runMonitoringCycle nlp_sentences config w = (Returned reports, w') ->
  Forall (fun r => report_of (report_article r) r) reports.
Proof.
  intro Hrun.
  destruct (runMonitoringCycle_run config w) as (rs & w0 & Hrun0 & Hrs).
  rewrite Hrun0 in Hrun. injection Hrun as <- _.
  clear Hrun0.
  induction Hrs as [|a r ? ? Hof _ IH]; constructor; [|exact IH].
  destruct Hof as (Harticle & Hrest). rewrite Harticle.
  split; [exact Harticle | exact Hrest].
Qed.

End PipelineFacts.

Lemma Forall2_In_r (A B : Type) (R : A -> B -> Prop) (l : list A)
    (l' : list B) (y : B) :
  Forall2 R l l' -> In y l' -> exists x, In x l /\ R x y.
Proof.
  induction 1 as [|x y' l l' Hxy _ IH]; intros Hin; [destruct Hin|].
  destruct Hin as [<- | Hin].
  - exists x. split; [now left | exact Hxy].
  - destruct (IH Hin) as (x' & Hx' & Hr).
    exists x'. split; [now right | exact Hr].
Qed.

(** C8: an article from which no claim is extracted yields no report:
    [processArticle] returns null, whatever fact checker it holds, and
    leaves the world as it found it (no request, no delay, no identifier
    drawn), so the checker is not invoked; and no report of a monitoring
    cycle is about that article. *)
Theorem no_claims_no_report (N : Type) (num : Number N)
    (nlp_sentences : string -> list string) (a : NewsArticle) (w : World)
    (Hnone : extractClaims nlp_sentences (clock w) a = []) :
  (forall checker : list Claim -> M (list (FactCheckResult N)),
      processArticleWith nlp_sentences checker a w = (Returned None, w))
  /\ (forall config : Config N,
        processArticle nlp_sentences config a w = (Returned None, w))
  /\ (forall (config : Config N) (w0 : World),
        exists reports w',
          runMonitoringCycle nlp_sentences config w0 = (Returned reports, w')
          /\ forall r, In r reports -> report_article r <> a).
Proof.
  split; [|split].
  - intro checker. now apply processArticleWith_no_claims.
  - intro config. now apply processArticleWith_no_claims.
  - intros config w0.
    destruct (runMonitoringCycle_run nlp_sentences config w0)
      as (reports & w' & Hrun & Hreports).
    exists reports, w'. split; [exact Hrun|].
    intros r Hin Heq.
    destruct (@Forall2_In_r _ _ _ _ _ _ Hreports Hin) as (a' & Ha' & Hof).
    destruct Hof as (Harticle & _).
    apply filter_In in Ha'. destruct Ha' as [_ Hhas].
    rewrite <- Harticle, Heq in Hhas.
    apply (has_claims_false nlp_sentences (clock w)) in Hnone.
    rewrite Hnone in Hhas. discriminate Hhas.
Qed.

Lemma no_claims_no_report_witness :
  let a := article_of "Weather" "Nothing to see here" in
  extractClaims one_sentence (clock offline_world) a = []
  /\ processArticle one_sentence no_key_config a offline_world
     = (Returned None, offline_world).
Proof.
  cbv zeta. split; [reflexivity|].
  exact (proj1 (proj2 (@no_claims_no_report Q Q_Number one_sentence
           (article_of "Weather" "Nothing to see here") offline_world
           eq_refl)) no_key_config).
Defined.

Lemma checked_confidence_range (claim : Claim) (r : FactCheckResult Q) :
  checked claim r -> unit_interval (confidence r).
Proof.
  intros [[date ->] | [-> _]].
  - apply heuristic_confidence_range.
  - split; vm_compute; discriminate.
Qed.

Lemma report_confidences (a : NewsArticle) (r : MisinformationReport Q) :
  report_of a r ->
  Forall (fun x => unit_interval (confidence x)) (factCheckResults r).
Proof.
  intros (_ & _ & _ & Hchecked).
  induction Hchecked as [|c x cs xs Hcx _ IH]; constructor.
  - exact (checked_confidence_range Hcx).
  - exact IH.
Qed.

Lemma report_score_range (a : NewsArticle) (r : MisinformationReport Q) :
  report_of a r -> unit_interval (overallScore r).
Proof.
  intro Hof. pose proof (report_confidences Hof) as Hconf.
  destruct Hof as (_ & _ & -> & _).
  apply combined_score_range; [apply stylistic_score_range | exact Hconf].
Qed.

(** C3: the stylistic score of every article lies in [0,1]; the combined
    score lies in [0,1] whenever the stylistic score and the confidences
    do; and the overall score of every report the pipeline produces (by
    [processArticle], hence by a monitoring cycle) lies in [0,1], as do
    the confidences of its fact checks.  The stylistic score also lies in
    [0,1] when computed in binary64. *)
Theorem scores_in_unit_interval :
  (forall a : NewsArticle,
      unit_interval (score (analyzeMisinformationIndicators (N:=Q) a)))
  /\ (forall (s : Q) (rs : list (FactCheckResult Q)),
        unit_interval s ->
        Forall (fun r => unit_interval (confidence r)) rs ->
        unit_interval (calculateOverallScore s rs))
  /\ (forall (nlp_sentences : string -> list string) (config : Config Q)
             (a : NewsArticle) (w w' : World) (r : MisinformationReport Q),
        processArticle nlp_sentences config a w = (Returned (Some r), w') ->
        Forall (fun x => unit_interval (confidence x)) (factCheckResults r)
        /\ unit_interval (overallScore r))
  /\ (forall (nlp_sentences : string -> list string) (config : Config Q)
             (w w' : World) (reports : list (MisinformationReport Q)),
        runMonitoringCycle nlp_sentences config w = (Returned reports, w') ->
        Forall (fun r => unit_interval (overallScore r)) reports)
  /\ (forall a : NewsArticle,
        let s := score (analyzeMisinformationIndicators (N:=float) a) in
        PrimFloat.leb (lit 0) s = true /\ PrimFloat.leb s (lit 1) = true).
Proof.
  split; [exact stylistic_score_range|].
  split; [exact combined_score_range|].
  split; [|split; [|exact stylistic_score_range_binary64]].
  - intros nlp_sentences config a w w' r Hrun.
    destruct (processArticle_returned _ _ _ _ Hrun) as [Hof _].
    split; [exact (report_confidences Hof) | exact (report_score_range Hof)].
  - intros nlp_sentences config w w' reports Hrun.
    eapply Forall_impl; [|exact (runMonitoringCycle_reports _ _ _ Hrun)].
    intros r Hof. exact (report_score_range Hof).
Qed.

Lemma scores_in_unit_interval_witness :
  unit_interval 0.7
  /\ Forall (fun r : FactCheckResult Q => unit_interval (confidence r))
       [result_of TRUE 0.8; result_of FALSE 0.8]
  /\ unit_interval
       (calculateOverallScore 0.7 [result_of TRUE 0.8; result_of FALSE 0.8]).
Proof.
  assert (unit_interval 0.7) as Hs by (split; vm_compute; discriminate).
  assert (Forall (fun r : FactCheckResult Q => unit_interval (confidence r))
            [result_of TRUE 0.8; result_of FALSE 0.8]) as Hrs
    by (repeat constructor; vm_compute; discriminate).
  split; [exact Hs|]. split; [exact Hrs|].
  exact (proj1 (proj2 scores_in_unit_interval) _ _ Hs Hrs).
Defined.

Lemma stylistic_flags_not_heuristic (N : Type) (num : Number N)
    (a : NewsArticle) (f : string) :
  In f (analysis_flags (analyzeMisinformationIndicators (N:=N) a)) ->
  ~ In f heuristicFlagTexts.
Proof.
  intros Hin Hheur. apply analysis_flag_iff in Hin.
  destruct Hin as [[_ ->]|[[_ ->]|[[_ ->]|[[_ ->]|[_ ->]]]]];
    cbn [heuristicFlagTexts In] in Hheur;
    destruct Hheur as [E|[E|[E|[]]]]; discriminate E.
Qed.

Lemma report_flags (N : Type) (num : Number N) (a : NewsArticle)
    (r : MisinformationReport N) :
  report_of a r ->
  flags r = analysis_flags (analyzeMisinformationIndicators (N:=N) a)
  /\ (forall f, In f (flags r) -> ~ In f heuristicFlagTexts).
Proof.
  intros (_ & Hflags & _). split; [exact Hflags|].
  rewrite Hflags. intro f. apply stylistic_flags_not_heuristic.
Qed.

(** C10: the flags of a report are the flags of the stylistic analyzer
    for its article, none of which is a flag text of the heuristic fact
    checker; the heuristic flags end up in the explanation of a fact-check
    result, joined by "; ", and the explanation is "Heuristic analysis -
    manual verification recommended" when no heuristic rule fired. *)
Theorem report_flags_are_stylistic (N : Type) (num : Number N) :
  (forall (nlp_sentences : string -> list string) (config : Config N)
          (a : NewsArticle) (w w' : World) (r : MisinformationReport N),
      processArticle nlp_sentences config a w = (Returned (Some r), w') ->
      report_article r = a
      /\ flags r = analysis_flags (analyzeMisinformationIndicators (N:=N) a)
      /\ (forall f, In f (flags r) -> ~ In f heuristicFlagTexts)
      /\ Forall2 checked (claims r) (factCheckResults r))
  /\ (forall (nlp_sentences : string -> list string) (config : Config N)
             (w w' : World) (reports : list (MisinformationReport N)),
        runMonitoringCycle nlp_sentences config w = (Returned reports, w') ->
        Forall
          (fun r =>
             flags r
             = analysis_flags
                 (analyzeMisinformationIndicators (N:=N) (report_article r))
             /\ (forall f, In f (flags r) -> ~ In f heuristicFlagTexts))
          reports)
  /\ (forall (date : Timestamp) (claim : Claim),
        explanation (heuristicFactCheck (N:=N) date claim)
        = match heuristicFlags claim with
          | [] => "Heuristic analysis - manual verification recommended"
          | fired => join "; " fired
          end
        /\ (forall f, In f (heuristicFlags claim) -> In f heuristicFlagTexts)
        /\ (hasRedFlags claim = false -> hasVerification claim = false ->
            unsourcedStatistics claim = false -> heuristicFlags claim = [])).
Proof.
  split; [|split].
  - intros nlp_sentences config a w w' r Hrun.
    destruct (processArticle_returned _ _ _ _ Hrun) as [Hof _].
    destruct (report_flags Hof) as [Hflags Hnone].
    destruct Hof as (Harticle & _ & _ & Hchecked).
    repeat split; assumption.
  - intros nlp_sentences config w w' reports Hrun.
    eapply Forall_impl; [|exact (runMonitoringCycle_reports _ _ _ Hrun)].
    intros r Hof. exact (report_flags Hof).
  - intros date claim. split; [|split].
    + rewrite heuristicFactCheck_eq. cbn [explanation].
      unfold heuristicFlags.
      destruct (hasRedFlags claim), (hasVerification claim),
        (unsourcedStatistics claim); reflexivity.
    + intros f. unfold heuristicFlags.
      rewrite !in_app_iff, !in_flag_if. cbn [heuristicFlagTexts In].
      intros [[_ ->]|[[_ ->]|[_ ->]]]; auto.
    + intros H1 H2 H3. unfold heuristicFlags. now rewrite H1, H2, H3.
Qed.

Lemma report_flags_are_stylistic_witness :
  let a := article_of "BREAKING!! Scientists Reveal SHOCKING Truth"
             "Officials said 40% of people agree. It is a cover-up." in
  exists r w',
    processArticle one_sentence no_key_config a offline_world
    = (Returned (Some r), w')
    /\ flags r = ["Sensational title detected"; "Lack of cited sources"]
    /\ map (@explanation Q) (factCheckResults r)
       = ["Contains conspiracy language; Contains statistics without clear sources"].
Proof.
  cbv zeta.
  destruct (processArticle one_sentence no_key_config
              (article_of "BREAKING!! Scientists Reveal SHOCKING Truth"
                 "Officials said 40% of people agree. It is a cover-up.")
              offline_world) as [[[r|]|e] w'] eqn:Hrun;
    [ | vm_compute in Hrun; discriminate Hrun
      | vm_compute in Hrun; discriminate Hrun ].
  exists r, w'. split; [reflexivity|].
  destruct (proj1 (@report_flags_are_stylistic Q Q_Number) _ _ _ _ _ _ Hrun)
    as (_ & Hflags & _ & _).
  split; [rewrite Hflags; reflexivity|].
  vm_compute in Hrun. injection Hrun as <- _. reflexivity.
Defined.

(* ------------------------------------------------------------------ *)
(** ** The scenarios of the specification, in both arithmetics *)

(** Scenario B: a conspiracy phrase with an unsourced percentage. *)
Example scenario_B :
  let claim :=
    claim_of_text "This is a conspiracy cover-up that affects 40% of people" in
  (verdict (heuristicFactCheck (N:=Q) 0 claim) = FALSE
   /\ confidence (heuristicFactCheck (N:=Q) 0 claim) = 0.3)
  /\ (verdict (heuristicFactCheck (N:=float) 0 claim) = FALSE
      /\ confidence (heuristicFactCheck (N:=float) 0 claim) = lit 0.3)
  /\ heuristicFlags claim
     = ["Contains conspiracy language";
        "Contains statistics without clear sources"].
Proof. cbv zeta. repeat split; vm_compute; reflexivity. Qed.

(** Scenario A: a sensational title over uncertain, unsourced content. *)
Example scenario_A :
  let a := article_of "BREAKING!! Scientists Reveal SHOCKING Truth"
    "Allegedly it might be so; supposedly, reportedly, it could possibly be." in
  analysis_flags (analyzeMisinformationIndicators (N:=Q) a)
  = ["High uncertainty language detected"; "Sensational title detected";
     "Lack of cited sources"]
  /\ score (analyzeMisinformationIndicators (N:=Q) a) == 0.45
  /\ PrimFloat.leb (score (analyzeMisinformationIndicators (N:=float) a))
       (lit 0.45) = true.
Proof. cbv zeta. repeat split; vm_compute; reflexivity. Qed.

(* ------------------------------------------------------------------ *)
(** ** Strings: occurrences and slices *)

Section StringFacts.
Local Open Scope nat_scope.

Lemma prefix_app (p s : string) :
  prefix p s = true <-> exists post, s = p ++ post.
Proof.
  revert s. induction p as [|a p IH]; intro s.
  - split; [intros _; now exists s | intros _; destruct s; reflexivity].
  - destruct s as [|b s]; cbn [prefix];
      [split; [discriminate | intros [post E]; discriminate E]|].
    destruct (ascii_dec a b) as [<-|Hne].
    + rewrite IH. split; intros [post E]; exists post.
      * cbn. now rewrite E.
      * cbn in E. now injection E.
    + split; [discriminate|]. intros [post E]. cbn in E.
      injection E as E _. now elim Hne.
Qed.

Lemma append_nil_l (a b : string) : a ++ b = "" -> a = "" /\ b = "".
Proof. destruct a; cbn; [intros ->; now split | discriminate]. Qed.

Lemma append_assoc (a b c : string) : (a ++ b) ++ c = a ++ b ++ c.
Proof. induction a as [|x a IH]; cbn; [reflexivity | now rewrite IH]. Qed.

Lemma append_length (a b : string) :
  String.length (a ++ b) = String.length a + String.length b.
Proof. induction a as [|x a IH]; cbn; [reflexivity | now rewrite IH]. Qed.

(** [includes] is the infix relation. *)
Lemma includes_infix (s sub : string) :
  includes s sub = true <-> exists pre post, s = pre ++ sub ++ post.
Proof.
  induction s as [|c s IH]; cbn [includes]; rewrite orb_true_iff, prefix_app.
  - split.
    + intros [[post E] | E]; [|discriminate E]. now exists "", post.
    + intros (pre & post & E). left.
      symmetry in E. apply append_nil_l in E. destruct E as [-> E].
      exists post. symmetry. exact E.
  - rewrite IH. split.
    + intros [[post E] | (pre & post & E)].
      * now exists "", post.
      * exists (String c pre), post. cbn. now rewrite E.
    + intros (pre & post & E). destruct pre as [|x pre].
      * left. now exists post.
      * right. cbn in E. injection E as _ E. now exists pre, post.
Qed.

Lemma includes_app_part (s a b c : string) :
  includes s (a ++ b ++ c) = true -> includes s b = true.
Proof.
  rewrite !includes_infix. intros (pre & post & E).
  exists (pre ++ a), (c ++ post).
  now rewrite E, !append_assoc.
Qed.

(** [indexOf] finds an occurrence when there is one. *)
Lemma indexOf_Some (s sub : string) (i : nat) :
  indexOf s sub = Some i ->
  exists pre post, s = pre ++ sub ++ post /\ String.length pre = i.
Proof.
  revert i. induction s as [|c s IH]; intro i; cbn [indexOf].
  - destruct (prefix sub "") eqn:P; [|discriminate].
    intros [= <-]. apply prefix_app in P. destruct P as [post E].
    now exists "", post.
  - destruct (prefix sub (String c s)) eqn:P.
    + intros [= <-]. apply prefix_app in P. destruct P as [post E].
      now exists "", post.
    + destruct (indexOf s sub) as [j|]; [|discriminate].
      cbn [option_map]. intros [= <-].
      destruct (IH j eq_refl) as (pre & post & E & L).
      exists (String c pre), post. cbn. now rewrite E, L.
Qed.

Lemma indexOf_None (s sub : string) :
  indexOf s sub = None <-> includes s sub = false.
Proof.
  induction s as [|c s IH]; cbn [indexOf includes].
  - destruct (prefix sub ""); cbn; split; intro E; try reflexivity;
      discriminate E.
  - destruct (prefix sub (String c s)); cbn [orb].
    + split; discriminate.
    + rewrite <- IH. destruct (indexOf s sub); cbn; split; intro E;
        try reflexivity; discriminate E.
Qed.

Lemma substring_length_le (n m : nat) (s : string) :
  String.length (substring n m s) <= m.
Proof.
  revert n m. induction s as [|c s IH]; intros n m.
  - destruct n, m; cbn; lia.
  - destruct n as [|n].
    + destruct m as [|m]; cbn; [lia|]. specialize (IH 0 m). lia.
    + cbn. apply IH.
Qed.

Lemma substring_0_app (a b : string) (m : nat) :
  String.length a <= m ->
  substring 0 m (a ++ b) = a ++ substring 0 (m - String.length a) b.
Proof.
  revert m. induction a as [|x a IH]; intros m Hm; cbn [append String.length].
  - now rewrite Nat.sub_0_r.
  - destruct m as [|m]; [cbn in Hm; lia|]. cbn in Hm.
    cbn [substring]. rewrite IH by lia. reflexivity.
Qed.

Lemma substring_skip (a b : string) (n m : nat) :
  n <= String.length a ->
  exists a', substring n m (a ++ b) = substring 0 m (a' ++ b)
             /\ String.length a' = String.length a - n.
Proof.
  revert n. induction a as [|x a IH]; intros n Hn.
  - cbn in Hn. assert (n = 0) as -> by lia. now exists "".
  - destruct n as [|n].
    + now exists (String x a).
    + cbn in Hn. destruct (IH n) as (a' & E & L); [lia|].
      exists a'. cbn [append]. split; [|exact L].
      destruct m; cbn [substring]; exact E.
Qed.

(** A slice that covers an occurrence still holds it. *)
Lemma substring_covers (pre mid post : string) (n m : nat) :
  n <= String.length pre ->
  String.length pre + String.length mid <= n + m ->
  includes (substring n m (pre ++ mid ++ post)) mid = true.
Proof.
  intros Hn Hm.
  destruct (substring_skip pre (mid ++ post) m Hn) as (pre' & -> & L).
  rewrite substring_0_app by lia.
  rewrite substring_0_app by lia.
  apply includes_infix. eexists; eexists; reflexivity.
Qed.

(** A slice of a string occurs in it. *)
Lemma substring_infix (n m : nat) (s : string) :
  includes s (substring n m s) = true.
Proof.
  apply includes_infix. revert n m.
  induction s as [|c s IH]; intros n m.
  - exists "", "". destruct n, m; reflexivity.
  - destruct n as [|n].
    + destruct m as [|m].
      * exists "", (String c s). reflexivity.
      * destruct (IH 0 m) as (pre & post & E). cbn [substring].
        destruct pre as [|x pre].
        -- exists "", post. cbn in *. now rewrite <- E.
        -- (* the slice from 0 is a prefix *)
           clear E. exists "".
           assert (exists post', s = substring 0 m s ++ post') as [post' E].
           { clear. revert m. induction s as [|d s IHs]; intro m.
             - exists "". destruct m; reflexivity.
             - destruct m as [|m]; [now exists (String d s)|].
               destruct (IHs m) as [p E]. exists p. cbn. now rewrite <- E. }
           exists post'. cbn. now rewrite <- E.
    + destruct (IH n m) as (pre & post & E).
      exists (String c pre), post. cbn. now rewrite <- E.
Qed.

End StringFacts.

(* ------------------------------------------------------------------ *)
(** ** The context window of a claim *)

Lemma includes_refl (s : string) : includes s s = true.
Proof. destruct s as [|c s]; cbn [includes]; apply orb_true_iff; left;
  apply prefix_app; exists ""; clear; [reflexivity|];
  cbn; f_equal; induction s as [|d s IH]; cbn; [reflexivity | now rewrite <- IH].
Qed.

(** X1: the context [getContext] returns always holds the sentence; it is
    at most [2 * contextSize] characters longer; when the sentence occurs
    in the text the context is a slice of the text, and when it does not
    the context is the sentence itself. *)
Theorem getContext_window (sentence fullText : string) (contextSize : nat) :
  includes (getContext sentence fullText contextSize) sentence = true
  /\ (String.length (getContext sentence fullText contextSize)
      <= String.length sentence + 2 * contextSize)%nat
  /\ (includes fullText sentence = true ->
      includes fullText (getContext sentence fullText contextSize) = true)
  /\ (includes fullText sentence = false ->
      getContext sentence fullText contextSize = sentence).
Proof.
  unfold getContext, substring_js.
  destruct (indexOf fullText sentence) as [i|] eqn:E.
  - destruct (indexOf_Some _ _ E) as (pre & post & -> & L).
    rewrite !append_length.
    split; [|split; [|split]].
    + apply substring_covers; lia.
    + etransitivity; [apply substring_length_le|]. lia.
    + intros _. apply substring_infix.
    + intro Hno. apply indexOf_None in Hno. rewrite Hno in E. discriminate E.
  - split; [apply includes_refl|]. split; [lia|]. split; [|reflexivity].
    intro Hyes. apply indexOf_None in E. rewrite E in Hyes. discriminate Hyes.
Qed.

Lemma getContext_window_witness :
  includes "He said 5. Then he left." "said 5" = true
  /\ includes "He said 5. Then he left."
       (getContext "said 5" "He said 5. Then he left." 3) = true
  /\ getContext "said 5" "He said 5. Then he left." 3 = "He said 5. T".
Proof.
  split; [reflexivity|]. split; [|reflexivity].
  exact (proj1 (proj2 (proj2 (getContext_window "said 5"
           "He said 5. Then he left." 3))) eq_refl).
Defined.

(* ------------------------------------------------------------------ *)
(** ** Verdict normalization: shadowed words *)

(** X2: because "incorrect", "inaccurate" and "untrue" contain "correct",
    "accurate" and "true", a rating with one of them is normalized to
    TRUE; the verdict FALSE is only ever reached through "false" or
    "wrong". *)
Theorem normalizeVerdict_shadowed (textualRating : string) :
  (contains_any (toLowerCase textualRating)
     ["incorrect"; "inaccurate"; "untrue"] = true ->
   normalizeVerdict textualRating = TRUE)
  /\ (normalizeVerdict textualRating = FALSE ->
      contains_any (toLowerCase textualRating) ["false"; "wrong"] = true).
Proof.
  unfold normalizeVerdict, contains_any. cbn [existsb].
  set (rating := toLowerCase textualRating).
  assert (includes rating "incorrect" = true -> includes rating "correct" = true)
    as Hc by exact (includes_app_part rating "in" "correct" "").
  assert (includes rating "inaccurate" = true -> includes rating "accurate" = true)
    as Ha by exact (includes_app_part rating "in" "accurate" "").
  assert (includes rating "untrue" = true -> includes rating "true" = true)
    as Ht by exact (includes_app_part rating "un" "true" "").
  split.
  - rewrite !orb_false_r, !orb_true_iff. intros [H|[H|H]].
    + rewrite (Hc H), orb_true_r. reflexivity.
    + rewrite (Ha H), !orb_true_r. reflexivity.
    + rewrite (Ht H). reflexivity.
  - destruct (includes rating "true" || includes rating "correct"
              || includes rating "accurate") eqn:HT; [discriminate|].
    apply orb_false_iff in HT. destruct HT as [HT _].
    apply orb_false_iff in HT. destruct HT as [_ Hcorrect].
    destruct (includes rating "incorrect") eqn:Hin.
    + rewrite (Hc eq_refl) in Hcorrect. discriminate Hcorrect.
    + rewrite orb_false_r.
      destruct (includes rating "false"); [reflexivity|].
      destruct (includes rating "wrong"); [reflexivity|]. cbn.
      destruct (includes rating "mixed" || includes rating "partly"
                || includes rating "mostly"); [discriminate|].
      destruct (includes rating "unverified" || includes rating "unproven");
        discriminate.
Qed.

Lemma normalizeVerdict_shadowed_witness :
  contains_any (toLowerCase "Incorrect")
    ["incorrect"; "inaccurate"; "untrue"] = true
  /\ normalizeVerdict "Incorrect" = TRUE.
Proof.
  split; [reflexivity|].
  exact (proj1 (normalizeVerdict_shadowed "Incorrect") eq_refl).
Defined.

(* ------------------------------------------------------------------ *)
(** ** What the regular expressions of the services test *)

Section RegexFacts.
Local Open Scope nat_scope.

Lemma test_is_some (ci : bool) (r : regex) (s : string) :
  test ci r s = is_some (exec ci r None s).
Proof. unfold test. now destruct (exec ci r None s). Qed.

Lemma exec_step (ci : bool) (r : regex) (prev : option ascii) (s : string) :
  is_some (exec ci r prev s)
  = is_some (rmatch ci r prev s accept)
    || match s with
       | EmptyString => false
       | String c s' => is_some (exec ci r (Some c) s')
       end.
Proof.
  destruct s as [|c s]; cbn [exec];
    destruct (rmatch ci r prev _ accept); reflexivity.
Qed.

Lemma is_some_orElse (A : Type) (a b : option A) :
  is_some (orElse a b) = is_some a || is_some b.
Proof. now destruct a, b. Qed.

(** An alternative matches where one of its branches does. *)
Lemma exec_alt (ci : bool) (r1 r2 : regex) (prev : option ascii)
    (s : string) :
  is_some (exec ci (RAlt r1 r2) prev s)
  = is_some (exec ci r1 prev s) || is_some (exec ci r2 prev s).
Proof.
  revert prev. induction s as [|c s IH]; intro prev;
    rewrite (exec_step ci (RAlt r1 r2)), (exec_step ci r1),
      (exec_step ci r2); cbn [rmatch]; rewrite is_some_orElse.
  - now rewrite !orb_false_r.
  - rewrite IH.
    destruct (is_some (rmatch ci r1 prev (String c s) accept)),
      (is_some (rmatch ci r2 prev (String c s) accept)),
      (is_some (exec ci r1 (Some c) s)), (is_some (exec ci r2 (Some c) s));
      reflexivity.
Qed.

Lemma test_alt (ci : bool) (r1 r2 : regex) (s : string) :
  test ci (RAlt r1 r2) s = test ci r1 s || test ci r2 s.
Proof. rewrite !test_is_some. apply exec_alt. Qed.

(** A literal matches where it is a prefix. *)
Lemma match_str_prefix (pat : string) (prev : option ascii) (s : string) :
  is_some (match_str false pat prev s accept) = prefix pat s.
Proof.
  revert prev s. induction pat as [|p pat IH]; intros prev s.
  - destruct s; reflexivity.
  - destruct s as [|c s]; cbn [match_str prefix]; [reflexivity|].
    unfold char_matches. destruct (Ascii.eqb_spec p c) as [<-|Hne].
    + destruct (ascii_dec p p) as [_|Hne]; [apply IH | now elim Hne].
    + destruct (ascii_dec p c) as [E|_]; [now elim Hne | reflexivity].
Qed.

Lemma exec_literal (pat : string) (prev : option ascii) (s : string) :
  is_some (exec false (RStr pat) prev s) = includes s pat.
Proof.
  revert prev. induction s as [|c s IH]; intro prev;
    rewrite exec_step; cbn [rmatch includes]; rewrite match_str_prefix.
  - reflexivity.
  - now rewrite IH.
Qed.

Lemma test_literal (pat s : string) : test false (RStr pat) s = includes s pat.
Proof. rewrite test_is_some. apply exec_literal. Qed.

(** Every character is one of the 256. *)
Lemma in_all_ascii (c : ascii) : In c all_ascii.
Proof.
  unfold all_ascii. apply in_map_iff. exists (nat_of_ascii c). split.
  - apply ascii_nat_embedding.
  - apply in_seq. pose proof (nat_ascii_bounded c). lia.
Qed.

Lemma all_ascii_forall (P : ascii -> bool) :
  forallb P all_ascii = true -> forall c, P c = true.
Proof. intros H c. exact (proj1 (forallb_forall P all_ascii) H c (in_all_ascii c)). Qed.

Lemma toLowerChar_not_upper (c : ascii) : isAsciiUpper (toLowerChar c) = false.
Proof.
  apply negb_true_iff. revert c.
  apply (all_ascii_forall (fun c => negb (isAsciiUpper (toLowerChar c)))).
  vm_compute. reflexivity.
Qed.

Lemma toLowerCase_lowered (s : string) :
  all_chars (fun c => negb (isAsciiUpper c)) (toLowerCase s) = true.
Proof.
  induction s as [|c s IH]; cbn [toLowerCase all_chars]; [reflexivity|].
  now rewrite toLowerChar_not_upper, IH.
Qed.

(** Under the [i] flag a pattern character matches a character that is
    not an ASCII capital exactly when its lower-case form is that
    character. *)
Lemma char_matches_ci (p c : ascii) :
  isAsciiUpper c = false ->
  char_matches true p c = Ascii.eqb (asciiLowerChar p) c.
Proof.
  intro Hc.
  assert (forallb (fun p => forallb (fun c =>
            implb (negb (isAsciiUpper c))
              (Bool.eqb (char_matches true p c)
                        (Ascii.eqb (asciiLowerChar p) c)))
            all_ascii) all_ascii = true) as table
    by (vm_compute; reflexivity).
  pose proof (all_ascii_forall _ (all_ascii_forall _ table p) c) as H.
  cbv beta in H. rewrite Hc in H. cbn [negb implb] in H.
  now apply Bool.eqb_prop in H.
Qed.

Lemma match_str_prefix_ci (pat : string) (prev : option ascii) (s : string) :
  all_chars (fun c => negb (isAsciiUpper c)) s = true ->
  is_some (match_str true pat prev s accept) = prefix (asciiLowerCase pat) s.
Proof.
  revert prev s. induction pat as [|p pat IH]; intros prev s Hs.
  - destruct s; reflexivity.
  - destruct s as [|c s]; cbn [match_str prefix asciiLowerCase];
      [reflexivity|].
    cbn [all_chars] in Hs. apply andb_true_iff in Hs. destruct Hs as [Hc Hs].
    apply negb_true_iff in Hc. rewrite (char_matches_ci p c Hc).
    destruct (Ascii.eqb_spec (asciiLowerChar p) c) as [<-|Hne].
    + destruct (ascii_dec (asciiLowerChar p) (asciiLowerChar p)) as [_|Hne];
        [now apply IH | now elim Hne].
    + destruct (ascii_dec (asciiLowerChar p) c) as [E|_];
        [now elim Hne | reflexivity].
Qed.

Lemma exec_literal_ci (pat : string) (prev : option ascii) (s : string) :
  all_chars (fun c => negb (isAsciiUpper c)) s = true ->
  is_some (exec true (RStr pat) prev s) = includes s (asciiLowerCase pat).
Proof.
  revert prev. induction s as [|c s IH]; intros prev Hs;
    rewrite exec_step; cbn [rmatch includes];
    rewrite (match_str_prefix_ci pat prev _ Hs).
  - reflexivity.
  - cbn [all_chars] in Hs. apply andb_true_iff in Hs.
    now rewrite IH.
Qed.

Lemma test_literal_ci (pat s : string) :
  test true (RStr pat) (toLowerCase s)
  = includes (toLowerCase s) (asciiLowerCase pat).
Proof.
  rewrite test_is_some. apply exec_literal_ci, toLowerCase_lowered.
Qed.

End RegexFacts.

Section RepetitionFacts.
Local Open Scope nat_scope.

Lemma rmatch_rep (ci : bool) (r' : regex) (min : nat) (prev : option ascii)
    (s : string) (k : Cont) :
  rmatch ci (RRep min r') prev s k
  = rep_loop ci r' k (S (String.length s)) min prev s.
Proof. reflexivity. Qed.

Lemma rep_loop_S (ci : bool) (r' : regex) (k : Cont) (fuel need : nat)
    (prev : option ascii) (s : string) :
  rep_loop ci r' k (S fuel) need prev s
  = orElse
      (rmatch ci r' prev s
         (fun prev' s' =>
            if String.length s' <? String.length s
            then rep_loop ci r' k fuel (Nat.pred need) prev' s'
            else None))
      (if need =? 0 then k prev s else None).
Proof. reflexivity. Qed.

(** Repetition of an expression that matches one character of a class. *)
Variable ci : bool.
Variable r' : regex.
Variable p : ascii -> bool.
Hypothesis one_char :
  forall (prev : option ascii) (s : string) (k : Cont),
    rmatch ci r' prev s k
    = match s with
      | String c s' => if p c then k (Some c) s' else None
      | EmptyString => None
      end.

(** Greedy: the repetition takes the whole run, if it is long enough. *)
Lemma rep_loop_accept (fuel : nat) :
  forall (need : nat) (prev : option ascii) (s : string),
    String.length s < fuel ->
    rep_loop ci r' accept fuel need prev s
    = if need <=? run p s then Some (dropWhile p s) else None.
Proof.
  induction fuel as [|fuel IH]; intros need prev s Hfuel; [lia|].
  rewrite rep_loop_S, one_char.
  destruct s as [|c s]; cbn [run dropWhile orElse].
  - destruct need; reflexivity.
  - destruct (p c).
    + cbn [String.length]. rewrite (proj2 (Nat.ltb_lt _ _)) by lia.
      cbn [String.length] in Hfuel. rewrite IH by lia.
      destruct need as [|need]; cbn [Nat.pred Nat.leb].
      * cbn [Nat.leb]. reflexivity.
      * destruct (need <=? run p s); reflexivity.
    + destruct need; reflexivity.
Qed.

Lemma rmatch_rep_accept (min : nat) (prev : option ascii) (s : string) :
  rmatch ci (RRep min r') prev s accept
  = if min <=? run p s then Some (dropWhile p s) else None.
Proof. rewrite rmatch_rep. apply rep_loop_accept. lia. Qed.

Lemma exec_rep_step (min : nat) (prev : option ascii) (s : string) :
  is_some (exec ci (RRep min r') prev s)
  = (min <=? run p s)
    || match s with
       | EmptyString => false
       | String c s' => is_some (exec ci (RRep min r') (Some c) s')
       end.
Proof.
  rewrite exec_step, rmatch_rep_accept.
  now destruct (min <=? run p s).
Qed.

(** One or more: some character of the class occurs. *)
Lemma exec_plus (prev : option ascii) (s : string) :
  is_some (exec ci (RRep 1 r') prev s) = any_char p s.
Proof.
  revert prev. induction s as [|c s IH]; intro prev; rewrite exec_rep_step.
  - reflexivity.
  - rewrite IH. cbn [run any_char]. now destruct (p c).
Qed.

End RepetitionFacts.

Section TestFacts.
Local Open Scope nat_scope.

(** [/\d+/] tests for a digit. *)
Lemma test_digits (s : string) :
  test false (RRep 1 (RClass class_d)) s = any_char class_d s.
Proof.
  rewrite test_is_some. apply exec_plus.
  intros prev t k. cbn [rmatch]. unfold class_matches.
  destruct t as [|c t]; [reflexivity|]. now rewrite orb_false_r.
Qed.

(** [/!{2,}/] tests for two exclamation marks in a row. *)
Lemma test_exclamations (s : string) :
  test false re_exclamations s = includes s "!!".
Proof.
  rewrite test_is_some. unfold re_exclamations.
  assert (forall (prev : option ascii) (t : string) (k : Cont),
            rmatch false (RStr "!") prev t k
            = match t with
              | String c t' => if Ascii.eqb "!" c then k (Some c) t' else None
              | EmptyString => None
              end) as one_char.
  { intros prev t k. destruct t; reflexivity. }
  generalize (@None ascii) as prev.
  induction s as [|c s IH]; intro prev;
    rewrite (@exec_rep_step false (RStr "!") (Ascii.eqb "!") one_char 2);
    cbn [includes].
  - reflexivity.
  - rewrite IH. f_equal.
    cbn [run prefix]. destruct (Ascii.eqb_spec "!"%char c) as [<-|Hne].
    + destruct (ascii_dec "!" "!") as [_|Hne]; [|now elim Hne].
      destruct s as [|d s]; [reflexivity|]. cbn [run prefix].
      destruct (Ascii.eqb_spec "!"%char d) as [<-|Hne].
      * destruct (ascii_dec "!" "!") as [_|Hne]; [|now elim Hne].
        now destruct s.
      * destruct (ascii_dec "!" d) as [E|_]; [now elim Hne | reflexivity].
    + destruct (ascii_dec "!" c) as [E|_]; [now elim Hne | reflexivity].
Qed.

(** [/according to|source|research|study|data/i] on lower-cased text. *)
Lemma test_sources (s : string) :
  test true re_sources (toLowerCase s)
  = contains_any (toLowerCase s)
      ["according to"; "source"; "research"; "study"; "data"].
Proof.
  unfold re_sources, contains_any. cbn [existsb].
  rewrite !test_alt, !test_literal_ci, orb_false_r. reflexivity.
Qed.

(** [/BREAKING|SHOCKING|UNBELIEVABLE/i] on lower-cased text. *)
Lemma test_sensational (s : string) :
  test true re_sensational (toLowerCase s)
  = contains_any (toLowerCase s) ["breaking"; "shocking"; "unbelievable"].
Proof.
  unfold re_sensational, contains_any. cbn [existsb].
  rewrite !test_alt, !test_literal_ci, orb_false_r. reflexivity.
Qed.

(** [/according to|source|research|study/] *)
Lemma test_citation (s : string) :
  test false re_citation s
  = contains_any s ["according to"; "source"; "research"; "study"].
Proof.
  unfold re_citation, contains_any. cbn [existsb].
  rewrite !test_alt, !test_literal, orb_false_r. reflexivity.
Qed.

End TestFacts.

(* ------------------------------------------------------------------ *)
(** ** More on the stylistic analyzer *)

(** X3: the title and source tests of the analyzer are substring tests.
    "Sensational title detected" is raised exactly when the title has two
    exclamation marks in a row or, in any letter case, one of "breaking",
    "shocking", "unbelievable"; "Lack of cited sources" exactly when the
    lower-cased content has none of "according to", "source", "research",
    "study", "data" as a substring. *)
Theorem analyzer_substring_tests (N : Type) (num : Number N)
    (a : NewsArticle) :
  (In "Sensational title detected"
      (analysis_flags (analyzeMisinformationIndicators (N:=N) a))
   <-> includes (title a) "!!" = true
       \/ contains_any (toLowerCase (title a))
            ["breaking"; "shocking"; "unbelievable"] = true)
  /\ (In "Lack of cited sources"
         (analysis_flags (analyzeMisinformationIndicators (N:=N) a))
      <-> contains_any (toLowerCase (content a))
            ["according to"; "source"; "research"; "study"; "data"] = false).
Proof.
  rewrite !analysis_flag_iff. unfold sensationalTitle, citesSources.
  rewrite test_exclamations, test_sensational, test_sources.
  rewrite negb_true_iff, orb_true_iff. split; split.
  - intros [[_ E]|[[H _]|[[_ E]|[[_ E]|[_ E]]]]]; try discriminate E.
    exact H.
  - intro H. right; left. now split.
  - intros [[_ E]|[[_ E]|[[_ E]|[[_ E]|[H _]]]]]; try discriminate E.
    exact H.
  - intro H. do 4 right. now split.
Qed.

(** X4: the flags account for the score, in the arithmetic of the
    program.  In binary64 the stylistic score is what is left of 1 after
    taking off, one after the other in the order of the flags, the
    deduction of each flag raised (0.2, 0.15, 0.1, 0.1, 0.2); it is never
    below 0.25 nor above 1, so the final clamp to [0,1] changes nothing;
    it is 1 exactly when no flag is raised; and no flag is raised
    twice. *)
Theorem analyzer_score_accounting (a : NewsArticle) :
  let r := analyzeMisinformationIndicators (N:=float) a in
  score r
  = fold_left (fun left flag => (left - flagPenalty flag)%js)
      (analysis_flags r) (lit 1)
  /\ PrimFloat.leb (lit 0.25) (score r) = true
  /\ PrimFloat.leb (score r) (lit 1) = true
  /\ (PrimFloat.eqb (score r) (lit 1) = true <-> analysis_flags r = [])
  /\ NoDup (analysis_flags r)
  /\ (List.length (analysis_flags r) <= 5)%nat.
Proof.
  cbv zeta. split_analysis a;
    (split; [vm_compute; reflexivity|]);
    (split; [vm_compute; reflexivity|]);
    (split; [vm_compute; reflexivity|]);
    (split; [split; intro E;
             first [ discriminate E
                   | vm_compute in E; discriminate E
                   | vm_compute; reflexivity ]|]);
    (split; [|cbn; lia]);
    repeat (constructor; [cbn; intuition discriminate|]); constructor.
Qed.

(* ------------------------------------------------------------------ *)
(** ** More on claim extraction *)

Section ExtractionFacts.
Variable nlp_sentences : string -> list string.
Local Open Scope nat_scope.

Lemma extractClaims_map_fold (date : Timestamp) (a : NewsArticle)
    (sentences : list string) (acc : list Claim) :
  fold_left
    (fun claims sentence =>
       let hasClaimIndicator :=
         existsb
           (fun indicator => includes (toLowerCase sentence) indicator)
           claimIndicators in
       let hasNumbers := test false (RRep 1 (RClass class_d)) sentence in
       if hasClaimIndicator || hasNumbers then
         (claims ++ [ {| text := sentence;
                         context := getContext sentence (content a) 100;
                         article := a;
                         extractedAt := date |} ])%list
       else claims)
    sentences acc
  = (acc ++ map (fun sentence =>
                   {| text := sentence;
                      context := getContext sentence (content a) 100;
                      article := a;
                      extractedAt := date |})
                (filter looksLikeClaim sentences))%list.
Proof.
  revert acc. induction sentences as [|sentence sentences IH]; intro acc;
    cbn [fold_left filter map].
  - now rewrite app_nil_r.
  - rewrite IH. cbv zeta. fold (looksLikeClaim sentence).
    destruct (looksLikeClaim sentence); [|reflexivity].
    cbn [map]. now rewrite <- app_assoc.
Qed.

(** The claims are the selected sentences, each wrapped with its context. *)
Lemma extractClaims_map (date : Timestamp) (a : NewsArticle) :
  extractClaims nlp_sentences date a
  = map (fun sentence =>
           {| text := sentence;
              context := getContext sentence (content a) 100;
              article := a;
              extractedAt := date |})
        (filter looksLikeClaim (nlp_sentences (content a))).
Proof. unfold extractClaims. now rewrite extractClaims_map_fold. Qed.

Lemma looksLikeClaim_eq (sentence : string) :
  looksLikeClaim sentence
  = contains_any (toLowerCase sentence) claimIndicators
    || any_char class_d sentence.
Proof. unfold looksLikeClaim. now rewrite test_digits. Qed.

(** X5: [extractClaims] keeps, in the order of the text, exactly the
    sentences that contain a claim indicator (in any letter case) or a
    digit; each claim refers to the article, carries the time of the
    call, and has the context window of 100 characters around its
    sentence; there are no more claims than sentences. *)
Theorem extractClaims_selects (date : Timestamp) (a : NewsArticle) :
  let claims := extractClaims nlp_sentences date a in
  map text claims
  = filter (fun sentence =>
              contains_any (toLowerCase sentence) claimIndicators
              || any_char class_d sentence)
           (nlp_sentences (content a))
  /\ Forall (fun c =>
               article c = a /\ extractedAt c = date
               /\ context c = getContext (text c) (content a) 100)
            claims
  /\ List.length claims <= List.length (nlp_sentences (content a)).
Proof.
  cbv zeta. rewrite extractClaims_map. split; [|split].
  - rewrite map_map. cbn [text]. rewrite map_id.
    apply filter_ext. exact looksLikeClaim_eq.
  - apply Forall_forall. intros c Hc. apply in_map_iff in Hc.
    destruct Hc as (sentence & <- & _). cbn [article extractedAt context text].
    repeat split.
  - rewrite length_map. apply filter_length_le.
Qed.

End ExtractionFacts.

(* ------------------------------------------------------------------ *)
(** ** More on the heuristic variant *)

(** X6: what the heuristic variant can return.  In any arithmetic the
    verdict is TRUE exactly when a verification phrase occurs, FALSE
    exactly when a conspiracy phrase occurs without one, UNVERIFIED
    otherwise, and never MIXED or UNKNOWN: the unsourced-statistics rule
    does not touch the verdict.  In binary64 the confidence is 0.7 for a
    verification phrase, or 0.7 - 0.2 when the statistics rule fires as
    well, which is just below 0.5; it is 0.3 for a conspiracy phrase
    without a verification phrase; otherwise it is 0.5, or 0.3 when the
    statistics rule fires.  It lies between 0.3 and 0.7, and it is 0.7
    only with verdict TRUE. *)
Theorem heuristic_outcomes (date : Timestamp) (claim : Claim) :
  (forall (N : Type) (num : Number N),
      let r := heuristicFactCheck (N:=N) date claim in
      (verdict r = TRUE <-> hasVerification claim = true)
      /\ (verdict r = FALSE
          <-> hasRedFlags claim = true /\ hasVerification claim = false)
      /\ (verdict r = UNVERIFIED
          <-> hasRedFlags claim = false /\ hasVerification claim = false)
      /\ verdict r <> MIXED /\ verdict r <> UNKNOWN)
  /\ (let r := heuristicFactCheck (N:=float) date claim in
      confidence r
      = (if hasVerification claim
         then (if unsourcedStatistics claim
               then (lit 0.7 - lit 0.2)%js else lit 0.7)
         else if hasRedFlags claim then lit 0.3
         else (if unsourcedStatistics claim then lit 0.3 else lit 0.5))
      /\ PrimFloat.ltb (lit 0.7 - lit 0.2)%js (lit 0.5) = true
      /\ PrimFloat.leb (lit 0.3) (confidence r) = true
      /\ PrimFloat.leb (confidence r) (lit 0.7) = true
      /\ (PrimFloat.eqb (confidence r) (lit 0.7) = true -> verdict r = TRUE)).
Proof.
  split.
  - intros N num. cbv zeta. rewrite !heuristicFactCheck_eq. cbn [verdict].
    destruct (hasVerification claim), (hasRedFlags claim);
      (split; [split; intro E; try reflexivity; discriminate E|]);
      (split; [split; [intro E; try discriminate E; now split
                      | intros [E1 E2]; try discriminate E1;
                        try discriminate E2; reflexivity]|]);
      (split; [split; [intro E; try discriminate E; now split
                      | intros [E1 E2]; try discriminate E1;
                        try discriminate E2; reflexivity]|]);
      split; discriminate.
  - cbv zeta. rewrite !heuristicFactCheck_eq. cbn [verdict confidence].
    destruct (hasVerification claim), (hasRedFlags claim),
      (unsourcedStatistics claim);
      (split; [vm_compute; reflexivity|]);
      (split; [vm_compute; reflexivity|]);
      (split; [vm_compute; reflexivity|]);
      (split; [vm_compute; reflexivity|]);
      intro E; first [reflexivity | vm_compute in E; discriminate E].
Qed.

Lemma heuristic_outcomes_witness :
  let claim :=
    claim_of_text "An official statement puts the cost at 40 million" in
  hasVerification claim = true
  /\ verdict (heuristicFactCheck (N:=float) 0 claim) = TRUE
  /\ PrimFloat.eqb (confidence (heuristicFactCheck (N:=float) 0 claim))
       (lit 0.7) = false.
Proof.
  cbv zeta. split; [reflexivity|]. split; [|vm_compute; reflexivity].
  destruct (heuristic_outcomes 0
              (claim_of_text
                 "An official statement puts the cost at 40 million"))
    as [Hverdict _].
  exact (proj2 (proj1 (Hverdict float float_Number)) eq_refl).
Defined.

(** X7: "study published" carries its own citation.  A claim that
    contains "study published" has the word "study", which the source
    test accepts, so the unsourced-statistics rule never fires on it: the
    result is verdict TRUE with confidence 0.7 whatever numbers the text
    holds. *)
Theorem study_published_is_sourced (N : Type) (num : Number N)
    (date : Timestamp) (claim : Claim)
    (Hstudy : includes (toLowerCase (text claim)) "study published" = true) :
  unsourcedStatistics claim = false
  /\ verdict (heuristicFactCheck (N:=N) date claim) = TRUE
  /\ confidence (heuristicFactCheck (N:=N) date claim) = lit 0.7.
Proof.
  assert (unsourcedStatistics claim = false) as Hno.
  { unfold unsourcedStatistics. rewrite test_citation.
    unfold contains_any. cbn [existsb].
    rewrite (includes_app_part (toLowerCase (text claim))
               "" "study" " published" Hstudy).
    rewrite !orb_true_r. apply andb_false_r. }
  assert (hasVerification claim = true) as Hver.
  { unfold hasVerification, verificationIndicators. cbn [existsb].
    now rewrite Hstudy. }
  rewrite heuristicFactCheck_eq. cbn [verdict confidence].
  now rewrite Hno, Hver.
Qed.

Lemma study_published_is_sourced_witness :
  let claim :=
    claim_of_text "A study published today found 40% of people agree" in
  includes (toLowerCase (text claim)) "study published" = true
  /\ confidence (heuristicFactCheck (N:=Q) 0 claim) = 0.7.
Proof.
  cbv zeta. split; [reflexivity|].
  exact (proj2 (proj2 (@study_published_is_sourced Q Q_Number 0
    (claim_of_text "A study published today found 40% of people agree")
    eq_refl))).
Defined.

(* ------------------------------------------------------------------ *)
(** ** More on the score combiner *)

(** X8: what one heuristic result adds to the score, in binary64.  With
    a single heuristic result the combined score is the stylistic score
    times 0.4 plus 0.6 times: 0.7 for a claim with a verification phrase
    (0.7 - 0.2 when the statistics rule fires), 0.7 for a claim with a
    conspiracy phrase and no verification phrase, whose verdict FALSE at
    confidence 0.3 is turned into 1 - 0.3, and 0.5 for a claim with
    neither (0.3 when the statistics rule fires).  A conspiracy phrase
    thus raises the score as much as a verification phrase does. *)
Theorem heuristic_contribution (s : float) (date : Timestamp)
    (claim : Claim) :
  calculateOverallScore s [heuristicFactCheck (N:=float) date claim]
  = (s * lit 0.4
     + (if hasVerification claim
        then (if unsourcedStatistics claim
              then lit 0.7 - lit 0.2 else lit 0.7)
        else if hasRedFlags claim then lit 0.7
        else (if unsourcedStatistics claim then lit 0.3 else lit 0.5))
       * lit 0.6)%js.
Proof.
  rewrite heuristicFactCheck_eq. unfold calculateOverallScore.
  cbn [List.length Nat.eqb fold_left verdict confidence].
  cbn [n_add n_mul float_Number]. f_equal.
  destruct (hasVerification claim), (hasRedFlags claim),
    (unsourcedStatistics claim); vm_compute; reflexivity.
Qed.

Section CombinerFacts.
Context {N : Type} {num : Number N}.

Lemma sum_agrees (rs rs' : list (FactCheckResult N)) :
  Forall2 (fun r r' =>
             verdict r = verdict r'
             /\ (verdict r = MIXED \/ confidence r = confidence r'))
          rs rs' ->
  forall acc : N,
    fold_left
      (fun sum result =>
         let score := confidence result in
         let score :=
           if Verdict_eqb (verdict result) FALSE then (lit 1 - score)%js
           else if Verdict_eqb (verdict result) MIXED then lit 0.5
           else score in
         (sum + score)%js) rs acc
    = fold_left
        (fun sum result =>
           let score := confidence result in
           let score :=
             if Verdict_eqb (verdict result) FALSE then (lit 1 - score)%js
             else if Verdict_eqb (verdict result) MIXED then lit 0.5
             else score in
           (sum + score)%js) rs' acc.
Proof.
  induction 1 as [|r r' rs rs' [Hv Hc] _ IH]; intro acc; cbn [fold_left];
    [reflexivity|].
  rewrite IH. f_equal. cbv zeta. rewrite <- Hv.
  destruct Hc as [Hm | Hc]; [now rewrite Hm | now rewrite Hc].
Qed.

Lemma score_agrees (s : N) (rs rs' : list (FactCheckResult N)) :
  Forall2 (fun r r' =>
             verdict r = verdict r'
             /\ (verdict r = MIXED \/ confidence r = confidence r'))
          rs rs' ->
  calculateOverallScore s rs = calculateOverallScore s rs'.
Proof.
  intro Hall. unfold calculateOverallScore.
  rewrite <- (Forall2_length Hall), (sum_agrees Hall). reflexivity.
Qed.

End CombinerFacts.

(** X9: what the combiner reads.  In any arithmetic, two lists of
    results whose verdicts agree position by position, and whose
    confidences agree wherever the verdict is not MIXED, get the same
    combined score: claim, sources, explanation and time of a result are
    not read, and neither is the confidence of a MIXED result.  The order
    of the results is read: in binary64, with stylistic score 0.7, three
    TRUE results with confidences 0.1, 0.2, 0.3 get a strictly larger
    score than the same three results in reverse order. *)
Theorem combiner_reads :
  (forall (N : Type) (num : Number N) (s : N)
          (rs rs' : list (FactCheckResult N)),
      Forall2 (fun r r' =>
                 verdict r = verdict r'
                 /\ (verdict r = MIXED \/ confidence r = confidence r'))
              rs rs' ->
      calculateOverallScore s rs = calculateOverallScore s rs')
  /\ (let rs := [result_of (N:=float) TRUE (lit 0.1);
                 result_of TRUE (lit 0.2); result_of TRUE (lit 0.3)] in
      PrimFloat.ltb (calculateOverallScore (lit 0.7) (rev rs))
                    (calculateOverallScore (lit 0.7) rs) = true).
Proof.
  split.
  - intros N num s rs rs' Hall. now apply score_agrees.
  - vm_compute. reflexivity.
Qed.

Lemma combiner_reads_witness :
  calculateOverallScore (N:=float) (lit 0.7)
    [result_of TRUE (lit 0.8); result_of MIXED (lit 0.1)]
  = calculateOverallScore (lit 0.7)
      [ {| claim := claim_of_text "Rates rose by 2% today.";
           verdict := TRUE; confidence := lit 0.8;
           sources := ["https://example.org/review"];
           explanation := "True"; checkedAt := 5%nat |};
        result_of MIXED (lit 0.9) ].
Proof.
  apply (proj1 combiner_reads float float_Number).
  constructor; [split; [reflexivity | right; reflexivity]|].
  constructor; [split; [reflexivity | left; reflexivity]|].
  constructor.
Defined.

(* ------------------------------------------------------------------ *)
(** ** The runs of the services as functions of the world *)

Section RunFacts.
Context {N : Type} {num : Number N}.
Variable nlp_sentences : string -> list string.
Local Open Scope nat_scope.

Lemma checkClaim_eq (this : FactChecker) (claim : Claim) (w : World) :
  checkClaim (N:=N) this claim w
  = (Returned (check_result this claim w), after_check this claim w).
Proof.
  rewrite checkClaim_run. f_equal. f_equal.
  unfold check_result, remote_result.
  destruct (key_configured this); [|reflexivity].
  rewrite checkWithGoogleFactCheck_run. cbn [fst].
  destruct (network w (clock w) (searchUrl this claim)) as [|data];
    [reflexivity|].
  destruct (firstReview data) as [review|]; [|reflexivity].
  destruct (textualRating review); reflexivity.
Qed.

Lemma checkClaims_loop_eq (this : FactChecker) (claims : list Claim) :
  forall (acc : list (FactCheckResult N)) (w : World),
    for_of claims
      (fun results claim =>
         try_catch
           (result <- checkClaim this claim ;;
            _ <- sleep 1000 ;;
            ret (results ++ [result])%list)
           (fun _ => ret results))
      acc w
    = (Returned (acc ++ check_results this claims w)%list,
       after_claims this claims w).
Proof.
  induction claims as [|claim claims IH]; intros acc w;
    cbn [for_of check_results after_claims].
  - now rewrite app_nil_r.
  - unfold bind at 1. unfold try_catch at 1. unfold bind at 1.
    rewrite checkClaim_eq. unfold bind at 1. cbn [sleep ret].
    fold (after_claim this claim w). rewrite IH.
    now rewrite <- app_assoc.
Qed.

Lemma checkClaims_eq (this : FactChecker) (claims : list Claim) (w : World) :
  checkClaims (N:=N) this claims w
  = (Returned (check_results this claims w), after_claims this claims w).
Proof. exact (checkClaims_loop_eq this claims [] w). Qed.

Lemma processArticle_eq (config : Config N) (a : NewsArticle) (w : World) :
  processArticle nlp_sentences config a w
  = (Returned (process_report nlp_sentences config a w),
     process_world nlp_sentences config a w).
Proof.
  unfold processArticle, processArticleWith, process_report, process_world.
  unfold try_catch, bind at 1, now.
  destruct (extractClaims nlp_sentences (clock w) a) as [|c cs] eqn:E;
    [reflexivity|].
  cbn [List.length Nat.eqb]. unfold bind at 1.
  rewrite checkClaims_eq. unfold bind, generateReportId, randomBytesHex, ret.
  reflexivity.
Qed.

Lemma monitoring_loop_eq (config : Config N) (articles : list NewsArticle) :
  forall (acc : list (MisinformationReport N)) (w : World),
    for_of articles
      (fun reports article =>
         try_catch
           (report <- processArticle nlp_sentences config article ;;
            match report with
            | Some report =>
                let reports := (reports ++ [report])%list in
                _ <- (if (overallScore report
                            <? minConfidenceThreshold config)%js
                      then storeReport report
                      else ret tt) ;;
                ret reports
            | None => ret reports
            end)
           (fun _ => ret reports))
      acc w
    = (Returned (acc ++ cycle_reports nlp_sentences config articles w)%list,
       cycle_world nlp_sentences config articles w).
Proof.
  induction articles as [|a articles IH]; intros acc w;
    cbn [for_of cycle_reports cycle_world].
  - now rewrite app_nil_r.
  - cbv zeta in IH |- *.
    unfold bind at 1. unfold try_catch at 1. unfold bind at 1.
    rewrite processArticle_eq. unfold after_article.
    destruct (process_report nlp_sentences config a w) as [r|].
    + unfold bind at 1. unfold store_if_low, below_threshold.
      destruct (overallScore r <? minConfidenceThreshold config)%js;
        cbn [storeReport ret]; rewrite IH; now rewrite <- app_assoc.
    + cbn [ret]. now rewrite IH.
Qed.

Lemma runMonitoringCycle_eq (config : Config N) (w : World) :
  runMonitoringCycle nlp_sentences config w
  = (Returned (cycle_reports nlp_sentences config
                 (feed w (newsRssFeeds config)) w),
     cycle_world nlp_sentences config (feed w (newsRssFeeds config)) w).
Proof.
  unfold runMonitoringCycle. unfold try_catch at 1. unfold bind at 1.
  unfold fetchFromRSS.
  destruct (feed w (newsRssFeeds config)) as [|a articles] eqn:E;
    [reflexivity|].
  cbn [List.length Nat.eqb].
  pose proof (monitoring_loop_eq config (a :: articles) [] w) as Hloop.
  cbv zeta in Hloop |- *. now rewrite Hloop.
Qed.

End RunFacts.

(* ------------------------------------------------------------------ *)
(** ** What a batch of checks leaves behind *)

Section CheckFacts.
Context {N : Type} {num : Number N}.
Local Open Scope nat_scope.

Lemma stored_ids_app (t u : list Event) :
  stored_ids (t ++ u) = (stored_ids t ++ stored_ids u)%list.
Proof. apply flat_map_app. Qed.

Lemma requests_app (t u : list Event) :
  requests (t ++ u) = (requests t ++ requests u)%list.
Proof. apply flat_map_app. Qed.

Lemma delays_app (t u : list Event) :
  delays (t ++ u) = (delays t ++ delays u)%list.
Proof. apply flat_map_app. Qed.

(** What one turn of the loop changes. *)
Lemma after_claim_fields (this : FactChecker) (claim : Claim) (w : World) :
  let w' := after_claim this claim w in
  clock w' = clock w + 1000
  /\ drawn w' = drawn w /\ entropy w' = entropy w
  /\ network w' = network w /\ feed w' = feed w
  /\ stored_ids (trace w') = stored_ids (trace w)
  /\ delays (trace w') = (delays (trace w) ++ [1000])%list
  /\ requests (trace w')
     = (requests (trace w)
        ++ if key_configured this then [searchUrl this claim] else [])%list.
Proof.
  unfold after_claim, after_check.
  destruct (key_configured this); cbn;
    rewrite ?stored_ids_app, ?delays_app, ?requests_app; cbn;
    rewrite ?app_nil_r; repeat split; reflexivity.
Qed.

Lemma after_claims_fields (this : FactChecker) (claims : list Claim) :
  forall w : World,
    let w' := after_claims this claims w in
    clock w' = clock w + 1000 * List.length claims
    /\ drawn w' = drawn w /\ entropy w' = entropy w
    /\ network w' = network w /\ feed w' = feed w
    /\ stored_ids (trace w') = stored_ids (trace w)
    /\ delays (trace w')
       = (delays (trace w) ++ repeat 1000 (List.length claims))%list
    /\ requests (trace w')
       = (requests (trace w)
          ++ if key_configured this then map (searchUrl this) claims
             else [])%list.
Proof.
  induction claims as [|claim claims IH]; intro w; cbn [after_claims].
  - cbn. rewrite !app_nil_r, Nat.add_0_r.
    destruct (key_configured this); rewrite ?app_nil_r; repeat split.
  - destruct (IH (after_claim this claim w))
      as (Hc & Hd & He & Hn & Hf & Hs & Hdel & Hreq).
    destruct (after_claim_fields this claim w)
      as (Hc1 & Hd1 & He1 & Hn1 & Hf1 & Hs1 & Hdel1 & Hreq1).
    cbv zeta. rewrite Hc, Hd, He, Hn, Hf, Hs, Hdel, Hreq,
      Hc1, Hd1, He1, Hn1, Hf1, Hs1, Hdel1, Hreq1.
    cbn [List.length repeat map].
    repeat split; try lia.
    + now rewrite <- app_assoc.
    + rewrite <- app_assoc. destruct (key_configured this); reflexivity.
Qed.

Lemma check_result_claim (this : FactChecker) (c : Claim) (w : World) :
  claim (check_result (N:=N) this c w) = c.
Proof.
  unfold check_result, remote_result.
  destruct (key_configured this);
    [|now rewrite heuristicFactCheck_eq].
  destruct (network w (clock w) (searchUrl this c)) as [|data];
    [now rewrite heuristicFactCheck_eq|].
  destruct (firstReview data) as [review|];
    [|now rewrite heuristicFactCheck_eq].
  destruct (textualRating review);
    [reflexivity | now rewrite heuristicFactCheck_eq].
Qed.

Lemma check_results_claims (this : FactChecker) (claims : list Claim) :
  forall w : World, map (@claim N) (check_results this claims w) = claims.
Proof.
  induction claims as [|c claims IH]; intro w; cbn [check_results map].
  - reflexivity.
  - now rewrite check_result_claim, IH.
Qed.

End CheckFacts.

(** X10: [checkClaims] raises nothing and returns exactly one result per
    claim, in the order of the claims: the result at each position is
    about the claim at that position. *)
Theorem checkClaims_in_order (N : Type) (num : Number N)
    (this : FactChecker) (claims : list Claim) (w : World) :
  exists (results : list (FactCheckResult N)) (w' : World),
    checkClaims this claims w = (Returned results, w')
    /\ map (@claim N) results = claims
    /\ List.length results = List.length claims.
Proof.
  rewrite checkClaims_eq. eexists; eexists. split; [reflexivity|].
  pose proof (check_results_claims (N:=N) this claims w) as Hmap.
  split; [exact Hmap|]. now rewrite <- Hmap at 2; rewrite length_map.
Qed.


(* ------------------------------------------------------------------ *)
(** ** The remote variant *)

(** X12: when a credential is configured and the reply holds a rated
    review, [checkClaim] returns the remote result and does not consult
    the heuristic: the verdict is the normalized rating of the first
    review of the first claim (further claims and reviews are ignored),
    the confidence is 0.8, the only source is the review's URL and the
    explanation is the rating as written; one request was sent. *)
Theorem remote_verdict_used (N : Type) (num : Number N)
    (this : FactChecker) (c : Claim) (w : World)
    (first : ApiClaim) (others : list ApiClaim)
    (review : ClaimReview) (more : list ClaimReview) (rating : string)
    (Hkey : key_configured this = true)
    (Hreply : network w (clock w) (searchUrl this c)
              = HttpOk {| api_claims := Some (first :: others) |})
    (Hreview : claimReview first = Some (review :: more))
    (Hrating : textualRating review = Some rating) :
  checkClaim (N:=N) this c w
  = (Returned {| claim := c;
                 verdict := normalizeVerdict rating;
                 confidence := lit 0.8;
                 sources := [review_url review];
                 explanation := rating;
                 checkedAt := clock w |},
     emit (HttpGet (searchUrl this c)) w).
Proof.
  rewrite checkClaim_eq. unfold check_result, remote_result, after_check.
  rewrite Hkey, Hreply. unfold firstReview. cbn [api_claims].
  now rewrite Hreview, Hrating.
Qed.

Lemma remote_verdict_used_witness :
  let w := online_world "Mostly False" "https://example.org/review" [] in
  let c := claim_of_text "The moon is made of cheese" in
  key_configured keyed_checker = true
  /\ fst (checkClaim (N:=Q) keyed_checker c w)
     = Returned {| claim := c; verdict := FALSE; confidence := 0.8;
                   sources := ["https://example.org/review"];
                   explanation := "Mostly False"; checkedAt := 1000 |}.
Proof.
  cbv zeta. split; [reflexivity|].
  rewrite (@remote_verdict_used Q Q_Number keyed_checker
             (claim_of_text "The moon is made of cheese")
             (online_world "Mostly False" "https://example.org/review" [])
             _ [] _ [] "Mostly False" eq_refl eq_refl eq_refl eq_refl).
  reflexivity.
Defined.

(* ------------------------------------------------------------------ *)
(** ** Reports and cycles *)

Section CycleFacts.
Context {N : Type} {num : Number N}.
Variable nlp_sentences : string -> list string.
Local Open Scope nat_scope.

(** What one turn of the loop of [runMonitoringCycle] does. *)
Lemma after_article_fields (config : Config N) (a : NewsArticle)
    (w : World) :
  match process_report nlp_sentences config a w with
  | None =>
      after_article nlp_sentences config a w = w
      /\ has_claims nlp_sentences a = false
  | Some r =>
      let w' := after_article nlp_sentences config a w in
      report_article r = a
      /\ has_claims nlp_sentences a = true
      /\ claims r = extractClaims nlp_sentences (clock w) a
      /\ claims r <> []
      /\ map (@claim N) (factCheckResults r) = claims r
      /\ report_id r = entropy w (drawn w)
      /\ createdAt r = clock w + 1000 * List.length (claims r)
      /\ clock w' = createdAt r
      /\ drawn w' = S (drawn w)
      /\ entropy w' = entropy w /\ network w' = network w
      /\ feed w' = feed w
      /\ stored_ids (trace w')
         = (stored_ids (trace w)
            ++ if below_threshold config r then [report_id r] else [])%list
  end.
Proof.
  unfold after_article, process_report, process_world.
  destruct (extractClaims nlp_sentences (clock w) a) as [|c cs] eqn:E.
  - split; [reflexivity|].
    now apply (has_claims_false nlp_sentences (clock w)).
  - cbv zeta.
    destruct (after_claims_fields (factChecker config) (c :: cs) w)
      as (Hc & Hd & He & Hn & Hf & Hs & _ & _).
    cbv zeta in Hc, Hd, He, Hn, Hf, Hs.
    remember (after_claims (factChecker config) (c :: cs) w) as w1 eqn:Hw1.
    remember (check_results (N:=N) (factChecker config) (c :: cs) w)
      as results eqn:Hresults.
    cbn [report_article claims factCheckResults report_id createdAt].
    split; [reflexivity|]. split.
    { destruct (has_claims nlp_sentences a) eqn:Hhas; [reflexivity|].
      apply (has_claims_false nlp_sentences (clock w)) in Hhas.
      rewrite Hhas in E. discriminate E. }
    split; [reflexivity|]. split; [discriminate|].
    split; [rewrite Hresults; apply check_results_claims|].
    split; [now rewrite He, Hd|]. split; [exact Hc|].
    unfold store_if_low.
    destruct (below_threshold config _);
      cbn [clock drawn entropy network feed trace draw emit
           report_id];
      rewrite ?stored_ids_app, Hs; cbn [stored_ids flat_map app];
      rewrite ?app_nil_r, ?He, ?Hd; repeat split; assumption.
Qed.

Lemma cycle_fields (config : Config N) (articles : list NewsArticle) :
  forall w : World,
    let rs := cycle_reports nlp_sentences config articles w in
    let w' := cycle_world nlp_sentences config articles w in
    map (@report_article N) rs
    = filter (has_claims nlp_sentences) articles
    /\ map (@report_id N) rs
       = map (entropy w) (seq (drawn w) (List.length rs))
    /\ drawn w' = drawn w + List.length rs
    /\ clock w'
       = clock w
         + 1000 * list_sum (map (fun r => List.length (claims r)) rs)
    /\ entropy w' = entropy w /\ network w' = network w
    /\ feed w' = feed w
    /\ stored_ids (trace w')
       = (stored_ids (trace w)
          ++ map (@report_id N) (filter (below_threshold config) rs))%list
    /\ Forall (fun r => claims r <> []
                        /\ map (@claim N) (factCheckResults r) = claims r) rs.
Proof.
  induction articles as [|a articles IH]; intro w;
    cbn [cycle_reports cycle_world filter].
  - cbn. rewrite app_nil_r. repeat split; try lia. constructor.
  - pose proof (after_article_fields config a w) as Hstep.
    destruct (process_report nlp_sentences config a w) as [r|].
    + cbv zeta in Hstep.
      destruct Hstep as (Ha & Hhas & _ & Hne & Hcl & Hid & Hat & Hc & Hd
                         & He & Hn & Hf & Hs).
      destruct (IH (after_article nlp_sentences config a w))
        as (IHa & IHid & IHd & IHc & IHe & IHn & IHf & IHs & IHall).
      cbv zeta in IHa, IHid, IHd, IHc, IHe, IHn, IHf, IHs, IHall |- *.
      rewrite Hhas.
      remember (after_article nlp_sentences config a w) as wa eqn:Hwa.
      remember (cycle_reports nlp_sentences config articles wa)
        as rs eqn:Hrs.
      remember (cycle_world nlp_sentences config articles wa)
        as w' eqn:Hw'.
      cbn [map List.length seq list_sum fold_right filter].
      split; [now rewrite Ha, IHa|].
      split; [now rewrite Hid, IHid, He, Hd|].
      split; [rewrite IHd, Hd; lia|].
      split; [rewrite IHc, Hc, Hat; unfold list_sum; lia|].
      split; [now rewrite IHe|].
      split; [now rewrite IHn|].
      split; [now rewrite IHf|].
      split.
      * rewrite IHs, Hs.
        destruct (below_threshold config r); cbn [map];
          rewrite <- ?app_assoc; cbn [app]; rewrite ?app_nil_r; reflexivity.
      * constructor; [now split | exact IHall].
    + destruct Hstep as (Hw & Hhas). rewrite Hhas, Hw. apply IH.
Qed.

End CycleFacts.

(** X13: the report of an article.  When claims are extracted,
    [processArticle] returns a report about that article with exactly
    those claims and one fact-check result per claim, in order; its
    identifier is the next output of the random source; it is stamped
    after the last delay, at least one second per claim after the
    start, and not after the call returns. *)
Theorem report_structure (N : Type) (num : Number N)
    (nlp_sentences : string -> list string) (config : Config N)
    (a : NewsArticle) (w : World)
    (Hclaims : extractClaims nlp_sentences (clock w) a <> []) :
  exists (r : MisinformationReport N) (w' : World),
    processArticle nlp_sentences config a w = (Returned (Some r), w')
    /\ report_article r = a
    /\ claims r = extractClaims nlp_sentences (clock w) a
    /\ map (@claim N) (factCheckResults r) = claims r
    /\ report_id r = entropy w (drawn w)
    /\ drawn w' = S (drawn w)
    /\ (clock w + 1000 * List.length (claims r) <= createdAt r)%nat
    /\ (createdAt r <= clock w')%nat.
Proof.
  rewrite processArticle_eq.
  pose proof (after_article_fields nlp_sentences config a w) as Hstep.
  unfold after_article in Hstep.
  destruct (process_report nlp_sentences config a w) as [r|] eqn:Hr.
  - cbv zeta in Hstep.
    destruct Hstep as (Ha & _ & Hcl & _ & Hres & Hid & Hat & Hc & Hd & _).
    exists r, (process_world nlp_sentences config a w).
    split; [reflexivity|].
    assert (clock (process_world nlp_sentences config a w) = createdAt r
            /\ drawn (process_world nlp_sentences config a w) = S (drawn w))
      as [Hc' Hd'].
    { unfold store_if_low in Hc, Hd.
      destruct (below_threshold config r); cbn in Hc, Hd; now split. }
    rewrite Hc', Hat.
    repeat split; try assumption; apply Nat.le_refl.
  - exfalso. unfold process_report in Hr.
    destruct (extractClaims nlp_sentences (clock w) a);
      [now elim Hclaims | discriminate Hr].
Qed.

Lemma report_structure_witness :
  extractClaims one_sentence (clock offline_world) sample_article <> []
  /\ exists r w',
       processArticle one_sentence no_key_config sample_article offline_world
       = (Returned (Some r), w')
       /\ (clock offline_world + 1000 <= createdAt r)%nat.
Proof.
  assert (extractClaims one_sentence (clock offline_world) sample_article
          <> []) as Hclaims by (vm_compute; discriminate).
  split; [exact Hclaims|].
  destruct (@report_structure Q Q_Number one_sentence no_key_config
              sample_article offline_world Hclaims)
    as (r & w' & Hrun & _ & Hcl & _ & _ & _ & Hat & _).
  exists r, w'. split; [exact Hrun|].
  rewrite Hcl in Hat. exact Hat.
Defined.

(** X14: a monitoring cycle raises nothing and returns exactly one report
    per fetched article that has claims, in the order of the feed,
    whatever the scores; every report has claims and one fact-check
    result per claim; the cycle leaves the feed and the network as they
    were. *)
Theorem cycle_reports_articles (N : Type) (num : Number N)
    (nlp_sentences : string -> list string) (config : Config N) (w : World) :
  exists (reports : list (MisinformationReport N)) (w' : World),
    runMonitoringCycle nlp_sentences config w = (Returned reports, w')
    /\ map (@report_article N) reports
       = filter (has_claims nlp_sentences) (feed w (newsRssFeeds config))
    /\ (List.length reports
        <= List.length (feed w (newsRssFeeds config)))%nat
    /\ Forall (fun r => claims r <> []
                        /\ map (@claim N) (factCheckResults r) = claims r)
              reports
    /\ feed w' = feed w /\ network w' = network w.
Proof.
  rewrite runMonitoringCycle_eq. eexists; eexists. split; [reflexivity|].
  destruct (cycle_fields nlp_sentences config (feed w (newsRssFeeds config)) w)
    as (Ha & _ & _ & _ & _ & Hn & Hf & _ & Hall).
  cbv zeta in Ha, Hn, Hf, Hall.
  split; [exact Ha|]. split.
  - rewrite <- (length_map (@report_article N)), Ha. apply filter_length_le.
  - repeat split; assumption.
Qed.

(** X15: what a cycle stores.  The reports a monitoring cycle hands to
    storage are exactly the returned reports whose overall score is below
    the configured threshold, once each and in the order of the reports;
    a report at or above the threshold is returned but not stored. *)
Theorem cycle_stores_low_scores (N : Type) (num : Number N)
    (nlp_sentences : string -> list string) (config : Config N) (w : World) :
  exists (reports : list (MisinformationReport N)) (w' : World),
    runMonitoringCycle nlp_sentences config w = (Returned reports, w')
    /\ stored_ids (trace w')
       = (stored_ids (trace w)
          ++ map (@report_id N)
               (filter (fun r => (overallScore r
                                  <? minConfidenceThreshold config)%js)
                       reports))%list.
Proof.
  rewrite runMonitoringCycle_eq. eexists; eexists. split; [reflexivity|].
  destruct (cycle_fields nlp_sentences config (feed w (newsRssFeeds config)) w)
    as (_ & _ & _ & _ & _ & _ & _ & Hs & _).
  exact Hs.
Qed.

Lemma NoDup_map_injective (A B : Type) (f : A -> B) (l : list A) :
  (forall x y, f x = f y -> x = y) -> NoDup l -> NoDup (map f l).
Proof.
  intros Hinj Hl. induction Hl as [|x l Hx _ IH]; cbn [map]; constructor.
  - intro Hin. apply in_map_iff in Hin. destruct Hin as (y & E & Hy).
    apply Hinj in E. subst y. contradiction.
  - exact IH.
Qed.

(** X16: identifiers and duration of a cycle.  The identifiers of the
    reports of a cycle are the successive outputs of the random source,
    one per report, so they are pairwise distinct when the source does
    not repeat itself; and the cycle lasts at least one second per claim
    of the reports it returns. *)
Theorem cycle_ids_and_time (N : Type) (num : Number N)
    (nlp_sentences : string -> list string) (config : Config N) (w : World) :
  exists (reports : list (MisinformationReport N)) (w' : World),
    runMonitoringCycle nlp_sentences config w = (Returned reports, w')
    /\ map (@report_id N) reports
       = map (entropy w) (seq (drawn w) (List.length reports))
    /\ drawn w' = (drawn w + List.length reports)%nat
    /\ (clock w
        + 1000 * list_sum (map (fun r => List.length (claims r)) reports)
        <= clock w')%nat
    /\ ((forall i j, entropy w i = entropy w j -> i = j) ->
        NoDup (map (@report_id N) reports)).
Proof.
  rewrite runMonitoringCycle_eq. eexists; eexists. split; [reflexivity|].
  destruct (cycle_fields nlp_sentences config (feed w (newsRssFeeds config)) w)
    as (_ & Hid & Hd & Hc & _).
  cbv zeta in Hid, Hd, Hc.
  split; [exact Hid|]. split; [exact Hd|].
  split; [rewrite Hc; apply Nat.le_refl|].
  intro Hinj. rewrite Hid.
  apply NoDup_map_injective; [exact Hinj | apply seq_NoDup].
Qed.

Lemma stars_length (n : nat) : String.length (stars n) = n.
Proof. induction n as [|n IH]; cbn; [reflexivity | now rewrite IH]. Qed.

Lemma cycle_ids_and_time_witness :
  let w := online_world "False" "https://example.org/review"
             [sample_article; quiet_article; sample_article] in
  (forall i j, entropy w i = entropy w j -> i = j)
  /\ exists reports w',
       runMonitoringCycle one_sentence keyed_config w = (Returned reports, w')
       /\ map (@report_id Q) reports = [""; "*"]
       /\ NoDup (map (@report_id Q) reports).
Proof.
  cbv zeta.
  assert (forall i j,
            entropy (online_world "False" "https://example.org/review"
                       [sample_article; quiet_article; sample_article]) i
            = entropy (online_world "False" "https://example.org/review"
                         [sample_article; quiet_article; sample_article]) j ->
            i = j) as Hinj.
  { cbn [entropy online_world]. intros i j E.
    rewrite <- (stars_length i), <- (stars_length j). now rewrite E. }
  split; [exact Hinj|].
  destruct (@cycle_ids_and_time Q Q_Number one_sentence keyed_config
              (online_world "False" "https://example.org/review"
                 [sample_article; quiet_article; sample_article]))
    as (reports & w' & Hrun & Hid & _ & _ & Hnodup).
  exists reports, w'. split; [exact Hrun|]. split; [|exact (Hnodup Hinj)].
  rewrite Hid.
  assert (List.length reports = 2%nat) as ->.
  { vm_compute in Hrun. injection Hrun as <- _. reflexivity. }
  reflexivity.
Defined.

(* ------------------------------------------------------------------ *)
(** ** The summary printed by the command line *)

Section SummaryFacts.
Context {N : Type} {num : Number N}.
Local Open Scope nat_scope.

Lemma Verdict_eqb_eq (a b : Verdict) : Verdict_eqb a b = true <-> a = b.
Proof. destruct a, b; cbn; split; intro E; try reflexivity; discriminate E. Qed.

Lemma Verdict_eqb_refl (a : Verdict) : Verdict_eqb a a = true.
Proof. now destruct a. Qed.

Lemma lookup_bump_same (v : Verdict) (acc : list (Verdict * nat)) :
  lookup v (bump v acc)
  = Some (match lookup v acc with Some n => n + 1 | None => 1 end).
Proof.
  induction acc as [|[k n] acc IH]; cbn [bump lookup].
  - now rewrite Verdict_eqb_refl.
  - destruct (Verdict_eqb k v) eqn:E; cbn [lookup]; rewrite E;
      [reflexivity | exact IH].
Qed.

Lemma lookup_bump_other (u v : Verdict) (acc : list (Verdict * nat)) :
  u <> v -> lookup u (bump v acc) = lookup u acc.
Proof.
  intro Hne. induction acc as [|[k n] acc IH]; cbn [bump lookup].
  - destruct (Verdict_eqb v u) eqn:E; [|reflexivity].
    apply Verdict_eqb_eq in E. now elim Hne.
  - destruct (Verdict_eqb k v) eqn:E; cbn [lookup]; [|now rewrite IH].
    apply Verdict_eqb_eq in E. subst k.
    destruct (Verdict_eqb v u) eqn:E; [|reflexivity].
    apply Verdict_eqb_eq in E. now elim Hne.
Qed.

Lemma sum_bump (v : Verdict) (acc : list (Verdict * nat)) :
  list_sum (map snd (bump v acc)) = S (list_sum (map snd acc)).
Proof.
  induction acc as [|[k n] acc IH]; cbn [bump]; [reflexivity|].
  destruct (Verdict_eqb k v); cbn [map snd list_sum fold_right] in *;
    unfold list_sum in *; lia.
Qed.

Lemma keys_bump (v : Verdict) (acc : list (Verdict * nat)) :
  map fst (bump v acc)
  = (map fst acc
     ++ match lookup v acc with Some _ => [] | None => [v] end)%list.
Proof.
  induction acc as [|[k n] acc IH]; cbn [bump lookup map fst app];
    [reflexivity|].
  destruct (Verdict_eqb k v); cbn [map fst].
  - now rewrite app_nil_r.
  - now rewrite IH.
Qed.

Lemma lookup_None (v : Verdict) (acc : list (Verdict * nat)) :
  lookup v acc = None <-> ~ In v (map fst acc).
Proof.
  induction acc as [|[k n] acc IH]; cbn [lookup map fst In].
  - split; [intros _ [] | reflexivity].
  - destruct (Verdict_eqb k v) eqn:E.
    + apply Verdict_eqb_eq in E. split; [discriminate|].
      intro H. elim H. now left.
    + rewrite IH. split.
      * intros H [<-|Hin]; [now rewrite Verdict_eqb_refl in E | now elim H].
      * intros H Hin. apply H. now right.
Qed.

Lemma keys_bump_NoDup (v : Verdict) (acc : list (Verdict * nat)) :
  NoDup (map fst acc) -> NoDup (map fst (bump v acc)).
Proof.
  intro Hnd. rewrite keys_bump.
  destruct (lookup v acc) eqn:E; [now rewrite app_nil_r|].
  apply lookup_None in E.
  apply NoDup_app; [exact Hnd | repeat constructor; intros [] |].
  intros x Hx [<-|[]]. contradiction.
Qed.

Lemma verdicts_fold (rs : list (FactCheckResult N)) :
  forall acc : list (Verdict * nat),
    let out := fold_left (fun acc result => bump (verdict result) acc)
                 rs acc in
    (forall v,
        lookup v out
        = match lookup v acc with
          | Some n => Some (n + tally v rs)
          | None => if tally v rs =? 0 then None else Some (tally v rs)
          end)
    /\ list_sum (map snd out) = list_sum (map snd acc) + List.length rs
    /\ (NoDup (map fst acc) -> NoDup (map fst out)).
Proof.
  induction rs as [|r rs IH]; intro acc; cbn [fold_left].
  - cbv zeta. unfold tally. cbn [filter List.length Nat.eqb].
    split; [|split; [lia | trivial]].
    intro v. destruct (lookup v acc); [f_equal; lia | reflexivity].
  - destruct (IH (bump (verdict r) acc)) as (Hl & Hs & Hn).
    cbv zeta in *. split; [|split].
    + intro v. rewrite Hl. unfold tally. cbn [filter].
      destruct (Verdict_eqb (verdict r) v) eqn:E.
      * apply Verdict_eqb_eq in E. subst v. rewrite lookup_bump_same.
        cbn [List.length].
        destruct (lookup (verdict r) acc); cbn [Nat.eqb]; f_equal; lia.
      * rewrite lookup_bump_other; [reflexivity|].
        intros ->. now rewrite Verdict_eqb_refl in E.
    + rewrite Hs, sum_bump. cbn [List.length]. lia.
    + intro Hnd. apply Hn, keys_bump_NoDup, Hnd.
Qed.

End SummaryFacts.

(** X18: the verdict summary of the command line.  The object built from
    the fact-check results of a report holds, for each verdict that occurs,
    the number of results with that verdict, and no entry for a verdict
    that does not occur; each verdict is a key at most once, the counts
    add up to the number of results, and the object is empty exactly when
    there are no results. *)
Theorem verdict_summary (N : Type) (num : Number N)
    (rs : list (FactCheckResult N)) :
  (forall v : Verdict,
      lookup v (verdicts rs)
      = if (tally v rs =? 0)%nat then None else Some (tally v rs))
  /\ list_sum (map snd (verdicts rs)) = List.length rs
  /\ NoDup (map fst (verdicts rs))
  /\ (verdicts rs = [] <-> rs = []).
Proof.
  destruct (verdicts_fold rs []) as (Hl & Hs & Hn). cbv zeta in *.
  split; [exact Hl|]. split; [exact Hs|]. split; [apply Hn; constructor|].
  fold (verdicts rs) in Hs. split.
  - intro E. rewrite E in Hs. cbn in Hs.
    destruct rs; [reflexivity | discriminate Hs].
  - intros ->. reflexivity.
Qed.

(** X19: the summary of a single check.  In any arithmetic, the number
    the command line prints as flagged for review is the number of
    reports the cycle it ran handed to storage, and it is at most the
    number of reports it prints as the total. *)
Theorem single_check_summary (N : Type) (num : Number N)
    (nlp_sentences : string -> list string) (config : Config N) (w : World) :
  exists (reports : list (MisinformationReport N)) (w' : World),
    runMonitoringCycle nlp_sentences config w = (Returned reports, w')
    /\ List.length (stored_ids (trace w'))
       = (List.length (stored_ids (trace w)) + flaggedCount config reports)%nat
    /\ (flaggedCount config reports <= List.length reports)%nat.
Proof.
  rewrite runMonitoringCycle_eq. eexists; eexists. split; [reflexivity|].
  destruct (cycle_fields nlp_sentences config (feed w (newsRssFeeds config)) w)
    as (_ & _ & _ & _ & _ & _ & _ & Hs & _).
  cbv zeta in Hs. split.
  - rewrite Hs, length_app, length_map. reflexivity.
  - apply filter_length_le.
Qed.

(* ------------------------------------------------------------------ *)
(** ** The hash of a report *)

Section HashFacts.
Local Open Scope nat_scope.

Lemma utf8_app (a b : string) : utf8 (a ++ b) = (utf8 a ++ utf8 b)%list.
Proof.
  induction a as [|c a IH]; cbn [append utf8]; [reflexivity|].
  now rewrite IH, app_assoc.
Qed.

Lemma utf8_ascii_length (s : string) :
  all_chars (fun c => code c <? 128) s = true ->
  List.length (utf8 s) = String.length s.
Proof.
  induction s as [|c s IH]; cbn [all_chars utf8 String.length];
    [reflexivity|].
  intro Hs. apply andb_true_iff in Hs. destruct Hs as [Hc Hs].
  rewrite Hc.
  change (List.length (code c :: utf8 s) = S (String.length s)).
  cbn [List.length]. f_equal. exact (IH Hs).
Qed.

Lemma plain_is_ascii (s : string) :
  all_chars json_plain s = true ->
  all_chars (fun c => code c <? 128) s = true.
Proof.
  induction s as [|c s IH]; cbn [all_chars]; [reflexivity|].
  intro Hs. apply andb_true_iff in Hs. destruct Hs as [Hc Hs].
  unfold json_plain in Hc. rewrite !andb_true_iff in Hc.
  destruct Hc as [[[_ Hc] _] _]. now rewrite Hc, IH.
Qed.

Lemma json_escape_plain (s : string) :
  all_chars json_plain s = true -> json_escape s = s.
Proof.
  induction s as [|c s IH]; cbn [all_chars json_escape]; [reflexivity|].
  intro Hs. apply andb_true_iff in Hs. destruct Hs as [Hc Hs].
  rewrite (IH Hs). unfold json_plain in Hc. rewrite !andb_true_iff in Hc.
  destruct Hc as [[[Hlo _] Hq] Hb]. unfold json_escape_char.
  apply negb_true_iff in Hq, Hb. rewrite Hq, Hb.
  apply Nat.leb_le in Hlo.
  rewrite !(proj2 (Nat.eqb_neq _ _)) by lia.
  rewrite (proj2 (Nat.ltb_ge _ _)) by lia. reflexivity.
Qed.

Lemma base64_group (a b c : nat) (rest : list nat) :
  base64 (a :: b :: c :: rest)
  = String (b64char (a / 4))
      (String (b64char (a mod 4 * 16 + b / 16))
         (String (b64char (b mod 16 * 4 + c / 64))
            (String (b64char (c mod 64)) (base64 rest)))).
Proof. reflexivity. Qed.

(** Base64 works on groups of three bytes. *)
Lemma base64_app (k : nat) :
  forall p r : list nat,
    List.length p = 3 * k ->
    base64 (p ++ r) = base64 p ++ base64 r
    /\ String.length (base64 p) = 4 * k.
Proof.
  induction k as [|k IH]; intros p r Hp.
  - destruct p; [now split | discriminate Hp].
  - destruct p as [|a [|b [|c p]]]; try (cbn in Hp; lia).
    cbn [List.length] in Hp. destruct (IH p r) as [E L]; [lia|].
    cbn [app]. rewrite !base64_group, E. cbn [String.length append].
    rewrite L. split; [reflexivity | lia].
Qed.

Lemma substring_0_exact (a b : string) :
  substring 0 (String.length a) (a ++ b) = a.
Proof.
  induction a as [|c a IH]; cbn [String.length append].
  - destruct b; reflexivity.
  - cbn [substring]. now rewrite IH.
Qed.

(** The first 64 characters of the encoding are the encoding of the
    first 48 bytes. *)
Lemma base64_head (bytes : list nat) :
  48 <= List.length bytes ->
  substring 0 64 (base64 bytes) = base64 (firstn 48 bytes).
Proof.
  intro Hlen.
  rewrite <- (firstn_skipn 48 bytes) at 1.
  assert (List.length (firstn 48 bytes) = 3 * 16) as Hp
    by (rewrite firstn_length_le; lia).
  destruct (base64_app 16 (firstn 48 bytes) (skipn 48 bytes) Hp) as [E L].
  rewrite E. change 64 with (4 * 16). rewrite <- L.
  apply substring_0_exact.
Qed.

Lemma all_chars_app (p : ascii -> bool) (a b : string) :
  all_chars p (a ++ b) = all_chars p a && all_chars p b.
Proof.
  induction a as [|c a IH]; cbn [append all_chars]; [reflexivity|].
  now rewrite IH, andb_assoc.
Qed.

End HashFacts.

Section HashHead.
Context {N : Type} {num : Number N}.
Variable show_number : N -> string.
Local Open Scope nat_scope.

(** The head is where the serialized text starts. *)
Lemma hashData_head (r : MisinformationReport N) :
  all_chars json_plain (report_id r) = true ->
  hashData show_number r
  = hashedHead (report_id r)
    ++ json_escape (url (report_article r)) ++ quote
    ++ "," ++ json_key "overallScore" ++ show_number (overallScore r)
    ++ "," ++ json_key "timestamp" ++ decimal (createdAt r) ++ "}".
Proof.
  intro Hplain. unfold hashData, hashedHead, json_string, json_key.
  rewrite (json_escape_plain _ Hplain). now rewrite !append_assoc.
Qed.

Lemma hashedHead_bytes (id : string) :
  all_chars json_plain id = true -> 25 <= String.length id ->
  48 <= List.length (utf8 (hashedHead id)).
Proof.
  intros Hplain Hlong. rewrite utf8_ascii_length.
  - unfold hashedHead, json_key, quote. rewrite !append_length.
    cbn [String.length]. lia.
  - unfold hashedHead, json_key, quote.
    rewrite !all_chars_app, (plain_is_ascii _ Hplain). reflexivity.
Qed.

Lemma hashReport_head (r : MisinformationReport N) :
  all_chars json_plain (report_id r) = true ->
  25 <= String.length (report_id r) ->
  hashReport show_number r
  = base64 (firstn 48 (utf8 (hashedHead (report_id r)))).
Proof.
  intros Hplain Hlong.
  pose proof (hashedHead_bytes _ Hplain Hlong) as Hhead.
  unfold hashReport, substring_js. rewrite (hashData_head _ Hplain).
  rewrite Nat.sub_0_r.
  rewrite base64_head by (rewrite utf8_app, length_app; lia).
  rewrite utf8_app, firstn_app.
  replace (48 - List.length (utf8 (hashedHead (report_id r)))) with 0
    by lia.
  cbn [firstn]. now rewrite app_nil_r.
Qed.

End HashHead.

(** X20: the hash of a report covers its identifier only.  For a report
    whose identifier has at least 25 characters, all written by
    [JSON.stringify] as they are (as the 32 hexadecimal digits of a
    generated identifier are), the serialized text starts with the
    identifier and the key of the article URL, up to the quote that
    opens the URL; the value [hashReport] returns is the Base64 form of
    the first 48 bytes of that start, 64 characters that the identifier
    alone determines: a report with the same identifier has the same
    hash whatever its article URL, score and time stamp. *)
Theorem hashReport_covers_id_only (N : Type) (num : Number N)
    (show_number : N -> string) (r : MisinformationReport N)
    (Hplain : all_chars json_plain (report_id r) = true)
    (Hlong : (25 <= String.length (report_id r))%nat) :
  (exists rest : string,
      hashData show_number r = hashedHead (report_id r) ++ rest)
  /\ hashReport show_number r
     = base64 (firstn 48 (utf8 (hashedHead (report_id r))))
  /\ String.length (hashReport show_number r) = 64%nat
  /\ (forall r' : MisinformationReport N,
         report_id r' = report_id r ->
         hashReport show_number r' = hashReport show_number r).
Proof.
  split; [eexists; now apply hashData_head|].
  split; [now apply hashReport_head|].
  split.
  - rewrite hashReport_head by assumption.
    destruct (base64_app 16
                (firstn 48 (utf8 (hashedHead (report_id r)))) [])
      as [_ L]; [|rewrite L; reflexivity].
    rewrite firstn_length_le; [reflexivity|].
    now apply hashedHead_bytes.
  - intros r' Hid. rewrite !hashReport_head; rewrite ?Hid; auto.
Qed.

Lemma hashReport_covers_id_only_witness :
  let r := report_with "00112233445566778899aabbccddeeff"
             "https://example.org/a" 0.2 1 in
  let r' := report_with "00112233445566778899aabbccddeeff"
              "https://example.org/another" 0 2 in
  all_chars json_plain (report_id r) = true
  /\ (25 <= String.length (report_id r))%nat
  /\ hashReport show_sign r' = hashReport show_sign r
  /\ hashReport show_sign r
     = "eyJpZCI6IjAwMTEyMjMzNDQ1NTY2Nzc4ODk5YWFiYmNjZGRlZWZmIiwiYXJ0aWNs".
Proof.
  cbv zeta. split; [reflexivity|]. split; [cbn; lia|].
  split; [|reflexivity].
  assert (25 <= String.length
                  (report_id (report_with "00112233445566778899aabbccddeeff"
                                "https://example.org/a" 0.2 1)))%nat
    as Hlong by (cbn; lia).
  destruct (@hashReport_covers_id_only Q Q_Number show_sign
              (report_with "00112233445566778899aabbccddeeff"
                 "https://example.org/a" 0.2 1) eq_refl Hlong)
    as (_ & _ & _ & Hsame).
  apply Hsame. reflexivity.
Defined.

(* ------------------------------------------------------------------ *)
(** ** Stripping markup *)

Section SpaceFacts.
Local Open Scope nat_scope.

(** The first match of a repeated one-character class. *)
Lemma exec_plus_find (ci : bool) (r' : regex) (p : ascii -> bool)
    (one_char :
       forall (prev : option ascii) (s : string) (k : Cont),
         rmatch ci r' prev s k
         = match s with
           | String c s' => if p c then k (Some c) s' else None
           | EmptyString => None
           end)
    (prev : option ascii) (s : string) :
  exec ci (RRep 1 r') prev s = find_run p s.
Proof.
  revert prev. induction s as [|c s IH]; intro prev; cbn [exec find_run];
    rewrite (@rmatch_rep_accept ci r' p one_char); cbn [run dropWhile].
  - reflexivity.
  - destruct (p c); cbn [Nat.leb]; [reflexivity | apply IH].
Qed.

Lemma class_s_one_char (prev : option ascii) (s : string) (k : Cont) :
  rmatch false (RClass class_s) prev s k
  = match s with
    | String c s' => if class_s c then k (Some c) s' else None
    | EmptyString => None
    end.
Proof.
  cbn [rmatch]. unfold class_matches.
  destruct s as [|c s]; [reflexivity|]. now rewrite orb_false_r.
Qed.

Lemma dropWhile_length (p : ascii -> bool) (s : string) :
  String.length (dropWhile p s) <= String.length s.
Proof.
  induction s as [|c s IH]; cbn [dropWhile String.length]; [lia|].
  destruct (p c); cbn [String.length]; lia.
Qed.

Lemma find_run_Some (p : ascii -> bool) (s from rest : string) :
  find_run p s = Some (from, rest) ->
  exists pre c t,
    s = pre ++ from /\ from = String c t /\ p c = true
    /\ rest = dropWhile p t
    /\ all_chars (fun x => negb (p x)) pre = true.
Proof.
  revert from rest. induction s as [|c s IH]; intros from rest;
    cbn [find_run]; [discriminate|].
  destruct (p c) eqn:Hc.
  - intros [= <- <-]. exists "", c, s. cbn [dropWhile]. rewrite Hc.
    repeat split.
  - intro H. destruct (IH _ _ H) as (pre & d & t & -> & -> & Hd & -> & Hpre).
    exists (String c pre), d, t. cbn [append all_chars].
    rewrite Hc, Hpre. repeat split. exact Hd.
Qed.

Lemma find_run_None (p : ascii -> bool) (s : string) :
  find_run p s = None -> all_chars (fun x => negb (p x)) s = true.
Proof.
  induction s as [|c s IH]; cbn [find_run all_chars]; [reflexivity|].
  destruct (p c); [discriminate|]. exact IH.
Qed.

Lemma append_nil_r (s : string) : s ++ "" = s.
Proof. induction s as [|c s IH]; cbn; [reflexivity | now rewrite IH]. Qed.

Lemma squeeze_plain (pre t : string) :
  all_chars (fun x => negb (class_s x)) pre = true ->
  squeeze false (pre ++ t) = pre ++ squeeze false t.
Proof.
  induction pre as [|c pre IH]; cbn [append all_chars squeeze];
    [reflexivity|].
  intro H. apply andb_true_iff in H. destruct H as [Hc Hpre].
  apply negb_true_iff in Hc. rewrite Hc. now rewrite IH.
Qed.

Lemma squeeze_skipping (t : string) :
  squeeze true t = squeeze false (dropWhile class_s t).
Proof.
  induction t as [|c t IH]; cbn [squeeze dropWhile]; [reflexivity|].
  destruct (class_s c) eqn:Hc; [exact IH|]. cbn [squeeze]. now rewrite Hc.
Qed.

(** Replacing every run of white space by one space squeezes the runs. *)
Lemma replace_spaces_loop (fuel : nat) :
  forall (prev : option ascii) (s : string),
    String.length s < fuel ->
    replace_loop false fuel re_spaces " " prev s = squeeze false s.
Proof.
  induction fuel as [|fuel IH]; intros prev s Hfuel; [lia|].
  cbn [replace_loop]. unfold re_spaces.
  rewrite (@exec_plus_find false _ class_s class_s_one_char).
  destruct (find_run class_s s) as [[from rest]|] eqn:Hfind.
  - destruct (find_run_Some _ _ Hfind)
      as (pre & c & t & -> & -> & Hc & -> & Hpre).
    pose proof (dropWhile_length class_s t) as Hdrop.
    rewrite append_length in *. cbn [String.length] in *.
    replace (String.length pre + S (String.length t) - S (String.length t))
      with (String.length pre) by lia.
    rewrite substring_0_exact.
    destruct (S (String.length t) - String.length (dropWhile class_s t))
      as [|len] eqn:Hlen; [lia|].
    fold re_spaces. rewrite IH by lia.
    rewrite (squeeze_plain _ _ Hpre). cbn [squeeze]. rewrite Hc.
    rewrite squeeze_skipping. reflexivity.
  - apply find_run_None in Hfind.
    rewrite <- (append_nil_r s) at 2.
    rewrite (squeeze_plain _ _ Hfind). cbn [squeeze].
    now rewrite append_nil_r.
Qed.

Lemma replace_spaces (s : string) :
  replace_g false re_spaces " " s = squeeze false s.
Proof. apply replace_spaces_loop. lia. Qed.

Lemma squeeze_single_spaced (b : bool) (s : string) :
  single_spaced b (squeeze b s) = true.
Proof.
  revert b. induction s as [|c s IH]; intro b; cbn [squeeze];
    [reflexivity|].
  destruct (class_s c) eqn:Hc.
  - destruct b; [apply IH|]. cbn [single_spaced].
    change (class_s " ") with true. cbn. apply IH.
  - cbn [single_spaced]. rewrite Hc. apply IH.
Qed.

Lemma squeeze_fixed (b : bool) (s : string) :
  single_spaced b s = true -> squeeze b s = s.
Proof.
  revert b. induction s as [|c s IH]; intro b; cbn [single_spaced squeeze];
    [reflexivity|].
  destruct (class_s c).
  - rewrite !andb_true_iff. intros [[Hsp Hb] Hs].
    apply negb_true_iff in Hb. subst b.
    apply Ascii.eqb_eq in Hsp. subst c. now rewrite (IH true Hs).
  - intro Hs. now rewrite (IH false Hs).
Qed.

End SpaceFacts.

Section TagFacts.
Local Open Scope nat_scope.

Lemma orElse_None_r (A : Type) (a : option A) : orElse a None = a.
Proof. now destruct a. Qed.

Lemma any_char_app (p : ascii -> bool) (a b : string) :
  any_char p (a ++ b) = any_char p a || any_char p b.
Proof.
  induction a as [|c a IH]; cbn [append any_char]; [reflexivity|].
  now rewrite IH, orb_assoc.
Qed.

Lemma closes_cons (c : ascii) (s : string) :
  closes (String c s) = if is_gt c then Some s else closes s.
Proof. unfold closes. cbn [dropWhile]. now destruct (is_gt c). Qed.

(** After the [<], the tag pattern looks for the first [>]. *)
Lemma rep_until_gt (fuel : nat) :
  forall (prev : option ascii) (s : string),
    String.length s < fuel ->
    rep_loop false (RClass (fun c => negb (is_gt c)))
      (fun p2 s2 => match_str false ">" p2 s2 accept) fuel 0 prev s
    = closes s.
Proof.
  induction fuel as [|fuel IH]; intros prev s Hfuel; [lia|].
  rewrite rep_loop_S. cbn [rmatch Nat.eqb].
  destruct s as [|c s]; [reflexivity|].
  rewrite closes_cons. unfold class_matches. rewrite orb_false_r.
  cbn [match_str]. unfold char_matches. rewrite Ascii.eqb_sym.
  fold (is_gt c). cbn [String.length] in *.
  destruct (is_gt c); cbn [negb orElse]; [reflexivity|].
  replace (String.length s <? S (String.length s)) with true
    by (symmetry; apply Nat.ltb_lt; lia).
  rewrite IH by lia. apply orElse_None_r.
Qed.

Lemma rmatch_tag (prev : option ascii) (s : string) :
  rmatch false re_tag prev s accept
  = match s with
    | String c s' => if is_lt c then closes s' else None
    | EmptyString => None
    end.
Proof.
  change (rmatch false re_tag prev s accept)
    with (match_str false "<" prev s
            (fun p1 s1 =>
               rep_loop false (RClass (fun c => negb (is_gt c)))
                 (fun p2 s2 => match_str false ">" p2 s2 accept)
                 (S (String.length s1)) 0 p1 s1)).
  destruct s as [|c s]; [reflexivity|]. cbn [match_str].
  unfold char_matches. rewrite Ascii.eqb_sym. fold (is_lt c).
  destruct (is_lt c); [|reflexivity]. apply rep_until_gt. lia.
Qed.

Lemma exec_tag (prev : option ascii) (s : string) :
  exec false re_tag prev s = find_tag s.
Proof.
  revert prev. induction s as [|c s IH]; intro prev;
    cbn [exec find_tag]; rewrite rmatch_tag; [reflexivity|].
  destruct (is_lt c); [destruct (closes s)|]; auto.
Qed.

Lemma closes_None (s : string) :
  closes s = None -> any_char is_gt s = false.
Proof.
  induction s as [|c s IH]; [reflexivity|].
  rewrite closes_cons. cbn [any_char].
  destruct (is_gt c); [discriminate | exact IH].
Qed.

Lemma closes_Some (s rest : string) :
  closes s = Some rest ->
  any_char is_gt s = true /\ String.length rest < String.length s.
Proof.
  revert rest. induction s as [|c s IH]; intro rest; [discriminate|].
  rewrite closes_cons. cbn [any_char String.length].
  destruct (is_gt c).
  - intros [= <-]. split; [reflexivity | lia].
  - intro H. destruct (IH _ H). split; [assumption | lia].
Qed.

Lemma find_tag_Some (s from rest : string) :
  find_tag s = Some (from, rest) ->
  exists pre t,
    s = pre ++ from /\ from = String "<" t /\ closes t = Some rest
    /\ any_char is_lt pre = false.
Proof.
  revert from rest. induction s as [|c s IH]; intros from rest;
    cbn [find_tag]; [discriminate|].
  destruct (is_lt c) eqn:Hc.
  - destruct (closes s) as [r|] eqn:Hcl.
    + intros [= <- <-]. exists "", s. apply Ascii.eqb_eq in Hc. subst c.
      repeat split. exact Hcl.
    + intro H. destruct (IH _ _ H) as (pre & t & Hs & -> & Ht & _).
      apply closes_None in Hcl. apply closes_Some in Ht.
      rewrite Hs, any_char_app in Hcl. cbn [any_char] in Hcl.
      destruct Ht as [Ht _]. rewrite Ht, !orb_true_r in Hcl.
      discriminate.
  - intro H. destruct (IH _ _ H) as (pre & t & -> & -> & Ht & Hpre).
    exists (String c pre), t. cbn [append any_char]. rewrite Hc, Hpre.
    repeat split. exact Ht.
Qed.

Lemma find_tag_None (s : string) : find_tag s = None -> tagged s = false.
Proof.
  induction s as [|c s IH]; cbn [find_tag tagged]; [reflexivity|].
  destruct (is_lt c).
  - destruct (closes s) eqn:Hcl; [discriminate|].
    intro H. now rewrite (closes_None _ Hcl), (IH H).
  - exact IH.
Qed.

Lemma tagged_app_plain (pre t : string) :
  any_char is_lt pre = false -> tagged (pre ++ t) = tagged t.
Proof.
  induction pre as [|c pre IH]; cbn [append any_char tagged];
    [reflexivity|].
  intro H. apply orb_false_iff in H. destruct H as [-> Hpre].
  now rewrite (IH Hpre).
Qed.

(** Once every tag is replaced by a space, no tag is left. *)
Lemma replace_tags_loop (fuel : nat) :
  forall (prev : option ascii) (s : string),
    String.length s < fuel ->
    tagged (replace_loop false fuel re_tag " " prev s) = false.
Proof.
  induction fuel as [|fuel IH]; intros prev s Hfuel; [lia|].
  cbn [replace_loop]. rewrite exec_tag.
  destruct (find_tag s) as [[from rest]|] eqn:Hfind.
  - destruct (find_tag_Some _ Hfind) as (pre & t & -> & -> & Ht & Hpre).
    destruct (closes_Some _ Ht) as [_ Hlen].
    rewrite append_length in *. cbn [String.length] in *.
    replace (String.length pre + S (String.length t) - S (String.length t))
      with (String.length pre) by lia.
    rewrite substring_0_exact.
    destruct (S (String.length t) - String.length rest)
      as [|len] eqn:Hl; [lia|].
    rewrite (tagged_app_plain _ _ Hpre). cbn [append tagged].
    rewrite IH by lia. reflexivity.
  - now apply find_tag_None.
Qed.

Lemma replace_tags_fixed (s : string) :
  tagged s = false -> replace_g false re_tag " " s = s.
Proof.
  intro Hs. unfold replace_g. cbn [replace_loop]. rewrite exec_tag.
  destruct (find_tag s) as [[from rest]|] eqn:Hfind; [|reflexivity].
  destruct (find_tag_Some _ Hfind) as (pre & t & -> & -> & Ht & Hpre).
  rewrite (tagged_app_plain _ _ Hpre) in Hs. cbn [tagged] in Hs.
  destruct (closes_Some _ Ht) as [Hgt _]. rewrite Hgt in Hs.
  discriminate.
Qed.

Lemma space_not_angle (c : ascii) :
  class_s c = true -> is_lt c = false /\ is_gt c = false.
Proof.
  intro Hc. unfold is_lt, is_gt.
  split; destruct (Ascii.eqb_spec c "<"), (Ascii.eqb_spec c ">");
    subst; try reflexivity; discriminate.
Qed.

Lemma all_spaces_no_gt (s : string) :
  all_chars class_s s = true -> any_char is_gt s = false.
Proof.
  induction s as [|c s IH]; cbn [all_chars any_char]; [reflexivity|].
  intro H. apply andb_true_iff in H. destruct H as [Hc Hs].
  destruct (space_not_angle _ Hc) as [_ ->]. now apply IH.
Qed.

Lemma all_spaces_untagged (s : string) :
  all_chars class_s s = true -> tagged s = false.
Proof.
  induction s as [|c s IH]; cbn [all_chars tagged]; [reflexivity|].
  intro H. apply andb_true_iff in H. destruct H as [Hc Hs].
  destruct (space_not_angle _ Hc) as [-> _]. now apply IH.
Qed.

Lemma any_gt_squeeze (b : bool) (s : string) :
  any_char is_gt (squeeze b s) = any_char is_gt s.
Proof.
  revert b. induction s as [|c s IH]; intro b; cbn [squeeze any_char];
    [reflexivity|].
  destruct (class_s c) eqn:Hc.
  - destruct (space_not_angle _ Hc) as [_ ->].
    destruct b; cbn [any_char]; now rewrite IH.
  - cbn [any_char]. now rewrite IH.
Qed.

Lemma tagged_squeeze (b : bool) (s : string) :
  tagged (squeeze b s) = tagged s.
Proof.
  revert b. induction s as [|c s IH]; intro b; cbn [squeeze tagged];
    [reflexivity|].
  destruct (class_s c) eqn:Hc.
  - destruct (space_not_angle _ Hc) as [-> _].
    destruct b; cbn [tagged]; now rewrite IH.
  - cbn [tagged]. now rewrite any_gt_squeeze, IH.
Qed.

Lemma tagged_trimStart (s : string) : tagged (trimStart s) = tagged s.
Proof.
  unfold trimStart.
  induction s as [|c s IH]; cbn [dropWhile tagged]; [reflexivity|].
  destruct (class_s c) eqn:Hc; [|reflexivity].
  destruct (space_not_angle _ Hc) as [-> _]. exact IH.
Qed.

Lemma any_gt_trimEnd (s : string) :
  any_char is_gt (trimEnd s) = any_char is_gt s.
Proof.
  induction s as [|c s IH]; [reflexivity|].
  cbn [trimEnd]. destruct (all_chars class_s (String c s)) eqn:Hall.
  - now rewrite (all_spaces_no_gt _ Hall).
  - cbn [any_char]. now rewrite IH.
Qed.

Lemma tagged_trimEnd (s : string) : tagged (trimEnd s) = tagged s.
Proof.
  induction s as [|c s IH]; [reflexivity|].
  cbn [trimEnd]. destruct (all_chars class_s (String c s)) eqn:Hall.
  - now rewrite (all_spaces_untagged _ Hall).
  - cbn [tagged]. now rewrite any_gt_trimEnd, IH.
Qed.

End TagFacts.

Section TrimFacts.
Local Open Scope nat_scope.

Lemma trimStart_starts (s : string) :
  starts_with_space (trimStart s) = false.
Proof.
  unfold trimStart.
  induction s as [|c s IH]; cbn [dropWhile]; [reflexivity|].
  destruct (class_s c) eqn:Hc; [exact IH | exact Hc].
Qed.

Lemma trimEnd_starts (s : string) :
  starts_with_space s = false -> starts_with_space (trimEnd s) = false.
Proof.
  destruct s as [|c s]; [reflexivity|]. cbn [trimEnd].
  now destruct (all_chars class_s (String c s)).
Qed.

Lemma trimEnd_empty (s : string) :
  trimEnd s = "" -> all_chars class_s s = true.
Proof.
  destruct s as [|c s]; [reflexivity|]. cbn [trimEnd].
  now destruct (all_chars class_s (String c s)).
Qed.

Lemma trimEnd_ends (s : string) : ends_with_space (trimEnd s) = false.
Proof.
  induction s as [|c s IH]; [reflexivity|].
  cbn [trimEnd]. destruct (all_chars class_s (String c s)) eqn:Hall;
    [reflexivity|].
  cbn [ends_with_space]. destruct (trimEnd s) as [|d t] eqn:Ht.
  - apply trimEnd_empty in Ht. cbn [all_chars] in Hall.
    now rewrite Ht, andb_true_r in Hall.
  - exact IH.
Qed.

Lemma single_spaced_trimStart (s : string) :
  forall b : bool,
    single_spaced b s = true -> single_spaced false (trimStart s) = true.
Proof.
  unfold trimStart.
  induction s as [|c s IH]; intro b; [reflexivity|].
  cbn [dropWhile single_spaced]. destruct (class_s c) eqn:Hc.
  - rewrite !andb_true_iff. intros [_ Hs]. exact (IH _ Hs).
  - cbn [single_spaced]. now rewrite Hc.
Qed.

Lemma single_spaced_trimEnd (s : string) :
  forall b : bool,
    single_spaced b s = true -> single_spaced b (trimEnd s) = true.
Proof.
  induction s as [|c s IH]; intro b; [reflexivity|].
  cbn [trimEnd]. destruct (all_chars class_s (String c s));
    [reflexivity|].
  cbn [single_spaced]. destruct (class_s c).
  - rewrite !andb_true_iff. intros [[Hsp Hb] Hs].
    now rewrite (IH _ Hs).
  - apply IH.
Qed.

Lemma trimStart_fixed (s : string) :
  starts_with_space s = false -> trimStart s = s.
Proof.
  destruct s as [|c s]; [reflexivity|]. unfold trimStart.
  cbn [starts_with_space dropWhile]. now intros ->.
Qed.

Lemma all_spaces_ends (s : string) (c : ascii) :
  all_chars class_s (String c s) = true ->
  ends_with_space (String c s) = true.
Proof.
  revert c. induction s as [|d s IH]; intro c; cbn [all_chars].
  - now rewrite andb_true_r.
  - intro H. apply andb_true_iff in H. destruct H as [_ H].
    exact (IH _ H).
Qed.

Lemma trimEnd_fixed (s : string) :
  ends_with_space s = false -> trimEnd s = s.
Proof.
  induction s as [|c s IH]; [reflexivity|]. intro H.
  cbn [trimEnd]. destruct (all_chars class_s (String c s)) eqn:Hall.
  - rewrite (all_spaces_ends _ _ Hall) in H. discriminate.
  - f_equal. apply IH. destruct s; [reflexivity | exact H].
Qed.

(** Text without tags, with single spaces only and none at either end
    is left as it is. *)
Lemma stripHtml_fixed (s : string) :
  tagged s = false -> single_spaced false s = true ->
  starts_with_space s = false -> ends_with_space s = false ->
  stripHtml s = s.
Proof.
  intros Htag Hsp Hstart Hend. unfold stripHtml, trim.
  rewrite (replace_tags_fixed _ Htag), replace_spaces,
    (squeeze_fixed _ _ Hsp), (trimStart_fixed _ Hstart).
  now apply trimEnd_fixed.
Qed.

End TrimFacts.

Section StripFacts.
Local Open Scope nat_scope.

Lemma stripHtml_untagged (html : string) : tagged (stripHtml html) = false.
Proof.
  unfold stripHtml, trim.
  rewrite tagged_trimEnd, tagged_trimStart, replace_spaces, tagged_squeeze.
  apply replace_tags_loop. lia.
Qed.

Lemma stripHtml_single_spaced (html : string) :
  single_spaced false (stripHtml html) = true.
Proof.
  unfold stripHtml, trim. rewrite replace_spaces.
  apply single_spaced_trimEnd.
  apply (@single_spaced_trimStart _ false).
  apply squeeze_single_spaced.
Qed.

Lemma stripHtml_trimmed (html : string) :
  starts_with_space (stripHtml html) = false
  /\ ends_with_space (stripHtml html) = false.
Proof.
  unfold stripHtml, trim. split.
  - apply trimEnd_starts, trimStart_starts.
  - apply trimEnd_ends.
Qed.

Lemma stripHtml_idempotent (html : string) :
  stripHtml (stripHtml html) = stripHtml html.
Proof.
  destruct (stripHtml_trimmed html).
  apply stripHtml_fixed; auto using stripHtml_untagged,
    stripHtml_single_spaced.
Qed.

End StripFacts.

(** X21: whatever the input, [stripHtml] returns text that holds no tag
    (no [<] with a [>] after it), whose white space is single spaces only,
    that neither starts nor ends with white space; stripping it again
    changes nothing. *)
Theorem stripHtml_clean (html : string) :
  let text := stripHtml html in
  tagged text = false
  /\ single_spaced false text = true
  /\ starts_with_space text = false
  /\ ends_with_space text = false
  /\ stripHtml text = text.
Proof.
  cbv zeta. destruct (stripHtml_trimmed html) as [Hstart Hend].
  split; [apply stripHtml_untagged|].
  split; [apply stripHtml_single_spaced|].
  split; [exact Hstart|]. split; [exact Hend|].
  apply stripHtml_idempotent.
Qed.

(* ------------------------------------------------------------------ *)
(** ** Reading the feeds *)

Section FetchFacts.
Local Open Scope nat_scope.
Local Open Scope list_scope.
Variable md5hex : string -> string.
Variable parseDate : string -> Timestamp.
Variable date : Timestamp.

Lemma fetch_items_loop (feedUrl : string) (feed : RssFeed)
    (its : list RssItem) :
  forall acc : list NewsArticle,
    fold_left
      (fun articles item =>
         match article_of_item md5hex parseDate date feedUrl feed item with
         | Some article => articles ++ [article]
         | None => articles
         end) its acc
    = acc ++ flat_map
               (fun item =>
                  match article_of_item md5hex parseDate date feedUrl feed
                          item with
                  | Some article => [article]
                  | None => []
                  end) its.
Proof.
  induction its as [|item its IH]; intro acc; cbn [fold_left flat_map].
  - now rewrite app_nil_r.
  - rewrite IH.
    destruct (article_of_item md5hex parseDate date feedUrl feed item);
      [now rewrite <- app_assoc | reflexivity].
Qed.

Lemma fetch_loop (feedUrls : list (string * option RssFeed)) :
  forall acc : list NewsArticle,
    fold_left
      (fun articles '(feedUrl, parsed) =>
         match parsed with
         | Some feed =>
             fold_left
               (fun articles item =>
                  match article_of_item md5hex parseDate date feedUrl feed
                          item with
                  | Some article => articles ++ [article]
                  | None => articles
                  end) (items feed) articles
         | None => articles
         end) feedUrls acc
    = acc ++ fetchFromRSS_impl md5hex parseDate date feedUrls.
Proof.
  unfold fetchFromRSS_impl.
  induction feedUrls as [|[feedUrl [feed|]] feedUrls IH]; intro acc;
    cbn [fold_left].
  - now rewrite app_nil_r.
  - rewrite IH, (IH (fold_left _ _ [])), !fetch_items_loop.
    cbn [app]. now rewrite app_assoc.
  - apply IH.
Qed.

Lemma fetch_app (fs1 fs2 : list (string * option RssFeed)) :
  fetchFromRSS_impl md5hex parseDate date (fs1 ++ fs2)
  = fetchFromRSS_impl md5hex parseDate date fs1
    ++ fetchFromRSS_impl md5hex parseDate date fs2.
Proof.
  unfold fetchFromRSS_impl at 1. rewrite fold_left_app.
  fold (fetchFromRSS_impl md5hex parseDate date fs1). apply fetch_loop.
Qed.

Lemma fetch_one (feedUrl : string) (feed : RssFeed) :
  fetchFromRSS_impl md5hex parseDate date [(feedUrl, Some feed)]
  = flat_map
      (fun item =>
         match article_of_item md5hex parseDate date feedUrl feed item with
         | Some article => [article]
         | None => []
         end) (items feed).
Proof.
  unfold fetchFromRSS_impl. cbn [fold_left]. now rewrite fetch_items_loop.
Qed.

Lemma fetch_In (fs : list (string * option RssFeed)) (a : NewsArticle) :
  In a (fetchFromRSS_impl md5hex parseDate date fs) ->
  exists feedUrl feed item,
    In (feedUrl, Some feed) fs /\ In item (items feed)
    /\ article_of_item md5hex parseDate date feedUrl feed item = Some a.
Proof.
  induction fs as [|[feedUrl parsed] fs IH].
  - intros [].
  - change ((feedUrl, parsed) :: fs) with ([(feedUrl, parsed)] ++ fs).
    rewrite fetch_app, in_app_iff. intros [H|H].
    + destruct parsed as [feed|]; [|destruct H].
      rewrite fetch_one, in_flat_map in H. destruct H as (item & Hitem & H).
      exists feedUrl, feed, item. split; [now left|]. split; [exact Hitem|].
      destruct (article_of_item md5hex parseDate date feedUrl feed item)
        as [b|]; [|destruct H].
      destruct H as [->|[]]. reflexivity.
    + destruct (IH H) as (u & feed & item & Hin & Hrest).
      exists u, feed, item. split; [now right | exact Hrest].
Qed.

Lemma truthy_text_of (o : option string) :
  truthy_opt o = true -> truthy (text_of o) = true.
Proof. destruct o; [trivial | discriminate]. Qed.

Lemma article_of_item_fields (feedUrl : string) (feed : RssFeed)
    (item : RssItem) (a : NewsArticle) :
  article_of_item md5hex parseDate date feedUrl feed item = Some a ->
  truthy (title a) = true /\ truthy (url a) = true
  /\ article_id a = md5hex (url a)
  /\ stripHtml (content a) = content a.
Proof.
  unfold article_of_item.
  destruct (truthy_opt (item_title item)) eqn:Ht;
    [|discriminate].
  destruct (truthy_opt (item_link item)) eqn:Hl; [|discriminate].
  cbn [negb orb]. intros [= <-].
  cbn [title url article_id content]. unfold generateId.
  split; [now apply truthy_text_of|]. split; [now apply truthy_text_of|].
  split; [reflexivity | apply stripHtml_idempotent].
Qed.

End FetchFacts.

(** X22: [fetchFromRSS] reads the feeds one after the other and appends
    what each gives: the articles of a list of feeds are those of its
    first part followed by those of the rest; a feed whose download or
    parsing raises gives nothing and takes nothing away; a feed gives one
    article per item that has a title and a link, in the order of the
    items (nothing is merged or dropped as a duplicate); and every article
    has a title and an address that are not empty, the MD5 of its address
    as identifier, and content that [stripHtml] has cleaned. *)
Theorem fetchFromRSS_articles (md5hex : string -> string)
    (parseDate : string -> Timestamp) (date : Timestamp) :
  let fetch := fetchFromRSS_impl md5hex parseDate date in
  (forall fs1 fs2, fetch (fs1 ++ fs2)%list = (fetch fs1 ++ fetch fs2)%list)
  /\ (forall feedUrl, fetch [(feedUrl, None)] = [])
  /\ (forall feedUrl feed,
        fetch [(feedUrl, Some feed)]
        = flat_map
            (fun item =>
               match article_of_item md5hex parseDate date feedUrl feed
                       item with
               | Some article => [article]
               | None => []
               end) (items feed)
        /\ List.length (fetch [(feedUrl, Some feed)])
           = List.length
               (filter
                  (fun item =>
                     truthy_opt (item_title item)
                     && truthy_opt (item_link item)) (items feed)))
  /\ (forall fs a,
        In a (fetch fs) ->
        truthy (title a) = true /\ truthy (url a) = true
        /\ article_id a = md5hex (url a)
        /\ stripHtml (content a) = content a).
Proof.
  cbv zeta. split; [apply fetch_app|]. split; [reflexivity|]. split.
  - intros feedUrl feed. split; [apply fetch_one|]. rewrite fetch_one.
    induction (items feed) as [|item its IH]; [reflexivity|].
    cbn [flat_map filter]. rewrite length_app, IH.
    unfold article_of_item.
    destruct (truthy_opt (item_title item)),
      (truthy_opt (item_link item)); reflexivity.
  - intros fs a Hin.
    destruct (fetch_In _ _ _ _ _ Hin) as (u & feed & item & _ & _ & Ha).
    exact (article_of_item_fields _ _ _ _ _ _ Ha).
Qed.

Lemma fetchFromRSS_articles_witness :
  let fetch := fetchFromRSS_impl (fun link => link) (fun _ => 0%nat) 7%nat in
  let a := {| article_id := "https://example.org/a";
              title := "Rates rise";
              content := "Rates rose by 2% today.";
              url := "https://example.org/a";
              source := "Example";
              publishedAt := 7%nat;
              author := None |} in
  In a (fetch [("https://down.example", None);
               ("https://example.org/rss", Some sample_feed)])
  /\ truthy (title a) = true /\ truthy (url a) = true
  /\ article_id a = url a
  /\ stripHtml (content a) = content a.
Proof.
  cbv zeta.
  assert (In {| article_id := "https://example.org/a";
                title := "Rates rise";
                content := "Rates rose by 2% today.";
                url := "https://example.org/a";
                source := "Example";
                publishedAt := 7%nat;
                author := None |}
            (fetchFromRSS_impl (fun link => link) (fun _ => 0%nat) 7%nat
               [("https://down.example", None);
                ("https://example.org/rss", Some sample_feed)])) as Hin.
  { vm_compute. left. reflexivity. }
  split; [exact Hin|].
  destruct (fetchFromRSS_articles (fun link => link) (fun _ => 0%nat) 7%nat)
    as (_ & _ & _ & Hfields).
  exact (Hfields _ _ Hin).
Defined.

(* ------------------------------------------------------------------ *)
(** ** The statistics test of the heuristic *)

Section GreedyFacts.
Local Open Scope nat_scope.
Variable ci : bool.
Variable r' : regex.
Variable p : ascii -> bool.
Variable k : Cont.
Hypothesis one_char :
  forall (prev : option ascii) (s : string) (k : Cont),
    rmatch ci r' prev s k
    = match s with
      | String c s' => if p c then k (Some c) s' else None
      | EmptyString => None
      end.
Hypothesis k_prev : forall (p1 p2 : option ascii) (s : string), k p1 s = k p2 s.
Hypothesis k_rejects :
  forall (prev : option ascii) (c : ascii) (s : string),
    p c = true -> k prev (String c s) = None.

(** A repetition of a one-character class before something that cannot
    start with a character of the class takes the whole run. *)
Lemma rep_greedy (fuel : nat) :
  forall (need : nat) (prev : option ascii) (s : string),
    String.length s < fuel ->
    rep_loop ci r' k fuel need prev s
    = if need <=? run p s then k prev (dropWhile p s) else None.
Proof.
  induction fuel as [|fuel IH]; intros need prev s Hfuel; [lia|].
  rewrite rep_loop_S, one_char.
  destruct s as [|c s]; cbn [run dropWhile orElse].
  - destruct need; reflexivity.
  - destruct (p c) eqn:Hc.
    + cbn [String.length] in *.
      replace (String.length s <? S (String.length s)) with true
        by (symmetry; apply Nat.ltb_lt; lia).
      rewrite IH by lia.
      rewrite (k_rejects prev s Hc).
      replace (if need =? 0 then None else None) with (@None string)
        by now destruct (need =? 0).
      rewrite orElse_None_r, (k_prev (Some c) prev).
      destruct need; reflexivity.
    + destruct need; reflexivity.
Qed.

Lemma rmatch_greedy (min : nat) (prev : option ascii) (s : string) :
  rmatch ci (RRep min r') prev s k
  = if min <=? run p s then k prev (dropWhile p s) else None.
Proof. rewrite rmatch_rep. apply rep_greedy. lia. Qed.

End GreedyFacts.

Section StatisticsFacts.
Local Open Scope nat_scope.

Lemma rmatch_seq (ci : bool) (r1 r2 : regex) (prev : option ascii)
    (s : string) (k : Cont) :
  rmatch ci (RSeq r1 r2) prev s k
  = rmatch ci r1 prev s (fun prev' s' => rmatch ci r2 prev' s' k).
Proof. reflexivity. Qed.

Lemma rmatch_alt (ci : bool) (r1 r2 : regex) (prev : option ascii)
    (s : string) (k : Cont) :
  rmatch ci (RAlt r1 r2) prev s k
  = orElse (rmatch ci r1 prev s k) (rmatch ci r2 prev s k).
Proof. reflexivity. Qed.

Lemma class_one_char (p : ascii -> bool) (prev : option ascii) (s : string)
    (k : Cont) :
  rmatch false (RClass p) prev s k
  = match s with
    | String c s' => if p c then k (Some c) s' else None
    | EmptyString => None
    end.
Proof.
  cbn [rmatch]. unfold class_matches.
  destruct s as [|c s]; [reflexivity|]. now rewrite orb_false_r.
Qed.

Lemma match_str_prev (pat : string) (p1 p2 : option ascii) (s : string) :
  match_str false pat p1 s accept = match_str false pat p2 s accept.
Proof.
  destruct pat as [|a pat]; [reflexivity|].
  destruct s as [|c s]; reflexivity.
Qed.

Lemma is_some_false (A : Type) (a : option A) : is_some a = false -> a = None.
Proof. now destruct a. Qed.

Lemma digit_not_space (c : ascii) : class_d c = true -> class_s c = false.
Proof.
  intro Hc. apply negb_true_iff. revert Hc. apply implb_true_iff.
  revert c.
  apply (all_ascii_forall (fun c => implb (class_d c) (negb (class_s c)))).
  vm_compute. reflexivity.
Qed.

Lemma words_match (prev : option ascii) (s : string) :
  is_some
    (rmatch false
       (RAlt (RStr "million") (RAlt (RStr "billion") (RStr "thousand")))
       prev s accept)
  = magnitude_next s.
Proof.
  rewrite !rmatch_alt, !is_some_orElse. cbn [rmatch].
  rewrite !match_str_prefix. unfold magnitude_next. apply orb_assoc.
Qed.

Lemma words_prev (p1 p2 : option ascii) (s : string) :
  rmatch false
    (RAlt (RStr "million") (RAlt (RStr "billion") (RStr "thousand")))
    p1 s accept
  = rmatch false
      (RAlt (RStr "million") (RAlt (RStr "billion") (RStr "thousand")))
      p2 s accept.
Proof.
  rewrite !rmatch_alt. cbn [rmatch].
  now rewrite (match_str_prev "million" p1 p2),
    (match_str_prev "billion" p1 p2), (match_str_prev "thousand" p1 p2).
Qed.

Lemma words_reject (prev : option ascii) (c : ascii) (s : string) :
  class_d c = true \/ class_s c = true ->
  rmatch false
    (RAlt (RStr "million") (RAlt (RStr "billion") (RStr "thousand")))
    prev (String c s) accept
  = None.
Proof.
  intro Hc. apply is_some_false. rewrite words_match.
  unfold magnitude_next. cbn [prefix].
  destruct (ascii_dec "m" c) as [<-|_];
    [destruct Hc; discriminate|].
  destruct (ascii_dec "b" c) as [<-|_];
    [destruct Hc; discriminate|].
  destruct (ascii_dec "t" c) as [<-|_];
    [destruct Hc; discriminate|].
  reflexivity.
Qed.

(** Optional white space, then a magnitude word. *)
Lemma magnitude_match (prev : option ascii) (s : string) :
  rmatch false
    (RSeq (RRep 0 (RClass class_s))
       (RAlt (RStr "million") (RAlt (RStr "billion") (RStr "thousand"))))
    prev s accept
  = rmatch false
      (RAlt (RStr "million") (RAlt (RStr "billion") (RStr "thousand")))
      prev (dropWhile class_s s) accept.
Proof.
  rewrite rmatch_seq.
  rewrite (@rmatch_greedy false (RClass class_s) class_s
             (fun prev' s' =>
                rmatch false
                  (RAlt (RStr "million")
                     (RAlt (RStr "billion") (RStr "thousand")))
                  prev' s' accept)
             (class_one_char class_s)).
  - reflexivity.
  - intros p1 p2 s0. apply words_prev.
  - intros prev0 c s0 Hc. apply words_reject. now right.
Qed.

Lemma percent_match (prev : option ascii) (s : string) :
  rmatch false (RSeq (RRep 1 (RClass class_d)) (RStr "%")) prev s accept
  = if 1 <=? run class_d s
    then match_str false "%" prev (dropWhile class_d s) accept
    else None.
Proof.
  rewrite rmatch_seq.
  rewrite (@rmatch_greedy false (RClass class_d) class_d
             (fun prev' s' => rmatch false (RStr "%") prev' s' accept)
             (class_one_char class_d)).
  - reflexivity.
  - intros p1 p2 s0. apply (match_str_prev "%").
  - intros prev0 c s0 Hc. cbn [rmatch match_str]. unfold char_matches.
    destruct (Ascii.eqb_spec "%" c) as [<-|_]; [discriminate | reflexivity].
Qed.

Lemma amount_match (prev : option ascii) (s : string) :
  rmatch false
    (RSeq (RRep 1 (RClass class_d))
       (RSeq (RRep 0 (RClass class_s))
          (RAlt (RStr "million") (RAlt (RStr "billion") (RStr "thousand")))))
    prev s accept
  = if 1 <=? run class_d s
    then rmatch false
           (RAlt (RStr "million") (RAlt (RStr "billion") (RStr "thousand")))
           prev (dropWhile class_s (dropWhile class_d s)) accept
    else None.
Proof.
  rewrite rmatch_seq.
  rewrite (@rmatch_greedy false (RClass class_d) class_d
             (fun prev' s' =>
                rmatch false
                  (RSeq (RRep 0 (RClass class_s))
                     (RAlt (RStr "million")
                        (RAlt (RStr "billion") (RStr "thousand"))))
                  prev' s' accept)
             (class_one_char class_d)).
  - now rewrite magnitude_match.
  - intros p1 p2 s0. rewrite !magnitude_match. apply words_prev.
  - intros prev0 c s0 Hc. rewrite magnitude_match. cbn [dropWhile].
    rewrite (digit_not_space _ Hc). apply words_reject. now left.
Qed.

Lemma statistics_here (prev : option ascii) (s : string) :
  is_some (rmatch false re_statistics prev s accept)
  = match s with
    | EmptyString => false
    | String c s' =>
        class_d c
        && (prefix "%" (dropWhile class_d s')
            || magnitude_next (dropWhile class_s (dropWhile class_d s')))
    end.
Proof.
  unfold re_statistics.
  rewrite rmatch_alt, is_some_orElse, percent_match, amount_match.
  destruct s as [|c s]; [reflexivity|]. cbn [run dropWhile].
  destruct (class_d c); [|reflexivity]. cbn [Nat.leb andb].
  now rewrite match_str_prefix, words_match.
Qed.

Lemma test_statistics (s : string) :
  test false re_statistics s = quotes_statistic s.
Proof.
  rewrite test_is_some. generalize (@None ascii).
  induction s as [|c s IH]; intro prev;
    rewrite exec_step, statistics_here; [reflexivity|].
  cbn [quotes_statistic]. now rewrite IH.
Qed.

End StatisticsFacts.

(** X23: the unsourced-statistics rule of the heuristic.  The rule fires
    exactly when the lower-cased text of the claim holds a number that is
    followed at once by a percent sign or, after any white space, by
    "million", "billion" or "thousand", and holds none of "according to",
    "source", "research", "study". *)
Theorem statistics_rule (claim : Claim) :
  let lowered := toLowerCase (text claim) in
  unsourcedStatistics claim
  = quotes_statistic lowered
    && negb (contains_any lowered
               ["according to"; "source"; "research"; "study"]).
Proof.
  cbv zeta. unfold unsourcedStatistics.
  now rewrite test_statistics, test_citation.
Qed.
